(** * Download-from-All: the subscription gate, the user directory and the
      message router of [main.py]

    A shallow embedding of the Telegram downloader bot.  The SQLite store is
    a pair of tables held as lists of rows, the handlers are programs of a
    small state, exception and trace monad, and the collaborators (the
    Telegram Bot API, yt_dlp, the file system, the clocks) are an interface
    whose answers the handlers cannot predict.  A handler is run from a
    state (the store and the outside world) and gives its result or
    exception, the state it leaves and the trace of its calls. *)

From Stdlib Require Import ZArith List String Ascii Bool Lia DecimalString.
Import ListNotations.
Open Scope string_scope.
Open Scope Z_scope.

(** ** Python values, exceptions *)

(** The values the program passes as a keyword argument of
    [update_user_info] or as a message text: [None], [int], [bool], [str]
    and [datetime]; [PyObject cls] is an object of a class [cls] the
    sqlite3 module has no adapter for. *)
Inductive pyval : Type :=
| PyNone
| PyInt (n : Z)
| PyBool (b : bool)
| PyStr (s : string)
| PyDatetime (t : Z)
| PyObject (cls : string).

(** An exception, by the name of its class and its text.  [Exn] is an
    instance of a subclass of [Exception], the ones [except Exception]
    catches; [BaseExn] is one outside [Exception]: [asyncio.CancelledError],
    [KeyboardInterrupt], [SystemExit], [GeneratorExit]. *)
Inductive exn : Type :=
| Exn (exn_type exn_msg : string)
| BaseExn (exn_type exn_msg : string).

Definition exn_msg (e : exn) : string :=
  match e with
  | Exn _ msg => msg
  | BaseExn _ msg => msg
  end.

(** [isinstance(e, Exception)] *)
Definition is_exception (e : exn) : bool :=
  match e with
  | Exn _ _ => true
  | BaseExn _ _ => false
  end.

(** [str(e)] *)
Definition str_exn (e : exn) : string := exn_msg e.

(** A Python call either returns or raises. *)
Inductive outcome (A : Type) : Type :=
| Returned (a : A)
| Raised (e : exn).
Arguments Returned {A} a.
Arguments Raised {A} e.

Definition obind {A B} (o : outcome A) (k : A -> outcome B) : outcome B :=
  match o with
  | Returned a => k a
  | Raised e => Raised e
  end.

Notation "'let?' x ':=' o 'in' k" := (obind o (fun x => k))
  (at level 10, x name, o at level 100, k at level 200, only parsing).

(** [x in xs] on a list of ints *)
Definition mem_int (x : Z) (xs : list Z) : bool := existsb (Z.eqb x) xs.

(** [x in xs] on a list of strings *)
Definition mem_str (x : string) (xs : list string) : bool :=
  existsb (String.eqb x) xs.

(** Truthiness of a [str]: the empty string is false. *)
Definition truthy_str (s : string) : bool :=
  match s with
  | EmptyString => false
  | String _ _ => true
  end.

(** ** Text: character classes, substrings *)

Definition code (c : ascii) : nat := nat_of_ascii c.

Definition in_range (lo hi : nat) (c : ascii) : bool :=
  (Nat.leb lo (code c) && Nat.leb (code c) hi)%bool.

Definition is_upper (c : ascii) : bool := in_range 65 90 c.
Definition is_lower (c : ascii) : bool := in_range 97 122 c.
Definition is_alpha (c : ascii) : bool := (is_lower c || is_upper c)%bool.
Definition is_digit (c : ascii) : bool := in_range 48 57 c.
Definition is_hex (c : ascii) : bool :=
  (is_digit c || in_range 97 102 c || in_range 65 70 c)%bool.
Definition is_char (k : nat) (c : ascii) : bool := Nat.eqb (code c) k.

(** Lowering the letters A-Z of a text held as its UTF-8 bytes; every other
    byte is kept. *)
Definition lower_char (c : ascii) : ascii :=
  if is_upper c then ascii_of_nat (code c + 32) else c.

Fixpoint lower (s : string) : string :=
  match s with
  | EmptyString => EmptyString
  | String c s' => String (lower_char c) (lower s')
  end.

Fixpoint strip_prefix (p s : string) : option string :=
  match p, s with
  | EmptyString, _ => Some s
  | String a p', String b s' => if Ascii.eqb a b then strip_prefix p' s' else None
  | String _ _, EmptyString => None
  end.

Definition starts_with (p s : string) : bool :=
  match strip_prefix p s with Some _ => true | None => false end.

(** [needle in hay] *)
Fixpoint contains (needle hay : string) : bool :=
  (starts_with needle hay ||
   match hay with
   | EmptyString => false
   | String _ hay' => contains needle hay'
   end)%bool.

Fixpoint has_char (k : nat) (s : string) : bool :=
  match s with
  | EmptyString => false
  | String c s' => (is_char k c || has_char k s')%bool
  end.

Fixpoint all_chars (p : ascii -> bool) (s : string) : bool :=
  match s with
  | EmptyString => true
  | String c s' => (p c && all_chars p s')%bool
  end.

Fixpoint filter_chars (p : ascii -> bool) (s : string) : string :=
  match s with
  | EmptyString => EmptyString
  | String c s' => if p c then String c (filter_chars p s') else filter_chars p s'
  end.

(** [s.isascii()] *)
Definition is_ascii (s : string) : bool :=
  all_chars (fun c => Nat.ltb (code c) 128) s.

Fixpoint lstrip (p : ascii -> bool) (s : string) : string :=
  match s with
  | EmptyString => EmptyString
  | String c s' => if p c then lstrip p s' else s
  end.

(** [s.partition(c)]: the text before the first [c], and the text after it
    when there is one. *)
Fixpoint split_at (p : ascii -> bool) (s : string) : string * option string :=
  match s with
  | EmptyString => (EmptyString, None)
  | String c s' =>
      if p c then (EmptyString, Some s')
      else let '(a, b) := split_at p s' in (String c a, b)
  end.

(** ** The SQLite store *)

Definition dquote : string := String (ascii_of_nat 34) EmptyString.

(** [str(i)] *)
Definition decimal (i : nat) : string := NilZero.string_of_uint (Nat.to_uint i).

Module Store.

(** What a column of a row holds.  A [datetime] is stored through the
    module's default adapter, as text; its text form is kept abstract as
    the instant [Timestamp t] it denotes.  [Numeric s] is what a column of
    numeric affinity makes of the text [s]: the number it spells when it is
    a well-formed literal, the text itself otherwise. *)
Inductive sqlval : Type :=
| Null
| Integer (n : Z)
| Text (s : string)
| Timestamp (t : Z)
| Numeric (s : string).

(** SQLite's INTEGER holds 64 bits. *)
Definition fits_int64 (n : Z) : bool :=
  ((-9223372036854775808 <=? n) && (n <=? 9223372036854775807))%bool.

(** Parameter binding of [cursor.execute], for the parameter at place [i]
    (from 1): bool is an int to sqlite3, an int beyond 64 bits and an
    object without adapter are refused. *)
Definition adapt_at (i : nat) (v : pyval) : outcome sqlval :=
  match v with
  | PyNone => Returned Null
  | PyInt n =>
      if fits_int64 n then Returned (Integer n)
      else Raised (Exn "OverflowError"
                       "Python int too large to convert to SQLite INTEGER")
  | PyBool b => Returned (Integer (Z.b2z b))
  | PyStr s => Returned (Text s)
  | PyDatetime t => Returned (Timestamp t)
  | PyObject cls =>
      Raised (Exn "ProgrammingError"
                  ("Error binding parameter " ++ decimal i ++ ": type '" ++ cls
                   ++ "' is not supported"))
  end.

(** Binding the one parameter of a statement. *)
Definition adapt (v : pyval) : outcome sqlval := adapt_at 1 v.

(** A row of [users], one field per column of the CREATE TABLE. *)
Record user_row : Type := mk_user {
  user_id : Z;
  username : sqlval;
  first_name : sqlval;
  last_name : sqlval;
  language_code : sqlval;
  is_subscribed : sqlval;
  subscription_checked_at : sqlval;
  first_seen : sqlval;
  last_activity : sqlval;
  total_downloads : sqlval;
  is_banned : sqlval;
  is_admin : sqlval;
  chat_mode : sqlval
}.

(** A row of [downloads]. *)
Record download_row : Type := mk_download {
  id : Z;
  dl_user_id : sqlval;
  url : sqlval;
  platform : sqlval;
  quality : sqlval;
  file_size : sqlval;
  download_time : sqlval;
  success : sqlval;
  error_message : sqlval
}.

(** The database file: the rows of [users] in the order of their key, as
    the table keeps and scans them, the rows of [downloads], and whether
    the write lock of the file is taken: by the connection that is writing,
    or by one a failed call left behind with its transaction open. *)
Record database : Type := mk_db {
  users : list user_row;
  downloads : list download_row;
  locked : bool
}.

(** [init_database] on a fresh file: both tables exist and are empty. *)
Definition init_database : database := mk_db [] [] false.

Definition with_users (rows : list user_row) (d : database) : database :=
  mk_db rows (downloads d) (locked d).

Definition with_lock (l : bool) (d : database) : database :=
  mk_db (users d) (downloads d) l.

(** The columns an UPDATE of [users] can name.  [user_id] is the INTEGER
    PRIMARY KEY of the table, its rowid. *)
Inductive column : Type :=
| c_user_id
| c_username | c_first_name | c_last_name | c_language_code
| c_is_subscribed | c_subscription_checked_at | c_first_seen
| c_last_activity | c_total_downloads | c_is_banned | c_is_admin
| c_chat_mode.

(** The names of the columns, and the three names SQLite gives the rowid of
    a table that has no column so called.  [user_id] is also the positional
    parameter of [update_user_info]: Python binds a keyword spelt
    [user_id] to it, so of the names of the key only the other spellings
    ([USER_ID], [rowid], ...) can be keys of [kwargs]. *)
Definition column_names : list (string * column) :=
  [ ("user_id", c_user_id); ("rowid", c_user_id); ("oid", c_user_id);
    ("_rowid_", c_user_id);
    ("username", c_username); ("first_name", c_first_name);
    ("last_name", c_last_name); ("language_code", c_language_code);
    ("is_subscribed", c_is_subscribed);
    ("subscription_checked_at", c_subscription_checked_at);
    ("first_seen", c_first_seen); ("last_activity", c_last_activity);
    ("total_downloads", c_total_downloads); ("is_banned", c_is_banned);
    ("is_admin", c_is_admin); ("chat_mode", c_chat_mode) ].

Fixpoint assoc {A} (k : string) (l : list (string * A)) : option A :=
  match l with
  | [] => None
  | (k', a) :: l' => if String.eqb k k' then Some a else assoc k l'
  end.

(** SQLite compares identifiers without regard to the case of A-Z. *)
Definition column_of_name (name : string) : option column :=
  assoc (lower name) column_names.

(** The keywords of SQLite 3.40 its parser does not take for a name. *)
Definition reserved_words : list string :=
  [ "add"; "all"; "alter"; "and"; "as"; "autoincrement"; "between"; "case";
    "check"; "collate"; "commit"; "constraint"; "create"; "default";
    "deferrable"; "delete"; "distinct"; "drop"; "else"; "escape"; "except";
    "exists"; "foreign"; "from"; "group"; "having"; "in"; "index"; "insert";
    "intersect"; "into"; "is"; "isnull"; "join"; "limit"; "not"; "nothing";
    "notnull"; "null"; "on"; "or"; "order"; "primary"; "references";
    "returning"; "select"; "set"; "table"; "then"; "to"; "transaction";
    "union"; "unique"; "update"; "using"; "values"; "when"; "where" ].

Definition is_reserved (name : string) : bool :=
  existsb (String.eqb (lower name)) reserved_words.

(** The affinity the declared type gives a column: TEXT for TEXT, INTEGER
    for INTEGER, NUMERIC for BOOLEAN and DATETIME. *)
Inductive affinity : Type := aff_text | aff_integer | aff_numeric.

Definition column_affinity (c : column) : affinity :=
  match c with
  | c_username | c_first_name | c_last_name | c_language_code | c_chat_mode =>
      aff_text
  | c_user_id | c_total_downloads => aff_integer
  | c_is_subscribed | c_subscription_checked_at | c_first_seen
  | c_last_activity | c_is_banned | c_is_admin => aff_numeric
  end.

(** What a column stores of a value: a text column keeps an integer as its
    decimal text, a numeric column reads a text as a number when it can;
    NULL and the text of a [datetime] stay as they are. *)
Definition store_as (a : affinity) (v : sqlval) : sqlval :=
  match a, v with
  | aff_text, Integer n => Text (NilZero.string_of_int (Z.to_int n))
  | aff_integer, Text s => Numeric s
  | aff_numeric, Text s => Numeric s
  | _, _ => v
  end.

Definition coerce (cv : column * sqlval) : column * sqlval :=
  (fst cv, store_as (column_affinity (fst cv)) (snd cv)).

Definition get_column (c : column) (r : user_row) : sqlval :=
  match c with
  | c_user_id => Integer (user_id r)
  | c_username => username r
  | c_first_name => first_name r
  | c_last_name => last_name r
  | c_language_code => language_code r
  | c_is_subscribed => is_subscribed r
  | c_subscription_checked_at => subscription_checked_at r
  | c_first_seen => first_seen r
  | c_last_activity => last_activity r
  | c_total_downloads => total_downloads r
  | c_is_banned => is_banned r
  | c_is_admin => is_admin r
  | c_chat_mode => chat_mode r
  end.

(** Assigning a column of a row.  The key is not assigned here: a new key
    has to be an integer no other row has, which the UPDATE checks before
    it gives the row its new key and place ([rekey], [update_users]). *)
Definition set_column (c : column) (v : sqlval) (r : user_row) : user_row :=
  let '(mk_user u a b c0 d e f g h i j k l) := r in
  match c with
  | c_user_id => r
  | c_username => mk_user u v b c0 d e f g h i j k l
  | c_first_name => mk_user u a v c0 d e f g h i j k l
  | c_last_name => mk_user u a b v d e f g h i j k l
  | c_language_code => mk_user u a b c0 v e f g h i j k l
  | c_is_subscribed => mk_user u a b c0 d v f g h i j k l
  | c_subscription_checked_at => mk_user u a b c0 d e v g h i j k l
  | c_first_seen => mk_user u a b c0 d e f v h i j k l
  | c_last_activity => mk_user u a b c0 d e f g v i j k l
  | c_total_downloads => mk_user u a b c0 d e f g h v j k l
  | c_is_banned => mk_user u a b c0 d e f g h i v k l
  | c_is_admin => mk_user u a b c0 d e f g h i j v l
  | c_chat_mode => mk_user u a b c0 d e f g h i j k v
  end.

Definition rekey (k : Z) (r : user_row) : user_row :=
  let '(mk_user _ a b c0 d e f g h i j k0 l) := r in
  mk_user k a b c0 d e f g h i j k0 l.

(** [SELECT user_id FROM users WHERE user_id = ?] followed by [fetchone()] *)
Definition select_user (conn : database) (uid : Z) : option user_row :=
  find (fun r => Z.eqb (user_id r) uid) (users conn).

(** The row [INSERT INTO users (user_id, is_admin) VALUES (?, ?)] creates:
    the two given columns, the declared DEFAULT elsewhere, NULL where no
    default is declared.  [ts] is CURRENT_TIMESTAMP. *)
Definition new_user (uid : Z) (admin : bool) (ts : Z) : user_row :=
  {| user_id := uid;
     username := Null;
     first_name := Null;
     last_name := Null;
     language_code := Null;
     is_subscribed := Integer 0;
     subscription_checked_at := Null;
     first_seen := Timestamp ts;
     last_activity := Timestamp ts;
     total_downloads := Integer 0;
     is_banned := Integer 0;
     is_admin := Integer (Z.b2z admin);
     chat_mode := Text "normal" |}.

(** The place of a row in the table: before the first row with a greater
    key. *)
Fixpoint insert_row (r : user_row) (rows : list user_row) : list user_row :=
  match rows with
  | [] => [r]
  | r' :: rows' =>
      if Z.ltb (user_id r) (user_id r') then r :: rows
      else r' :: insert_row r rows'
  end.

(** The INSERT; the PRIMARY KEY refuses a second row with the same id. *)
Definition insert_user (conn : database) (uid : Z) (admin : bool) (ts : Z)
  : outcome database :=
  match select_user conn uid with
  | Some _ =>
      Raised (Exn "IntegrityError" "UNIQUE constraint failed: users.user_id")
  | None => Returned (with_users (insert_row (new_user uid admin ts) (users conn)) conn)
  end.

(** Parsing [UPDATE users SET k1 = ?, ... WHERE user_id = ?], each [k] a
    Python identifier as a keyword of a call is: an identifier that is a
    reserved word of SQL is a syntax error. *)
Definition parse_keys (keys : list string) : outcome unit :=
  match find is_reserved keys with
  | Some k =>
      Raised (Exn "OperationalError"
                  ("near " ++ dquote ++ k ++ dquote ++ ": syntax error"))
  | None => Returned tt
  end.

(** Resolving the names: every key of the SET clause has to be a column. *)
Fixpoint resolve_columns (keys : list string) : outcome (list column) :=
  match keys with
  | [] => Returned []
  | k :: ks =>
      match column_of_name k with
      | None => Raised (Exn "OperationalError" ("no such column: " ++ k))
      | Some c => let? cs := resolve_columns ks in Returned (c :: cs)
      end
  end.

(** Binding the values of the SET clause, the first at place [i]. *)
Fixpoint bind_values (i : nat) (vals : list pyval) : outcome (list sqlval) :=
  match vals with
  | [] => Returned []
  | v :: vs =>
      let? x := adapt_at i v in
      let? xs := bind_values (S i) vs in
      Returned (x :: xs)
  end.

(** [cursor.execute] up to the first step of the UPDATE: the statement is
    compiled, then its parameters are bound.  The result is the SET clause
    as assignments of stored values. *)
Definition prepare_update (kwargs : list (string * pyval))
  : outcome (list (column * sqlval)) :=
  let? _ := parse_keys (map fst kwargs) in
  let? cols := resolve_columns (map fst kwargs) in
  let? vals := bind_values 1 (map snd kwargs) in
  Returned (map coerce (combine cols vals)).

Definition assign (sets : list (column * sqlval)) (r : user_row) : user_row :=
  fold_left (fun r' cv => set_column (fst cv) (snd cv) r') sets r.

(** The rows after an UPDATE that leaves the key alone: every row the WHERE
    clause selects gets the SET clause, the other rows stay.  Of a column
    named more than once the rightmost assignment counts. *)
Definition set_where (uid : Z) (sets : list (column * sqlval))
  (rows : list user_row) : list user_row :=
  map (fun r => if Z.eqb (user_id r) uid then assign sets r else r) rows.

(** The value the SET clause gives the key, if it names it: the rightmost
    one. *)
Fixpoint new_key (sets : list (column * sqlval)) : option sqlval :=
  match sets with
  | [] => None
  | (c, v) :: sets' =>
      match new_key sets' with
      | Some v' => Some v'
      | None => match c with c_user_id => Some v | _ => None end
      end
  end.

(** The integer a value is as a key.  Whether a text is one is SQLite's
    reading of it as a number, [integer_of_text]. *)
Definition key_of (integer_of_text : string -> option Z) (v : sqlval) : option Z :=
  match v with
  | Integer n => Some n
  | Numeric s | Text s => integer_of_text s
  | Null | Timestamp _ => None
  end.

Definition remove_user (uid : Z) (rows : list user_row) : list user_row :=
  filter (fun r => negb (Z.eqb (user_id r) uid)) rows.

(** The steps of the UPDATE.  When the SET clause gives the selected row a
    new key, the value has to be an integer (datatype mismatch otherwise)
    that no other row has (UNIQUE), and the row moves to the place of its
    new key. *)
Definition update_users (integer_of_text : string -> option Z)
  (conn : database) (sets : list (column * sqlval)) (uid : Z)
  : outcome database :=
  match new_key sets with
  | None => Returned (with_users (set_where uid sets (users conn)) conn)
  | Some v =>
      match select_user conn uid with
      | None => Returned conn
      | Some r =>
          match key_of integer_of_text v with
          | None => Raised (Exn "IntegrityError" "datatype mismatch")
          | Some k =>
              if Z.eqb k uid
              then Returned (with_users (set_where uid sets (users conn)) conn)
              else if existsb (fun r' => Z.eqb (user_id r') k) (users conn)
              then Raised (Exn "IntegrityError"
                               "UNIQUE constraint failed: users.user_id")
              else Returned (with_users
                               (insert_row (rekey k (assign sets r))
                                  (remove_user uid (users conn)))
                               conn)
          end
      end
  end.


End Store.

(** ** [extract_urls_from_text]

    The pattern is
    [http[s]?://(?:[a-zA-Z]|[0-9]|[$-_@.&+]|[!*\\(\\),]|(?:%[0-9a-fA-F][0-9a-fA-F]))+]
    in a raw string.  In the third class [$-_] is a range, from the dollar
    sign (36) to the underscore (95); in the fourth the doubled backslash
    is the backslash itself. *)

Definition class_letter (c : ascii) : bool := is_alpha c.
Definition class_digit (c : ascii) : bool := is_digit c.
Definition class_punct (c : ascii) : bool :=
  (in_range 36 95 c || is_char 64 c || is_char 46 c || is_char 38 c || is_char 43 c)%bool.
Definition class_extra (c : ascii) : bool :=
  (is_char 33 c || is_char 42 c || is_char 92 c || is_char 40 c
   || is_char 41 c || is_char 44 c)%bool.

(** One round of the repeated group: the alternatives in their order, the
    text consumed and the text left. *)
Definition url_atom (s : string) : option (string * string) :=
  match s with
  | EmptyString => None
  | String c rest =>
      if class_letter c then Some (String c EmptyString, rest)
      else if class_digit c then Some (String c EmptyString, rest)
      else if class_punct c then Some (String c EmptyString, rest)
      else if class_extra c then Some (String c EmptyString, rest)
      else if is_char 37 c then
        match rest with
        | String h1 (String h2 rest') =>
            if (is_hex h1 && is_hex h2)%bool
            then Some (String c (String h1 (String h2 EmptyString)), rest')
            else None
        | _ => None
        end
      else None
  end.

(** The greedy repetition; nothing follows the group in the pattern, so the
    first alternative that matches is never given up.  A round consumes at
    least one character, so [String.length s] rounds are enough. *)
Fixpoint url_atoms (fuel : nat) (s : string) : string :=
  match fuel with
  | O => EmptyString
  | S fuel' =>
      match url_atom s with
      | None => EmptyString
      | Some (taken, rest) => taken ++ url_atoms fuel' rest
      end
  end.

(** The pattern tried at the start of [s]: the match, if any. *)
Definition match_url (s : string) : option string :=
  let tail (head rest : string) : option string :=
    match strip_prefix "://" rest with
    | None => None
    | Some r =>
        match url_atoms (String.length r) r with
        | EmptyString => None
        | body => Some (head ++ "://" ++ body)
        end
    end in
  match strip_prefix "http" s with
  | None => None
  | Some r =>
      match r with
      | String c r' =>
          if is_char 115 c then
            match tail "https" r' with
            | Some m => Some m
            | None => tail "http" r
            end
          else tail "http" r
      | EmptyString => None
      end
  end.

(** [re.findall]: the matches from left to right, the search resuming where
    the last match ended.  [skip] counts the characters of the last match
    still to pass. *)
Fixpoint findall_url (skip : nat) (s : string) : list string :=
  match s with
  | EmptyString => []
  | String _ s' =>
      match skip with
      | S k => findall_url k s'
      | O =>
          match match_url s with
          | Some m => m :: findall_url (String.length m - 1) s'
          | None => findall_url 0 s'
          end
      end
  end.

Definition extract_urls_from_text (text : string) : list string :=
  findall_url 0 text.

(** ** [urlparse(url).netloc.lower()]

    The part of [urllib.parse.urlsplit] that computes [netloc].  Where the
    Python library decides by tables this development does not carry (the
    [ipaddress] syntax of a bracketed host, the NFKC form of a netloc that
    is not ASCII, the lower case of text that is not ASCII), its answers
    are taken as they come. *)
Record pylib : Type := {
  check_bracketed_host : string -> bool;
  checknetloc : string -> bool;
  lower_non_ascii : string -> string
}.

(** [s.lower()] *)
Definition str_lower (L : pylib) (s : string) : string :=
  if is_ascii s then lower s else lower_non_ascii L s.

Definition is_c0_or_space (c : ascii) : bool := Nat.leb (code c) 32.
Definition is_unsafe_byte (c : ascii) : bool :=
  (is_char 9 c || is_char 13 c || is_char 10 c)%bool.
Definition is_scheme_char (c : ascii) : bool :=
  (is_alpha c || is_digit c || is_char 43 c || is_char 45 c || is_char 46 c)%bool.
Definition is_netloc_end (c : ascii) : bool :=
  (is_char 47 c || is_char 63 c || is_char 35 c)%bool.

(** [url] once a scheme, if there is one, is taken off its front. *)
Definition drop_scheme (url : string) : string :=
  match split_at (is_char 58) url with
  | (String c0 before, Some after) =>
      if (is_alpha c0 && all_chars is_scheme_char (String c0 before))%bool
      then after else url
  | _ => url
  end.

Definition urlparse_netloc (L : pylib) (url : string) : outcome string :=
  let url := lstrip is_c0_or_space url in
  let url := filter_chars (fun c => negb (is_unsafe_byte c)) url in
  let url := drop_scheme url in
  match strip_prefix "//" url with
  | None => Returned EmptyString
  | Some rest =>
      let netloc := fst (split_at is_netloc_end rest) in
      let lb := has_char 91 netloc in
      let rb := has_char 93 netloc in
      if xorb lb rb then Raised (Exn "ValueError" "Invalid IPv6 URL")
      else
        let bracketed_host :=
          match snd (split_at (is_char 91) netloc) with
          | Some after => fst (split_at (is_char 93) after)
          | None => EmptyString
          end in
        if (lb && rb && negb (check_bracketed_host L bracketed_host))%bool
        then Raised (Exn "ValueError" "invalid bracketed host")
        else if (negb (is_ascii netloc) && negb (checknetloc L netloc))%bool
        then Raised (Exn "ValueError" "netloc contains invalid characters under NFKC normalization")
        else Returned netloc
  end.

(** ** [AdvancedDownloader]: the tables and [detect_platform] *)

(** [supported_domains], in the order of the dict literal *)
Definition supported_domains : list (string * string) :=
  [ ("youtube.com", "YouTube"); ("youtu.be", "YouTube");
    ("instagram.com", "Instagram"); ("tiktok.com", "TikTok");
    ("twitter.com", "Twitter/X"); ("x.com", "Twitter/X");
    ("facebook.com", "Facebook"); ("fb.watch", "Facebook");
    ("threads.net", "Threads"); ("t.me", "Telegram") ].

Definition quality_presets : list (string * string) :=
  [ ("video_hd", "best[height<=720][ext=mp4]/best[height<=720]/best[ext=mp4]/best");
    ("video_sd", "best[height<=480][ext=mp4]/best[height<=480]/best[ext=mp4]/best");
    ("video_mobile", "best[height<=360][ext=mp4]/best[height<=360]/best[ext=mp4]/best");
    ("video_best", "best[ext=mp4]/best");
    ("audio_only", "bestaudio[ext=m4a]/bestaudio[ext=mp3]/bestaudio/best") ].

Definition download_path : string := "./downloads".

(** The loop over [supported_domains.items()]: the label of the first entry
    whose domain occurs in [domain]. *)
Fixpoint first_platform (table : list (string * string)) (domain : string)
  : option string :=
  match table with
  | [] => None
  | (supported_domain, platform) :: table' =>
      if contains supported_domain domain then Some platform
      else first_platform table' domain
  end.

Definition detect_platform (L : pylib) (url : string) : string :=
  match urlparse_netloc L url with
  | Raised _ => "Unknown"
  | Returned netloc =>
      match first_platform supported_domains (str_lower L netloc) with
      | Some platform => platform
      | None => "Unknown"
      end
  end.

(** ** Telegram objects, collaborators and the trace of calls *)

Module Telegram.

(** [update.effective_user] *)
Record user : Type := mk_user {
  id : Z;
  username : option string;
  first_name : string;
  last_name : option string;
  language_code : option string
}.

(** The fields the handlers read of an [Update] that carries a new message
    of a user: [update.effective_user], [update.effective_chat.id] and
    [update.message.text]. *)
Record update : Type := mk_update {
  effective_user : user;
  effective_chat_id : Z;
  message_text : string
}.

(** An [Update] as the dispatcher hands it to a handler.  The filter of
    [handle_message] and the command handlers also take an edited message
    and a channel post, whose text is not under [update.message]:
    [message] is [None] then; a channel post can come without author, and
    [sender] is [None] then. *)
Record delivery : Type := mk_delivery {
  sender : option user;
  chat_id : Z;
  message : option string
}.

(** The delivery of a new message. *)
Definition deliver (u : update) : delivery :=
  {| sender := Some (effective_user u);
     chat_id := effective_chat_id u;
     message := Some (message_text u) |}.

Inductive button : Type :=
| url_button (label url : string)
| callback_button (label callback_data : string).

Inductive reply_markup : Type :=
| no_markup
| InlineKeyboardMarkup (keyboard : list (list button))
| ReplyKeyboardMarkup (keyboard : list (list string)) (resize_keyboard : bool).

End Telegram.

Definition py_opt_str (o : option string) : pyval :=
  match o with
  | Some s => PyStr s
  | None => PyNone
  end.

(** [ydl_opts] *)
Record ydl_opts : Type := mk_ydl_opts {
  format : string;
  outtmpl : string;
  noplaylist : bool
}.

(** What [download_content] reads of yt_dlp's answer: the [title] key when
    present, [duration], [filesize], and [prepare_filename(info)]. *)
Record ydl_info : Type := mk_ydl_info {
  info_title : option string;
  info_duration : pyval;
  info_filesize : pyval;
  info_filename : string
}.

(** The dict [download_content] returns. *)
Inductive download_result : Type :=
| dl_success (title platform file_path : string) (duration file_size : pyval)
| dl_failure (error : string).

(** One entry per call that leaves the handler: to a collaborator, to the
    user directory, to the logger. *)
Inductive event : Type :=
| ev_get_chat_member (chat_id : string) (user_id : Z)
| ev_reply_text (text : pyval) (markup : Telegram.reply_markup)
| ev_edit_text (message : Z) (text : string)
| ev_delete (message : Z)
| ev_send_document (chat_id : Z) (path caption : string)
| ev_open (path : string)
| ev_extract_info (opts : ydl_opts) (url : string)
| ev_update_user_info (user_id : Z) (kwargs : list (string * pyval))
| ev_log_error (msg : string).

(** The collaborators, over a state [W] of the outside world that only they
    read and change.  A call answers or raises.  With them stand two
    answers of the runtime the program cannot predict: whether a connection
    left behind has been finalized, and how SQLite reads a text as a key. *)
Record collaborators (W : Type) : Type := {
  (** [context.bot.get_chat_member(chat_id, user_id).status] *)
  get_chat_member : string -> Z -> W -> outcome string * W;
  (** [message.reply_text(text, reply_markup)]: the message sent *)
  reply_text : pyval -> Telegram.reply_markup -> W -> outcome Z * W;
  edit_text : Z -> string -> W -> outcome unit * W;
  delete : Z -> W -> outcome unit * W;
  send_document : Z -> string -> string -> W -> outcome unit * W;
  (** [open(path, 'rb')] *)
  open_rb : string -> W -> outcome unit * W;
  (** [YoutubeDL(opts).extract_info(url, download=True)] with the file name
      prepared from it *)
  extract_info : ydl_opts -> string -> W -> outcome ydl_info * W;
  (** [datetime.now()] *)
  datetime_now : W -> Z * W;
  (** SQLite's CURRENT_TIMESTAMP *)
  current_timestamp : W -> Z * W;
  (** whether Python's garbage collector has by now finalized the
      connection a failed call left behind, which ends its transaction and
      gives the write lock back *)
  collected : W -> bool * W;
  (** SQLite's reading of a text given as the integer key: the integer it
      spells, if it spells one *)
  integer_of_text : string -> option Z
}.
Arguments get_chat_member {W}.
Arguments reply_text {W}.
Arguments edit_text {W}.
Arguments delete {W}.
Arguments send_document {W}.
Arguments open_rb {W}.
Arguments extract_info {W}.
Arguments datetime_now {W}.
Arguments current_timestamp {W}.
Arguments collected {W}.
Arguments integer_of_text {W}.

(** What the process reads at start: ADMIN_IDS, CHANNEL_USERNAME with the
    at sign removed, and the effective configuration. *)
Record settings : Type := {
  admin_ids : list Z;
  channel_username : string;
  config : list (string * pyval)
}.

(** [config_manager.get(key)] *)
Definition config_get (cfg : settings) (key : string) : pyval :=
  match Store.assoc key (config cfg) with
  | Some v => v
  | None => PyNone
  end.

(** The integer a text of decimal digits spells, with or without a sign. *)
Fixpoint digits_value (acc : Z) (s : string) : option Z :=
  match s with
  | EmptyString => Some acc
  | String c s' =>
      if is_digit c then digits_value (10 * acc + Z.of_nat (code c - 48)) s'
      else None
  end.

Definition plain_integer (s : string) : option Z :=
  let value (body : string) : option Z :=
    match body with
    | EmptyString => None
    | String _ _ => digits_value 0 body
    end in
  let n :=
    match s with
    | EmptyString => None
    | String c s' =>
        if is_char 45 c then option_map Z.opp (value s')
        else if is_char 43 c then value s'
        else value s
    end in
  match n with
  | Some k => if Store.fits_int64 k then Some k else None
  | None => None
  end.

(** Collaborators that answer the same at every call, over a world with no
    state: the membership status (or the error of the query), yt_dlp's
    answer, and the reading of both clocks.  The garbage collector does not
    run between two calls, and a text is read as a key when it is a plain
    decimal integer. *)
Definition constant_collaborators (status : outcome string)
  (fetched : outcome ydl_info) (now : Z) : collaborators unit :=
  {| get_chat_member := fun _ _ w => (status, w);
     reply_text := fun _ _ w => (Returned 1, w);
     edit_text := fun _ _ w => (Returned tt, w);
     delete := fun _ w => (Returned tt, w);
     send_document := fun _ _ _ w => (Returned tt, w);
     open_rb := fun _ w => (Returned tt, w);
     extract_info := fun _ _ w => (fetched, w);
     datetime_now := fun w => (now, w);
     current_timestamp := fun w => (now, w);
     collected := fun w => (false, w);
     integer_of_text := plain_integer |}.

(** A library whose checks accept. *)
Definition plain_pylib : pylib :=
  {| check_bracketed_host := fun _ => true;
     checknetloc := fun _ => true;
     lower_non_ascii := lower |}.

(** ** The monad of the handlers: the store and the outside world as state,
       Python exceptions, and the trace of calls *)

Section Monad.

Context {W : Type}.

Record state : Type := mk_state {
  db : Store.database;
  world : W
}.

Definition M (A : Type) : Type := state -> outcome A * state * list event.

Definition ret {A} (a : A) : M A := fun st => (Returned a, st, []).

Definition bind {A B} (m : M A) (k : A -> M B) : M B :=
  fun st =>
    match m st with
    | (Returned a, st1, t1) =>
        let '(r, st2, t2) := k a st1 in (r, st2, (t1 ++ t2)%list)
    | (Raised e, st1, t1) => (Raised e, st1, t1)
    end.

(** [try: m  except Exception as e: h e]: an exception that is no
    [Exception] passes through. *)
Definition try_except {A} (m : M A) (h : exn -> M A) : M A :=
  fun st =>
    match m st with
    | (Returned a, st1, t1) => (Returned a, st1, t1)
    | (Raised e, st1, t1) =>
        if is_exception e
        then let '(r, st2, t2) := h e st1 in (r, st2, (t1 ++ t2)%list)
        else (Raised e, st1, t1)
    end.

Definition emit (ev : event) : M unit := fun st => (Returned tt, st, [ev]).

(** A call to a collaborator, entered in the trace. *)
Definition call {A} (ev : event) (f : W -> outcome A * W) : M A :=
  fun st =>
    let '(r, w) := f (world st) in (r, mk_state (db st) w, [ev]).

(** Reading a clock. *)
Definition clock (f : W -> Z * W) : M Z :=
  fun st =>
    let '(t, w) := f (world st) in (Returned t, mk_state (db st) w, []).

(** A step on a connection: its result, or its exception. *)
Definition lift {A} (o : outcome A) : M A := fun st => (o, st, []).

(** [sqlite3.connect(db_path)]: the connection starts from what is
    committed.  The database file is taken to be there and writable by the
    process: [connect] does not fail. *)
Definition connect : M Store.database := fun st => (Returned (db st), st, []).

(** The first INSERT or UPDATE a connection steps opens its transaction and
    takes the write lock of the file.  When a connection left behind holds
    the lock, the statement waits for the time-out and gets the lock only
    if that connection has been finalized by then ([collected]); otherwise
    it raises. *)
Definition acquire (collected : W -> bool * W) : M unit :=
  fun st =>
    if Store.locked (db st) then
      let '(gone, w) := collected (world st) in
      if gone then (Returned tt, mk_state (db st) w, [])
      else (Raised (Exn "OperationalError" "database is locked"),
            mk_state (db st) w, [])
    else (Returned tt, mk_state (Store.with_lock true (db st)) (world st), []).

(** [conn.commit()] and [conn.close()]: when the connection has written,
    what it did becomes the stored state and the lock is given back; when
    it has not, there is no transaction to commit. *)
Definition commit (conn : Store.database) (wrote : bool) : M unit :=
  fun st =>
    if wrote
    then (Returned tt, mk_state (Store.with_lock false conn) (world st), [])
    else (Returned tt, st, []).

Definition log_error (msg : string) : M unit := emit (ev_log_error msg).

End Monad.

Arguments state W : clear implicits.
Arguments M W A : clear implicits.

Declare Scope bot_scope.
Delimit Scope bot_scope with bot.
Notation "x <- m ;; k" := (bind m (fun x => k))
  (at level 61, m at next level, right associativity) : bot_scope.
Notation "m ;; k" := (bind m (fun _ => k))
  (at level 61, right associativity) : bot_scope.
Notation "' p <- m ;; k" := (bind m (fun x => match x with p => k end))
  (at level 61, p pattern, m at next level, right associativity) : bot_scope.
Open Scope bot_scope.

(** ** A deployment to run the handlers on

    One admin (7), the channel [mychannel], a sender (5) who is no admin. *)

Definition demo : settings :=
  {| admin_ids := [7]; channel_username := "mychannel"; config := [] |}.

Definition open_house : settings :=
  {| admin_ids := [7]; channel_username := ""; config := [] |}.

Definition video : ydl_info :=
  {| info_title := Some "clip"; info_duration := PyInt 12;
     info_filesize := PyInt 1024; info_filename := "./downloads/clip.mp4" |}.

(** The sender is a member and yt_dlp delivers. *)
Definition member_world : collaborators unit :=
  constant_collaborators (Returned "member") (Returned video) 1700000000.

(** The sender has left the channel. *)
Definition left_world : collaborators unit :=
  constant_collaborators (Returned "left") (Returned video) 1700000300.

(** The membership query fails. *)
Definition offline_world : collaborators unit :=
  constant_collaborators (Raised (Exn "NetworkError" "Timed out"))
    (Returned video) 1700000600.

(** The sender is a member and yt_dlp fails. *)
Definition broken_fetch_world : collaborators unit :=
  constant_collaborators (Returned "member")
    (Raised (Exn "DownloadError" "Unsupported URL")) 1700000000.

Definition alice : Telegram.user :=
  {| Telegram.id := 5; Telegram.username := Some "alice";
     Telegram.first_name := "Alice"; Telegram.last_name := None;
     Telegram.language_code := Some "en" |}.

Definition root : Telegram.user :=
  {| Telegram.id := 7; Telegram.username := Some "root";
     Telegram.first_name := "Root"; Telegram.last_name := None;
     Telegram.language_code := None |}.

Definition message (user : Telegram.user) (text : string) : Telegram.update :=
  {| Telegram.effective_user := user;
     Telegram.effective_chat_id := Telegram.id user;
     Telegram.message_text := text |}.

(** The store right after [init_database]. *)
Definition fresh : state unit := mk_state Store.init_database tt.

(** The state a handler leaves, and its trace. *)
Definition after {W A} (run : outcome A * state W * list event) : state W :=
  snd (fst run).
Definition trace_of {W A} (run : outcome A * state W * list event) : list event :=
  snd run.
Definition result_of {W A} (run : outcome A * state W * list event) : outcome A :=
  fst (fst run).

(** The counter of [uid] in a state. *)
Definition counter_of {W} (st : state W) (uid : Z) : option Store.sqlval :=
  option_map Store.total_downloads (Store.select_user (db st) uid).

(** The calls of a trace that send the file to the chat. *)
Definition is_delivery (ev : event) : bool :=
  match ev with
  | ev_send_document _ _ _ => true
  | _ => false
  end.

(** The sender is a member, yt_dlp fails, and Telegram refuses every edit of
    a message. *)
Definition no_edit_world : collaborators unit :=
  {| get_chat_member := fun _ _ w => (Returned "member", w);
     reply_text := fun _ _ w => (Returned 1, w);
     edit_text := fun _ _ w => (Raised (Exn "BadRequest" "Message can't be edited"), w);
     delete := fun _ w => (Returned tt, w);
     send_document := fun _ _ _ w => (Returned tt, w);
     open_rb := fun _ w => (Returned tt, w);
     extract_info := fun _ _ w => (Raised (Exn "DownloadError" "Unsupported URL"), w);
     datetime_now := fun w => (1700000000, w);
     current_timestamp := fun w => (1700000000, w);
     collected := fun w => (false, w);
     integer_of_text := plain_integer |}.

(** ** The handlers *)

Definition nl : string := String (ascii_of_nat 10) EmptyString.

Section Bot.

Context {W : Type}.
Variable L : pylib.
Variable cfg : settings.
Variable C : collaborators W.

(** *** [SubscriptionManager] *)

(** The [try] block of [update_user_info(user_id, **kwargs)].  [kwargs]
    lists the keywords of the call, Python identifiers, in their order.
    The SELECT binds [user_id] first.  Every statement runs on the
    connection, whose INSERT and UPDATE belong to a transaction sqlite3
    opens by itself at the first of them that is stepped, taking the write
    lock; [wrote] tells whether that has happened.  Only [commit] writes
    the store.  A statement that raises leaves the block before [commit]
    and [close]: what the connection did is never stored, and when it had
    taken the write lock it keeps it, a connection left behind, until it is
    finalized. *)
Definition update_user_info_try (user_id : Z) (kwargs : list (string * pyval))
  : M W unit :=
  conn <- connect ;;
  lift (Store.adapt (PyInt user_id)) ;;
  '(conn, wrote) <-
    match Store.select_user conn user_id with
    | None =>
        acquire (collected C) ;;
        ts <- clock (current_timestamp C) ;;
        conn <- lift (Store.insert_user conn user_id
                        (mem_int user_id (admin_ids cfg)) ts) ;;
        ret (conn, true)
    | Some _ => ret (conn, false)
    end ;;
  '(conn, wrote) <-
    match kwargs with
    | [] => ret (conn, wrote)
    | _ :: _ =>
        sets <- lift (Store.prepare_update kwargs) ;;
        (if wrote then ret tt else acquire (collected C)) ;;
        conn <- lift (Store.update_users (integer_of_text C) conn sets user_id) ;;
        ret (conn, true)
    end ;;
  commit conn wrote.

(** [update_user_info]: the block under its [except Exception], which logs
    and returns. *)
Definition update_user_info (user_id : Z) (kwargs : list (string * pyval))
  : M W unit :=
  emit (ev_update_user_info user_id kwargs) ;;
  try_except
    (update_user_info_try user_id kwargs)
    (fun e => log_error ("Error updating user info: " ++ str_exn e)).

Definition is_user_admin (user_id : Z) : bool :=
  mem_int user_id (admin_ids cfg).

Definition member_statuses : list string :=
  ["member"; "administrator"; "creator"].

(** [check_subscription(context, user_id)] *)
Definition check_subscription (user_id : Z) : M W bool :=
  try_except
    (if mem_int user_id (admin_ids cfg) then ret true
     else if truthy_str (channel_username cfg) then
       let chat_id := "@" ++ channel_username cfg in
       status <- call (ev_get_chat_member chat_id user_id)
                      (get_chat_member C chat_id user_id) ;;
       let is_subscribed := mem_str status member_statuses in
       now <- clock (datetime_now C) ;;
       update_user_info user_id
         [("is_subscribed", PyBool is_subscribed);
          ("subscription_checked_at", PyDatetime now)] ;;
       ret is_subscribed
     else ret true)
    (fun e =>
       log_error ("Error checking subscription: " ++ str_exn e) ;;
       ret false).

(** *** [AdvancedDownloader.download_content] *)

Definition preset (quality : string) : string :=
  match Store.assoc quality quality_presets with
  | Some f => f
  | None => "best[height<=720][ext=mp4]/best[height<=720]/best[ext=mp4]/best"
  end.

Definition download_content (url quality : string) : M W download_result :=
  try_except
    (let platform := detect_platform L url in
     let opts := {| format := preset quality;
                    outtmpl := download_path ++ "/%(title)s.%(ext)s";
                    noplaylist := true |} in
     info <- call (ev_extract_info opts url) (extract_info C opts url) ;;
     ret (dl_success
            (match info_title info with Some t => t | None => "Unknown" end)
            platform (info_filename info)
            (info_duration info) (info_filesize info)))
    (fun e =>
       log_error ("Download error: " ++ str_exn e) ;;
       ret (dl_failure (str_exn e))).

(** *** [TelegramDownloaderBot] *)

Definition send_reply (text : pyval) (markup : Telegram.reply_markup) : M W Z :=
  call (ev_reply_text text markup) (reply_text C text markup).

Definition send_edit (message : Z) (text : string) : M W unit :=
  call (ev_edit_text message text) (edit_text C message text).

Definition show_main_interface : M W unit :=
  let keyboard := [["📥 تحميل من رابط"]; ["👨‍💼 التواصل مع الأدمن"]] in
  send_reply (config_get cfg "welcome_message")
             (Telegram.ReplyKeyboardMarkup keyboard true) ;;
  ret tt.

Definition start_command (update : Telegram.update) : M W unit :=
  let user := Telegram.effective_user update in
  let user_id := Telegram.id user in
  now <- clock (datetime_now C) ;;
  update_user_info user_id
    [("username", py_opt_str (Telegram.username user));
     ("first_name", PyStr (Telegram.first_name user));
     ("last_name", py_opt_str (Telegram.last_name user));
     ("language_code", py_opt_str (Telegram.language_code user));
     ("last_activity", PyDatetime now)] ;;
  subscribed <- check_subscription user_id ;;
  if negb subscribed then
    let keyboard :=
      [[Telegram.url_button "🔗 اشترك في القناة"
          ("https://t.me/" ++ channel_username cfg)];
       [Telegram.callback_button "✅ تحقق من الاشتراك" "check_subscription"]] in
    send_reply (config_get cfg "subscription_message")
               (Telegram.InlineKeyboardMarkup keyboard) ;;
    ret tt
  else show_main_interface.

Definition send_url_prompt : string := "🔗 أرسل رابط المحتوى الذي تريد تحميله".

Definition handle_admin_commands (update : Telegram.update) (text : string)
  : M W unit :=
  send_reply (PyStr "🔧 معالجة أوامر الأدمن قيد التطوير") Telegram.no_markup ;;
  ret tt.

Definition process_download (update : Telegram.update) (url : string) : M W unit :=
  let user_id := Telegram.id (Telegram.effective_user update) in
  status_message <- send_reply (PyStr "⏳ جاري التحميل...") Telegram.no_markup ;;
  try_except
    (result <- download_content url "video_hd" ;;
     match result with
     | dl_success title platform file_path _ _ =>
         send_edit status_message "📤 جاري رفع الملف..." ;;
         call (ev_open file_path) (open_rb C file_path) ;;
         (let caption :=
            "✅ تم التحميل بنجاح" ++ nl ++ "📱 المنصة: " ++ platform
            ++ nl ++ "📄 العنوان: " ++ title in
          call (ev_send_document (Telegram.effective_chat_id update) file_path caption)
               (send_document C (Telegram.effective_chat_id update) file_path caption)) ;;
         now <- clock (datetime_now C) ;;
         update_user_info user_id
           [("total_downloads", PyInt 1); ("last_activity", PyDatetime now)] ;;
         call (ev_delete status_message) (delete C status_message)
     | dl_failure error =>
         send_edit status_message ("❌ فشل التحميل: " ++ error)
     end)
    (fun e =>
       log_error ("Download process error: " ++ str_exn e) ;;
       send_edit status_message "❌ حدث خطأ أثناء التحميل").

Definition handle_message (update : Telegram.update) : M W unit :=
  let user_id := Telegram.id (Telegram.effective_user update) in
  let text := Telegram.message_text update in
  subscribed <- check_subscription user_id ;;
  if negb subscribed then start_command update
  else
    match extract_urls_from_text text with
    | url :: _ => process_download update url
    | [] =>
        if is_user_admin user_id then handle_admin_commands update text
        else (send_reply (PyStr send_url_prompt) Telegram.no_markup ;; ret tt)
    end.

(** *** The handlers as the dispatcher calls them *)

(** What Python raises on [None.attr]. *)
Definition attribute_error (attr : string) : exn :=
  Exn "AttributeError" ("'NoneType' object has no attribute '" ++ attr ++ "'").

(** [start_command] when [update.message] is [None]: the upsert and the
    gate run as ever, and the reply, in either branch a call of
    [update.message.reply_text], raises. *)
Definition start_command_unanswered (user : Telegram.user) : M W unit :=
  let user_id := Telegram.id user in
  now <- clock (datetime_now C) ;;
  update_user_info user_id
    [("username", py_opt_str (Telegram.username user));
     ("first_name", PyStr (Telegram.first_name user));
     ("last_name", py_opt_str (Telegram.last_name user));
     ("language_code", py_opt_str (Telegram.language_code user));
     ("last_activity", PyDatetime now)] ;;
  subscribed <- check_subscription user_id ;;
  lift (Raised (attribute_error "reply_text")).

(** [start_command(update, context)] on any delivery: [user.id] raises when
    there is no sender. *)
Definition start_command_of (d : Telegram.delivery) : M W unit :=
  match Telegram.sender d with
  | None => lift (Raised (attribute_error "id"))
  | Some user =>
      match Telegram.message d with
      | Some text =>
          start_command {| Telegram.effective_user := user;
                           Telegram.effective_chat_id := Telegram.chat_id d;
                           Telegram.message_text := text |}
      | None => start_command_unanswered user
      end
  end.

(** [handle_message(update, context)] on any delivery: its first two
    statements read [update.effective_user.id] and [update.message.text]. *)
Definition handle_message_of (d : Telegram.delivery) : M W unit :=
  match Telegram.sender d with
  | None => lift (Raised (attribute_error "id"))
  | Some user =>
      match Telegram.message d with
      | None => lift (Raised (attribute_error "text"))
      | Some text =>
          handle_message {| Telegram.effective_user := user;
                            Telegram.effective_chat_id := Telegram.chat_id d;
                            Telegram.message_text := text |}
      end
  end.

(** ** Vocabulary of the statements *)

(** A keyword of [kwargs] the UPDATE can compile and bind: its name is a
    column of [users] or a name of its key, and its value can be bound. *)
Definition field_bound (kv : string * pyval) : bool :=
  match Store.column_of_name (fst kv), Store.adapt (snd kv) with
  | Some _, Returned _ => true
  | _, _ => false
  end.

(** A keyword that names the key of [users]. *)
Definition names_key (kv : string * pyval) : bool :=
  match Store.column_of_name (fst kv) with
  | Some Store.c_user_id => true
  | _ => false
  end.

(** A keyword that assigns a column of the row: it can be compiled and
    bound, and its name is not one of the key. *)
Definition field_ok (kv : string * pyval) : bool :=
  (field_bound kv && negb (names_key kv))%bool.

Definition kwargs_ok (kwargs : list (string * pyval)) : bool :=
  forallb field_ok kwargs.

(** A Python identifier, as the name of a keyword is: letters, digits and
    the underscore, no digit first; a byte beyond ASCII belongs to a
    letter. *)
Definition is_identifier (s : string) : bool :=
  let letter c := (is_alpha c || is_char 95 c || Nat.leb 128 (code c))%bool in
  match s with
  | EmptyString => false
  | String c s' =>
      (letter c && all_chars (fun x => (letter x || is_digit x)%bool) s')%bool
  end.

(** The assignment a keyword stands for: the column of its name, which is
    not the key, and its value as the column stores it. *)
Definition binds (kv : string * pyval) (cv : Store.column * Store.sqlval) : Prop :=
  Store.column_of_name (fst kv) = Some (fst cv) /\
  fst cv <> Store.c_user_id /\
  exists x,
    Store.adapt (snd kv) = Returned x /\
    snd cv = Store.store_as (Store.column_affinity (fst cv)) x.

(** The assignments of accepted keywords, in their order. *)
Fixpoint sets_of (kwargs : list (string * pyval))
  : list (Store.column * Store.sqlval) :=
  match kwargs with
  | [] => []
  | kv :: kwargs' =>
      match Store.column_of_name (fst kv), Store.adapt (snd kv) with
      | Some c, Returned x => Store.coerce (c, x) :: sets_of kwargs'
      | _, _ => sets_of kwargs'
      end
  end.

(** The PRIMARY KEY of [users]: no two rows share a [user_id]. *)
Definition primary_key_ok (d : Store.database) : Prop :=
  NoDup (map Store.user_id (Store.users d)).

(** The calls of a trace that reach yt_dlp. *)
Definition is_fetch (ev : event) : bool :=
  match ev with
  | ev_extract_info _ _ => true
  | _ => false
  end.

(** The calls of a trace that reach [get_chat_member]. *)
Definition is_membership_query (ev : event) : bool :=
  match ev with
  | ev_get_chat_member _ _ => true
  | _ => false
  end.


(** The keywords [start_command] passes for a sender at time [now]. *)
Definition profile_fields (user : Telegram.user) (now : Z) : list (string * pyval) :=
  [("username", py_opt_str (Telegram.username user));
   ("first_name", PyStr (Telegram.first_name user));
   ("last_name", py_opt_str (Telegram.last_name user));
   ("language_code", py_opt_str (Telegram.language_code user));
   ("last_activity", PyDatetime now)].

Definition is_profile_column (c : Store.column) : bool :=
  match c with
  | Store.c_username | Store.c_first_name | Store.c_last_name
  | Store.c_language_code => true
  | _ => false
  end.

(** A call of [update_user_info] that names a profile column. *)
Definition is_profile_upsert (ev : event) : bool :=
  match ev with
  | ev_update_user_info _ kwargs =>
      existsb (fun kv =>
                 match Store.column_of_name (fst kv) with
                 | Some c => is_profile_column c
                 | None => false
                 end) kwargs
  | _ => false
  end.

(** [needle] occurs in [hay]. *)
Definition substring (needle hay : string) : Prop :=
  exists a b, hay = a ++ needle ++ b.


(** The store after a call that went through with assignments [sets] that
    leave the key alone: the row of [uid], inserted at [ts] if it was not
    there, has them, and the write lock is free. *)
Definition upserted_db (d : Store.database) (uid ts : Z)
  (sets : list (Store.column * Store.sqlval)) : Store.database :=
  Store.mk_db
    (Store.set_where uid sets
       (match Store.select_user d uid with
        | Some _ => Store.users d
        | None =>
            Store.insert_row
              (Store.new_user uid (mem_int uid (admin_ids cfg)) ts)
              (Store.users d)
        end))
    (Store.downloads d) false.

(** The state after such a call, from a store whose lock is free: the
    clock is read for an unseen id only. *)
Definition upserted (st : state W) (uid : Z)
  (sets : list (Store.column * Store.sqlval)) : state W :=
  match Store.select_user (db st) uid with
  | Some _ => mk_state (upserted_db (db st) uid 0 sets) (world st)
  | None =>
      let '(ts, w) := current_timestamp C (world st) in
      mk_state (upserted_db (db st) uid ts sets) w
  end.

(** Two stores hold the same rows. *)
Definition same_rows (d d' : Store.database) : Prop :=
  Store.users d' = Store.users d /\ Store.downloads d' = Store.downloads d.

(** What [handle_message] does once the gate has said yes. *)
Definition route (update : Telegram.update) : M W unit :=
  let user_id := Telegram.id (Telegram.effective_user update) in
  let text := Telegram.message_text update in
  match extract_urls_from_text text with
  | url :: _ => process_download update url
  | [] =>
      if is_user_admin user_id then handle_admin_commands update text
      else (send_reply (PyStr send_url_prompt) Telegram.no_markup ;; ret tt)
  end.

(** [m] never writes [downloads], and every entry of its trace passes [P]. *)
Definition respects (P : event -> bool) {A} (m : M W A) : Prop :=
  forall st,
    Store.downloads (db (snd (fst (m st)))) = Store.downloads (db st) /\
    forallb P (snd (m st)) = true.

(** The events every property below lets pass: messages to the user, file
    and membership calls, log entries. *)
Definition passes_plain (P : event -> bool) : Prop :=
  forall ev,
    match ev with
    | ev_extract_info _ _ | ev_update_user_info _ _ => True
    | _ => P ev = true
    end.

(** No call writes a profile column. *)
Definition no_profile (ev : event) : bool := negb (is_profile_upsert ev).

(** Any call. *)
Definition any_event (ev : event) : bool := true.

(** No call to yt_dlp is for another URL than [url]. *)
Definition fetches_only (url : string) (ev : event) : bool :=
  match ev with
  | ev_extract_info _ u => String.eqb u url
  | _ => true
  end.

(** No call reaches yt_dlp. *)
Definition no_fetch (ev : event) : bool := negb (is_fetch ev).

(** ** Vocabulary of the further properties *)

Definition column_eq_dec (c c' : Store.column) : {c = c'} + {c <> c'}.
Proof. decide equality. Defined.

(** Whether a keyword of [kwargs] names the column [c]. *)
Definition names_column (kwargs : list (string * pyval)) (c : Store.column) : bool :=
  existsb (fun kv =>
             match Store.column_of_name (fst kv) with
             | Some c' => if column_eq_dec c c' then true else false
             | None => false
             end) kwargs.

(** The keywords [check_subscription] and [process_download] pass. *)
Definition gate_fields (is_subscribed : bool) (now : Z) : list (string * pyval) :=
  [("is_subscribed", PyBool is_subscribed);
   ("subscription_checked_at", PyDatetime now)].

Definition stats_fields (now : Z) : list (string * pyval) :=
  [("total_downloads", PyInt 1); ("last_activity", PyDatetime now)].

(** The calls of [update_user_info] the handlers make for a sender. *)
Inductive handler_call (user : Telegram.user) : list (string * pyval) -> Prop :=
| call_gate b now : handler_call user (gate_fields b now)
| call_profile now : handler_call user (profile_fields user now)
| call_stats now : handler_call user (stats_fields now).

(** A relation between the store before and the store after holds for
    every run of [m]. *)
Definition keeps (R : Store.database -> Store.database -> Prop) {A} (m : M W A)
  : Prop :=
  forall st, R (db st) (db (after (m st))).

(** The ids of the stored users, in the order of the rows. *)
Definition ids (d : Store.database) : list Z := map Store.user_id (Store.users d).

(** The rows of the other users are what they were. *)
Definition others_kept (uid : Z) (d d' : Store.database) : Prop :=
  forall u, u <> uid -> Store.select_user d' u = Store.select_user d u.

(** No row is removed or moved; at most the row of [uid] is added, after
    the rows of smaller key and before the first row of a greater one. *)
Definition rows_kept (uid : Z) (d d' : Store.database) : Prop :=
  ids d' = ids d \/
  (~ In uid (ids d) /\
   exists pre post,
     ids d = (pre ++ post)%list /\
     ids d' = (pre ++ uid :: post)%list /\
     Forall (fun i => i < uid) pre /\
     match post with
     | [] => True
     | i :: _ => uid < i
     end).

(** Every stored user keeps the columns [cs]. *)
Definition columns_kept (cs : list Store.column) (d d' : Store.database) : Prop :=
  forall u r,
    Store.select_user d u = Some r ->
    exists r',
      Store.select_user d' u = Some r' /\
      forall c, In c cs -> Store.get_column c r' = Store.get_column c r.

(** The columns no handler writes after the INSERT. *)
Definition frozen_columns : list Store.column :=
  [Store.c_first_seen; Store.c_is_banned; Store.c_is_admin; Store.c_chat_mode].

Definition profile_columns : list Store.column :=
  [Store.c_username; Store.c_first_name; Store.c_last_name;
   Store.c_language_code].

(** The stored [is_admin] flags are those of ADMIN_IDS. *)
Definition admin_flags_ok (d : Store.database) : Prop :=
  forall r, In r (Store.users d) ->
    Store.is_admin r = Store.Integer (Z.b2z (mem_int (Store.user_id r) (admin_ids cfg))).

(** What a text column stores of an optional Telegram field. *)
Definition text_of (o : option string) : Store.sqlval :=
  match o with
  | Some s => Store.Text s
  | None => Store.Null
  end.

(** The characters the pattern of [extract_urls_from_text] repeats one by
    one: the exclamation mark, the range from the dollar sign to the
    underscore, and the small letters. *)
Definition url_char (c : ascii) : bool :=
  (is_char 33 c || in_range 36 95 c || in_range 97 122 c)%bool.

(** The longest prefix of characters that pass [p]. *)
Fixpoint span_chars (p : ascii -> bool) (s : string) : string :=
  match s with
  | EmptyString => EmptyString
  | String c s' => if p c then String c (span_chars p s') else EmptyString
  end.

(** The pattern after the scheme [head], tried at the start of [rest]. *)
Definition url_tail (head rest : string) : option string :=
  match strip_prefix "://" rest with
  | None => None
  | Some r =>
      match url_atoms (String.length r) r with
      | EmptyString => None
      | body => Some (head ++ "://" ++ body)
      end
  end.

(** A text the pattern matches from its first to its last character: http
    or https, the colon and two slashes, and one or more of the pattern's
    characters. *)
Definition well_formed_url (u : string) : Prop :=
  exists scheme body,
    (scheme = "http" \/ scheme = "https") /\
    u = scheme ++ "://" ++ body /\
    body <> "" /\
    all_chars url_char body = true.

(** The characters of a plain host: printable ASCII but the slash, the
    question mark, the hash and the square brackets. *)
Definition host_char (c : ascii) : bool :=
  (Nat.ltb 32 (code c) && Nat.ltb (code c) 128
   && negb (is_netloc_end c) && negb (is_char 91 c) && negb (is_char 93 c))%bool.

(** What may follow the host of a URL: nothing, or a path, a query or a
    fragment. *)
Definition after_host (tail : string) : bool :=
  match tail with
  | EmptyString => true
  | String c _ => is_netloc_end c
  end.

(** Telegram accepts every message sent and every edit. *)
Definition sends_succeed : Prop :=
  (forall text markup w, exists m w', reply_text C text markup w = (Returned m, w')) /\
  (forall m text w, exists w', edit_text C m text w = (Returned tt, w')).

(** Every run of [m] returns. *)
Definition returns {A} (m : M W A) : Prop :=
  forall st, exists a, result_of (m st) = Returned a.

Definition is_reply (ev : event) : bool :=
  match ev with
  | ev_reply_text _ _ => true
  | _ => false
  end.

(** Every run of [m] calls [reply_text]. *)
Definition replies {A} (m : M W A) : Prop :=
  forall st, existsb is_reply (trace_of (m st)) = true.


(** Only instances of [Exception] leave the collaborators a handler calls
    inside a [try]: the membership query, yt_dlp, the opening and the
    sending of the file, the deletion of the status message.  Nothing such
    as [asyncio.CancelledError] or [KeyboardInterrupt] reaches the handler
    through them. *)
Definition raise_exceptions_only : Prop :=
  (forall chat uid w e w',
     get_chat_member C chat uid w = (Raised e, w') -> is_exception e = true) /\
  (forall opts url w e w',
     extract_info C opts url w = (Raised e, w') -> is_exception e = true) /\
  (forall path w e w',
     open_rb C path w = (Raised e, w') -> is_exception e = true) /\
  (forall chat path caption w e w',
     send_document C chat path caption w = (Raised e, w') -> is_exception e = true) /\
  (forall m w e w',
     delete C m w = (Raised e, w') -> is_exception e = true).

(** [e] is what a call inside the [try] of [process_download] raised:
    yt_dlp for [url], the opening or the sending of a file, the deletion or
    an edit of a message. *)
Definition raised_in_try (url : string) (e : exn) : Prop :=
  exists wa wb,
    (exists opts, extract_info C opts url wa = (Raised e, wb)) \/
    (exists path, open_rb C path wa = (Raised e, wb)) \/
    (exists chat path caption,
       send_document C chat path caption wa = (Raised e, wb)) \/
    (exists m, delete C m wa = (Raised e, wb)) \/
    (exists m text, edit_text C m text wa = (Raised e, wb)).

(** The update a delivery with a sender and a message makes. *)
Definition update_of (user : Telegram.user) (chat : Z) (text : string)
  : Telegram.update :=
  {| Telegram.effective_user := user;
     Telegram.effective_chat_id := chat;
     Telegram.message_text := text |}.

(** What follows the last at sign of [s], or [s] when there is none. *)
Fixpoint after_last_at (s : string) : string :=
  match s with
  | EmptyString => EmptyString
  | String c s' =>
      if has_char 64 s' then after_last_at s'
      else if is_char 64 c then s' else s
  end.

(** The host of a netloc without brackets, as [urlparse(url).hostname]
    gives it: what stands after the user information and before the port,
    lowered. *)
Definition hostname (netloc : string) : string :=
  lower (fst (split_at (is_char 58) (after_last_at netloc))).

(** Whatever a run of [m] raises is an [Exception]. *)
Definition raises_exceptions {A} (m : M W A) : Prop :=
  forall st e, result_of (m st) = Raised e -> is_exception e = true.

(** ** Tactics of the proofs *)

(** The steps of the monad, unfolded. *)
Ltac unfold_monad :=
  unfold bind, try_except, emit, call, clock, lift, connect, commit, acquire,
    log_error, ret in *.

(** The next call of the handler: its answer and the world it leaves, and
    whether what it raised is an [Exception]. *)
Ltac next_answer :=
  match goal with
  | |- context [is_exception ?e] =>
      destruct (is_exception e) eqn:?
  | |- context [reply_text C ?a ?b ?w] =>
      destruct (reply_text C a b w) as [[?m|?e] ?wn] eqn:?
  | |- context [extract_info C ?a ?b ?w] =>
      destruct (extract_info C a b w) as [[?info|?e] ?wn] eqn:?
  | |- context [edit_text C ?a ?b ?w] =>
      destruct (edit_text C a b w) as [[[]|?e] ?wn] eqn:?
  | |- context [open_rb C ?a ?w] =>
      destruct (open_rb C a w) as [[[]|?e] ?wn] eqn:?
  | |- context [send_document C ?a ?b ?c ?w] =>
      destruct (send_document C a b c w) as [[[]|?e] ?wn] eqn:?
  | |- context [delete C ?a ?w] =>
      destruct (delete C a w) as [[[]|?e] ?wn] eqn:?
  | |- context [datetime_now C ?w] =>
      destruct (datetime_now C w) as [?now ?wn] eqn:?
  end; cbn.

(** The next decision of the block: the lock, the garbage collector, the
    clock, a statement. *)
Ltac block_step :=
  match goal with
  | |- context [Store.adapt (PyInt ?u)] =>
      destruct (Store.adapt (PyInt u)) as [?bound|?e] eqn:?Hadapt
  | |- context [Store.select_user ?d ?u] =>
      destruct (Store.select_user d u) as [?r|] eqn:?Hsel
  | |- context [Store.locked ?d] =>
      destruct (Store.locked d) eqn:?Hlocked
  | |- context [collected C ?w] =>
      destruct (collected C w) as [[|] ?wc] eqn:?Hgc
  | |- context [current_timestamp C ?w] =>
      destruct (current_timestamp C w) as [?ts ?wt] eqn:?Hts
  | |- context [Store.insert_user ?d ?u ?a ?t] =>
      destruct (Store.insert_user d u a t) as [?d1|?e] eqn:?Hins
  | |- context [Store.prepare_update ?k] =>
      destruct (Store.prepare_update k) as [?sets|?e] eqn:?Hprep
  | |- context [Store.update_users ?f ?d ?s ?u] =>
      destruct (Store.update_users f d s u) as [?d2|?e] eqn:?Hupd
  end;
  cbn -[Store.select_user Store.insert_user Store.prepare_update
        Store.update_users Store.set_where Store.insert_row Store.locked
        Store.with_lock].

Ltac block_start uid kwargs st :=
  unfold update_user_info_try; unfold_monad;
  destruct st as [d w];
  destruct kwargs as [|kv kwargs];
  cbn -[Store.select_user Store.insert_user Store.prepare_update
        Store.update_users Store.set_where Store.insert_row Store.adapt
        Store.locked Store.with_lock].


(** ** The store: facts on rows and statements *)

Lemma assign_user_id sets : forall r,
  Store.user_id (Store.assign sets r) = Store.user_id r.
Proof.
  unfold Store.assign.
  induction sets as [|[c v] sets IH]; intros r; simpl; [reflexivity|].
  rewrite IH. destruct r, c; reflexivity.
Qed.


Lemma get_set_column_other c c' v r :
  c <> c' -> Store.get_column c (Store.set_column c' v r) = Store.get_column c r.
Proof. intros Hne. destruct r, c, c'; try reflexivity; congruence. Qed.

Lemma assign_untouched c sets : forall r,
  ~ In c (map fst sets) ->
  Store.get_column c (Store.assign sets r) = Store.get_column c r.
Proof.
  unfold Store.assign.
  induction sets as [|[c' v] sets IH]; intros r Hnot; simpl in *; [reflexivity|].
  rewrite IH by tauto.
  apply get_set_column_other. intros ->. tauto.
Qed.


Lemma set_where_nil uid rows : Store.set_where uid [] rows = rows.
Proof.
  unfold Store.set_where.
  induction rows as [|r rows IH]; simpl; [reflexivity|].
  f_equal; [destruct (Store.user_id r =? uid); reflexivity | exact IH].
Qed.

Lemma set_where_ids uid sets rows :
  map Store.user_id (Store.set_where uid sets rows) = map Store.user_id rows.
Proof.
  unfold Store.set_where. rewrite map_map.
  apply map_ext. intros r.
  destruct (Store.user_id r =? uid); [apply assign_user_id | reflexivity].
Qed.



Lemma select_user_id d uid r :
  Store.select_user d uid = Some r -> Store.user_id r = uid.
Proof.
  unfold Store.select_user. intros H.
  apply find_some in H. destruct H as [_ H]. apply Z.eqb_eq in H. exact H.
Qed.

(** *** The place of a new row *)

Lemma insert_row_split r rows :
  exists pre post,
    rows = (pre ++ post)%list /\
    Store.insert_row r rows = (pre ++ r :: post)%list /\
    Forall (fun x => Store.user_id x <= Store.user_id r) pre /\
    match post with
    | [] => True
    | x :: _ => Store.user_id r < Store.user_id x
    end.
Proof.
  induction rows as [|x rows (pre & post & Hrows & Hins & Hpre & Hpost)]; simpl.
  - exists [], []. repeat split. constructor.
  - destruct (Z.ltb_spec (Store.user_id r) (Store.user_id x)) as [Hlt|Hge].
    + exists [], (x :: rows). repeat split; [constructor | exact Hlt].
    + exists (x :: pre), post. rewrite Hins. simpl. rewrite <- Hrows.
      repeat split; [constructor; assumption | exact Hpost].
Qed.

Lemma In_insert_row r rows x :
  In x (Store.insert_row r rows) <-> x = r \/ In x rows.
Proof.
  destruct (insert_row_split r rows) as (pre & post & -> & -> & _).
  rewrite !in_app_iff. simpl. intuition congruence.
Qed.

Lemma find_insert_row_other uid' r rows :
  Store.user_id r <> uid' ->
  find (fun x => Store.user_id x =? uid') (Store.insert_row r rows)
  = find (fun x => Store.user_id x =? uid') rows.
Proof.
  intros Hr. apply Z.eqb_neq in Hr.
  induction rows as [|x rows IH]; simpl; [now rewrite Hr|].
  destruct (Store.user_id r <? Store.user_id x); simpl.
  - now rewrite Hr.
  - now rewrite IH.
Qed.

Lemma find_insert_row_new uid r rows :
  Store.user_id r = uid ->
  find (fun x => Store.user_id x =? uid) rows = None ->
  find (fun x => Store.user_id x =? uid) (Store.insert_row r rows) = Some r.
Proof.
  intros Hr. apply Z.eqb_eq in Hr.
  induction rows as [|x rows IH]; simpl; [now rewrite Hr|].
  destruct (Store.user_id x =? uid) eqn:Hx; [discriminate|]. intros Hnone.
  destruct (Store.user_id r <? Store.user_id x); simpl.
  - now rewrite Hr.
  - rewrite Hx. now apply IH.
Qed.

Lemma set_where_insert_row uid sets r rows :
  Store.set_where uid sets (Store.insert_row r rows)
  = Store.insert_row (if Store.user_id r =? uid then Store.assign sets r else r)
      (Store.set_where uid sets rows).
Proof.
  set (f := fun x => if Store.user_id x =? uid then Store.assign sets x else x).
  assert (Hf : forall x, Store.user_id (f x) = Store.user_id x).
  { intros x. unfold f. destruct (Store.user_id x =? uid);
      [apply assign_user_id | reflexivity]. }
  unfold Store.set_where.
  change (map f (Store.insert_row r rows) = Store.insert_row (f r) (map f rows)).
  induction rows as [|x rows IH]; simpl; [reflexivity|].
  rewrite !Hf.
  destruct (Store.user_id r <? Store.user_id x); simpl; [reflexivity|].
  now rewrite IH.
Qed.

Lemma insert_row_length r rows :
  List.length (Store.insert_row r rows) = S (List.length rows).
Proof.
  destruct (insert_row_split r rows) as (pre & post & -> & -> & _).
  rewrite !length_app. simpl. lia.
Qed.

Lemma insert_row_ids r rows :
  ~ In (Store.user_id r) (map Store.user_id rows) ->
  exists pre post,
    map Store.user_id rows = (pre ++ post)%list /\
    map Store.user_id (Store.insert_row r rows)
    = (pre ++ Store.user_id r :: post)%list /\
    Forall (fun i => i < Store.user_id r) pre /\
    match post with
    | [] => True
    | i :: _ => Store.user_id r < i
    end.
Proof.
  intros Hnot.
  destruct (insert_row_split r rows) as (pre & post & Hrows & Hins & Hpre & Hpost).
  exists (map Store.user_id pre), (map Store.user_id post).
  rewrite Hins, Hrows, !map_app. simpl. repeat split.
  - rewrite Hrows, map_app in Hnot.
    apply Forall_forall. intros i Hi.
    apply in_map_iff in Hi. destruct Hi as (x & <- & Hx).
    pose proof (proj1 (Forall_forall _ _) Hpre x Hx) as Hle. simpl in Hle.
    assert (Store.user_id x <> Store.user_id r).
    { intros Heq. apply Hnot. apply in_or_app. left.
      rewrite <- Heq. now apply in_map. }
    lia.
  - destruct post; simpl; auto.
Qed.

(** *** Compiling and binding the UPDATE *)

Lemma column_not_reserved k c :
  Store.column_of_name k = Some c -> Store.is_reserved k = false.
Proof.
  unfold Store.column_of_name, Store.is_reserved.
  generalize (lower k). intros s. unfold Store.column_names. simpl.
  repeat match goal with
         | |- context [String.eqb s ?n] =>
             destruct (String.eqb_spec s n) as [->|?]; [reflexivity|]
         end.
  discriminate.
Qed.

Lemma adapt_at_returned i j v x :
  Store.adapt_at i v = Returned x -> Store.adapt_at j v = Returned x.
Proof.
  destruct v as [|n|b|s|t|cls]; simpl; try (intros H; exact H).
  discriminate.
Qed.

Lemma adapt_at_exception i v e :
  Store.adapt_at i v = Raised e -> is_exception e = true.
Proof.
  destruct v as [|n|b|s|t|cls]; simpl; try discriminate.
  - destruct (Store.fits_int64 n); [discriminate|].
    intros H. inversion H. reflexivity.
  - intros H. inversion H. reflexivity.
Qed.

Lemma kwargs_ok_parse kwargs :
  forallb field_bound kwargs = true ->
  Store.parse_keys (map fst kwargs) = Returned tt.
Proof.
  unfold Store.parse_keys. intros Hok.
  destruct (find Store.is_reserved (map fst kwargs)) as [k|] eqn:Hf; [|reflexivity].
  apply find_some in Hf. destruct Hf as [Hin Hres].
  apply in_map_iff in Hin. destruct Hin as (kv & <- & Hin).
  apply (proj1 (forallb_forall _ _) Hok) in Hin.
  unfold field_bound in Hin.
  destruct (Store.column_of_name (fst kv)) as [c|] eqn:Hc; [|discriminate].
  rewrite (column_not_reserved _ _ Hc) in Hres. discriminate.
Qed.

Lemma field_ok_bound kwargs :
  kwargs_ok kwargs = true -> forallb field_bound kwargs = true.
Proof.
  unfold kwargs_ok, field_ok. intros H.
  apply forallb_forall. intros kv Hin.
  apply (proj1 (forallb_forall _ _) H) in Hin.
  now apply andb_true_iff in Hin.
Qed.

Lemma kwargs_ok_sets kwargs : forall i,
  forallb field_bound kwargs = true ->
  exists cols vals,
    Store.resolve_columns (map fst kwargs) = Returned cols /\
    Store.bind_values i (map snd kwargs) = Returned vals /\
    map Store.coerce (combine cols vals) = sets_of kwargs.
Proof.
  induction kwargs as [|[k v] kwargs IH]; simpl; intros i Hok.
  - exists [], []. repeat split.
  - apply andb_true_iff in Hok. destruct Hok as [Hf Hrest].
    destruct (IH (S i) Hrest) as (cols & vals & Hc & Hv & Hsets).
    unfold field_bound in Hf. simpl in Hf.
    destruct (Store.column_of_name k) as [c|] eqn:Hk; [|discriminate].
    destruct (Store.adapt v) as [x|] eqn:Hx; [|discriminate].
    exists (c :: cols), (x :: vals). rewrite Hc, Hv.
    rewrite (adapt_at_returned 1 i v x Hx). simpl.
    repeat split. now rewrite Hsets.
Qed.

Lemma prepare_update_bound kwargs :
  forallb field_bound kwargs = true ->
  Store.prepare_update kwargs = Returned (sets_of kwargs).
Proof.
  intros Hok. unfold Store.prepare_update.
  rewrite (kwargs_ok_parse _ Hok).
  destruct (kwargs_ok_sets kwargs 1%nat Hok) as (cols & vals & Hc & Hv & Hsets).
  simpl. rewrite Hc. simpl. rewrite Hv. simpl. now rewrite Hsets.
Qed.

Lemma kwargs_ok_prepare kwargs :
  kwargs_ok kwargs = true ->
  Store.prepare_update kwargs = Returned (sets_of kwargs).
Proof. intros H. apply prepare_update_bound. now apply field_ok_bound. Qed.

Lemma kwargs_ok_binds kwargs :
  kwargs_ok kwargs = true -> Forall2 binds kwargs (sets_of kwargs).
Proof.
  unfold kwargs_ok.
  induction kwargs as [|[k v] kwargs IH]; simpl; intros Hok; [constructor|].
  apply andb_true_iff in Hok. destruct Hok as [Hf Hrest].
  unfold field_ok, field_bound, names_key in Hf. simpl in Hf.
  destruct (Store.column_of_name k) as [c|] eqn:Hk; [|discriminate].
  destruct (Store.adapt v) as [x|] eqn:Hx; [|discriminate].
  constructor; [|now apply IH].
  split; [exact Hk|]. split.
  - simpl. intros ->. discriminate.
  - exists x. split; [exact Hx | reflexivity].
Qed.

Lemma binds_no_key kwargs sets :
  Forall2 binds kwargs sets -> Store.new_key sets = None.
Proof.
  induction 1 as [|kv [c v] kwargs sets (_ & Hc & _) _ IH]; simpl; [reflexivity|].
  rewrite IH. simpl in Hc. destruct c; try reflexivity. congruence.
Qed.

Lemma kwargs_ok_no_key kwargs :
  kwargs_ok kwargs = true -> Store.new_key (sets_of kwargs) = None.
Proof. intros H. exact (binds_no_key _ _ (kwargs_ok_binds _ H)). Qed.

Lemma update_users_ok f conn kwargs uid :
  kwargs_ok kwargs = true ->
  Store.update_users f conn (sets_of kwargs) uid
  = Returned (Store.with_users
                (Store.set_where uid (sets_of kwargs) (Store.users conn)) conn).
Proof.
  intros Hok. unfold Store.update_users. now rewrite (kwargs_ok_no_key _ Hok).
Qed.

(** A key that is no column, or a value without adapter, makes the UPDATE
    raise before it is stepped. *)
Lemma prepare_update_raises kwargs :
  forallb field_bound kwargs = false ->
  exists e, Store.prepare_update kwargs = Raised e.
Proof.
  unfold Store.prepare_update. intros Hbad.
  destruct (Store.parse_keys (map fst kwargs)) as [[]|e]; [|exists e; reflexivity].
  simpl.
  destruct (Store.resolve_columns (map fst kwargs)) as [cols|e] eqn:Hc;
    [|exists e; reflexivity].
  simpl.
  destruct (Store.bind_values 1 (map snd kwargs)) as [vals|e] eqn:Hv;
    [|exists e; reflexivity].
  exfalso. revert cols vals Hc Hv Hbad. generalize 1%nat.
  induction kwargs as [|[k v] kwargs IH]; simpl; intros i cols vals Hc Hv Hbad;
    [discriminate|].
  unfold field_bound in Hbad. simpl in Hbad.
  destruct (Store.column_of_name k); [|discriminate].
  unfold Store.adapt in Hbad.
  destruct (Store.adapt_at i v) as [x|] eqn:Hx; [|discriminate].
  rewrite (adapt_at_returned i 1 v x Hx) in Hbad.
  simpl in *.
  destruct (Store.resolve_columns (map fst kwargs)) as [cs|]; [|discriminate].
  destruct (Store.bind_values (S i) (map snd kwargs)) as [xs|] eqn:Hvs;
    [|discriminate].
  exact (IH (S i) cs xs eq_refl Hvs Hbad).
Qed.

(** The statements raise instances of [Exception] only. *)
Lemma prepare_update_exception kwargs e :
  Store.prepare_update kwargs = Raised e -> is_exception e = true.
Proof.
  unfold Store.prepare_update, Store.parse_keys.
  destruct (find Store.is_reserved (map fst kwargs));
    [intros H; inversion H; reflexivity|].
  simpl.
  assert (Hres : forall keys e,
            Store.resolve_columns keys = Raised e -> is_exception e = true).
  { induction keys as [|k keys IH]; simpl; intros e0; [discriminate|].
    destruct (Store.column_of_name k); [|intros H; inversion H; reflexivity].
    destruct (Store.resolve_columns keys); simpl; [discriminate|].
    intros H. inversion H; subst. now apply IH. }
  assert (Hbind : forall vals i e,
            Store.bind_values i vals = Raised e -> is_exception e = true).
  { induction vals as [|v vals IH]; simpl; intros i e0; [discriminate|].
    destruct (Store.adapt_at i v) eqn:Hv; simpl.
    - destruct (Store.bind_values (S i) vals) eqn:Hvs; simpl; [discriminate|].
      intros H. inversion H; subst. now apply (IH _ _ Hvs).
    - intros H. inversion H; subst. now apply adapt_at_exception in Hv. }
  destruct (Store.resolve_columns (map fst kwargs)) eqn:Hc; simpl.
  - destruct (Store.bind_values 1 (map snd kwargs)) eqn:Hv; simpl; [discriminate|].
    intros H. inversion H; subst. now apply Hbind in Hv.
  - intros H. inversion H; subst. now apply Hres in Hc.
Qed.

Lemma update_users_exception f conn sets uid e :
  Store.update_users f conn sets uid = Raised e -> is_exception e = true.
Proof.
  unfold Store.update_users.
  destruct (Store.new_key sets) as [s|]; [|discriminate].
  destruct (Store.select_user conn uid); [|discriminate].
  destruct (Store.key_of f s) as [k|]; [|intros H; inversion H; reflexivity].
  destruct (k =? uid); [discriminate|].
  destruct (existsb _ _); [intros H; inversion H; reflexivity | discriminate].
Qed.

Lemma insert_user_exception conn uid admin ts e :
  Store.insert_user conn uid admin ts = Raised e -> is_exception e = true.
Proof.
  unfold Store.insert_user.
  destruct (Store.select_user conn uid); [|discriminate].
  intros H. inversion H. reflexivity.
Qed.

Lemma update_users_downloads f conn sets uid conn' :
  Store.update_users f conn sets uid = Returned conn' ->
  Store.downloads conn' = Store.downloads conn /\
  Store.locked conn' = Store.locked conn.
Proof.
  unfold Store.update_users.
  destruct (Store.new_key sets) as [s|];
    [|intros H; inversion H; split; reflexivity].
  destruct (Store.select_user conn uid);
    [|intros H; inversion H; split; reflexivity].
  destruct (Store.key_of f s) as [k|]; [|discriminate].
  destruct (k =? uid); [intros H; inversion H; split; reflexivity|].
  destruct (existsb _ _); [discriminate|].
  intros H; inversion H; split; reflexivity.
Qed.

Lemma insert_user_downloads conn uid admin ts conn' :
  Store.insert_user conn uid admin ts = Returned conn' ->
  Store.downloads conn' = Store.downloads conn.
Proof.
  unfold Store.insert_user.
  destruct (Store.select_user conn uid); [discriminate|].
  intros H. inversion H. reflexivity.
Qed.

(** *** [update_user_info] as a function of the state *)

Lemma adapt_user_id uid :
  Store.fits_int64 uid = true ->
  Store.adapt (PyInt uid) = Returned (Store.Integer uid).
Proof. intros H. unfold Store.adapt, Store.adapt_at. now rewrite H. Qed.

Lemma update_user_info_ok uid kwargs st :
  Store.fits_int64 uid = true ->
  kwargs_ok kwargs = true ->
  Store.locked (db st) = false ->
  update_user_info uid kwargs st
  = (Returned tt, upserted st uid (sets_of kwargs),
     [ev_update_user_info uid kwargs]).
Proof.
  intros Hfit Hok Hlock.
  unfold update_user_info, update_user_info_try, upserted, upserted_db.
  unfold_monad.
  rewrite (adapt_user_id _ Hfit).
  destruct st as [[us ds l] w]. simpl in Hlock. subst l. cbn [db world is_exception].
  destruct (Store.select_user _ uid) as [r|] eqn:Hsel;
    cbn -[Store.set_where Store.insert_row sets_of Store.prepare_update].
  - destruct kwargs as [|kv kwargs].
    + cbn -[Store.set_where]. rewrite set_where_nil. reflexivity.
    + rewrite (kwargs_ok_prepare _ Hok).
      cbn -[Store.set_where Store.insert_row sets_of Store.update_users].
      rewrite (update_users_ok _ _ _ _ Hok). reflexivity.
  - destruct (current_timestamp C w) as [ts w'] eqn:Hts.
    cbn -[Store.set_where Store.insert_row sets_of Store.prepare_update].
    unfold Store.insert_user at 1. rewrite Hsel.
    cbn -[Store.set_where Store.insert_row sets_of Store.prepare_update].
    destruct kwargs as [|kv kwargs].
    + cbn -[Store.set_where Store.insert_row]. rewrite set_where_nil. reflexivity.
    + rewrite (kwargs_ok_prepare _ Hok).
      cbn -[Store.set_where Store.insert_row sets_of Store.update_users].
      rewrite (update_users_ok _ _ _ _ Hok). reflexivity.
Qed.

Lemma update_user_info_try_trace uid kwargs st :
  snd (update_user_info_try uid kwargs st) = [].
Proof.
  block_start uid kwargs st; repeat block_step; reflexivity.
Qed.

(** The [try] block writes the store only by its last statement, and raises
    instances of [Exception] only. *)
Lemma update_user_info_try_raised uid kwargs st e st1 t1 :
  update_user_info_try uid kwargs st = (Raised e, st1, t1) ->
  same_rows (db st) (db st1) /\ t1 = [] /\ is_exception e = true.
Proof.
  block_start uid kwargs st; repeat block_step;
    intros H; inversion H; subst; clear H;
    (repeat split; try reflexivity);
    first [ now apply adapt_at_exception in Hadapt
          | now apply insert_user_exception in Hins
          | now apply prepare_update_exception in Hprep
          | now apply update_users_exception in Hupd ].
Qed.

Lemma update_user_info_try_downloads uid kwargs st :
  Store.downloads (db (snd (fst (update_user_info_try uid kwargs st))))
  = Store.downloads (db st).
Proof.
  block_start uid kwargs st; repeat block_step; try reflexivity;
    repeat match goal with
           | H : Store.insert_user _ _ _ _ = Returned _ |- _ =>
               apply insert_user_downloads in H
           | H : Store.update_users _ _ _ _ = Returned _ |- _ =>
               apply update_users_downloads in H; destruct H as [H _]
           end;
    cbn [Store.with_lock Store.downloads Store.users db] in *; congruence.
Qed.

Lemma resolve_columns_names kwargs : forall cols,
  Store.resolve_columns (map fst kwargs) = Returned cols ->
  forall c, In c cols -> names_column kwargs c = true.
Proof.
  induction kwargs as [|[k v] kwargs IH]; simpl; intros cols Hres c Hin.
  - inversion Hres; subst. destruct Hin.
  - destruct (Store.column_of_name k) as [c0|] eqn:Hk; [|discriminate].
    destruct (Store.resolve_columns (map fst kwargs)) as [cs|] eqn:Hcs;
      [|discriminate].
    simpl in Hres. inversion Hres; subst.
    destruct (column_eq_dec c c0) as [Heq|Hne]; [reflexivity|].
    destruct Hin as [Heq | Hin]; [congruence|].
    simpl. apply (IH cs eq_refl c Hin).
Qed.

Lemma coerce_columns cols : forall vals c,
  In c (map fst (map Store.coerce (combine cols vals))) -> In c cols.
Proof.
  induction cols as [|c0 cols IH]; intros [|v vals] c; simpl; try tauto.
  intros [Heq | Hin]; [left; exact Heq | right; exact (IH vals c Hin)].
Qed.

Lemma prepare_update_names kwargs sets :
  Store.prepare_update kwargs = Returned sets ->
  forall c, In c (map fst sets) -> names_column kwargs c = true.
Proof.
  unfold Store.prepare_update.
  destruct (Store.parse_keys (map fst kwargs)) as [[]|]; simpl; [|discriminate].
  destruct (Store.resolve_columns (map fst kwargs)) as [cols|] eqn:Hc;
    simpl; [|discriminate].
  destruct (Store.bind_values 1 (map snd kwargs)) as [vals|] eqn:Hv;
    simpl; [|discriminate].
  intros H c Hin. inversion H; subst.
  apply (resolve_columns_names _ _ Hc).
  exact (coerce_columns _ _ _ Hin).
Qed.

Lemma no_key_named sets :
  ~ In Store.c_user_id (map fst sets) -> Store.new_key sets = None.
Proof.
  induction sets as [|[c v] sets IH]; simpl; intros Hnot; [reflexivity|].
  rewrite IH by tauto.
  destruct c; try reflexivity. tauto.
Qed.

Lemma update_users_plain f conn sets uid conn' :
  ~ In Store.c_user_id (map fst sets) ->
  Store.update_users f conn sets uid = Returned conn' ->
  conn' = Store.with_users (Store.set_where uid sets (Store.users conn)) conn.
Proof.
  intros Hnot. unfold Store.update_users. rewrite (no_key_named _ Hnot).
  intros H. now inversion H.
Qed.

(** A block that returns has left the store as it was, or as the upsert of
    assignments to columns its keywords name. *)
Lemma update_user_info_try_returned uid kwargs st st1 t :
  update_user_info_try uid kwargs st = (Returned tt, st1, t) ->
  names_column kwargs Store.c_user_id = false ->
  db st1 = db st \/
  exists sets ts,
    db st1 = upserted_db (db st) uid ts sets /\
    forall c, In c (map fst sets) -> names_column kwargs c = true.
Proof.
  intros Hrun Hkey. revert Hrun.
  assert (Hplain : forall sets,
            Store.prepare_update kwargs = Returned sets ->
            ~ In Store.c_user_id (map fst sets)).
  { intros sets Hp Hin. rewrite (prepare_update_names _ _ Hp _ Hin) in Hkey.
    discriminate. }
  remember (fun sets : list (Store.column * Store.sqlval) =>
              forall c, In c (map fst sets) -> names_column kwargs c = true)
    as named eqn:Hnamed.
  assert (Hn : forall sets, Store.prepare_update kwargs = Returned sets -> named sets)
    by (subst named; apply prepare_update_names).
  assert (Hnil : named []) by (subst named; intros c []).
  assert (Hgoal : forall d',
            (d' = db st \/ exists sets ts, d' = upserted_db (db st) uid ts sets /\ named sets) ->
            d' = db st \/
            exists sets ts,
              d' = upserted_db (db st) uid ts sets /\
              forall c, In c (map fst sets) -> names_column kwargs c = true)
    by (subst named; auto).
  intros Hrun. apply Hgoal. clear Hgoal Hnamed Hkey. revert Hrun.
  unfold upserted_db.
  block_start uid kwargs st; repeat block_step;
    intros H; inversion H; subst; clear H;
    try (left; reflexivity); right;
    repeat match goal with
           | H : Store.insert_user _ _ _ _ = Returned _ |- _ =>
               unfold Store.insert_user in H; rewrite Hsel in H;
               inversion H; subst; clear H
           | H : Store.update_users _ _ _ _ = Returned _ |- _ =>
               apply update_users_plain in H; [subst | now apply Hplain]
           end.
  all: try (exists [], ts; cbn -[Store.set_where Store.insert_row];
            rewrite set_where_nil; split; [reflexivity | exact Hnil]).
  all: try (exists sets, 0; split; [reflexivity | now apply Hn]).
  all: try (exists sets, ts; split; [reflexivity | now apply Hn]).
Qed.

(** What a call of [update_user_info] is, by the outcome of its block. *)
Lemma update_user_info_cases uid kwargs st :
  (exists st1,
     update_user_info_try uid kwargs st = (Returned tt, st1, []) /\
     update_user_info uid kwargs st
     = (Returned tt, st1, [ev_update_user_info uid kwargs]))
  \/
  (exists e st1,
     update_user_info_try uid kwargs st = (Raised e, st1, []) /\
     same_rows (db st) (db st1) /\
     update_user_info uid kwargs st
     = (Returned tt, st1,
        [ev_update_user_info uid kwargs;
         ev_log_error ("Error updating user info: " ++ str_exn e)])).
Proof.
  pose proof (update_user_info_try_trace uid kwargs st) as Htr.
  destruct (update_user_info_try uid kwargs st) as [[[[]|e] st1] t1] eqn:Hrun;
    simpl in Htr; subst t1.
  - left. exists st1. split; [reflexivity|].
    unfold update_user_info. unfold_monad. rewrite Hrun. reflexivity.
  - right. exists e, st1. split; [reflexivity|].
    destruct (update_user_info_try_raised _ _ _ _ _ _ Hrun) as (Hrows & _ & He).
    split; [exact Hrows|].
    unfold update_user_info. unfold_monad. rewrite Hrun, He. reflexivity.
Qed.

Lemma same_rows_refl d : same_rows d d.
Proof. split; reflexivity. Qed.

Lemma same_rows_select d d' uid :
  same_rows d d' -> Store.select_user d' uid = Store.select_user d uid.
Proof. intros [H _]. unfold Store.select_user. now rewrite H. Qed.

(** A call that leaves the key alone leaves the rows as they were, or as
    the upsert of assignments to columns its keywords name. *)
Lemma update_user_info_effect uid kwargs st :
  names_column kwargs Store.c_user_id = false ->
  same_rows (db st) (db (after (update_user_info uid kwargs st))) \/
  exists sets ts,
    db (after (update_user_info uid kwargs st)) = upserted_db (db st) uid ts sets /\
    forall c, In c (map fst sets) -> names_column kwargs c = true.
Proof.
  intros Hkey.
  destruct (update_user_info_cases uid kwargs st)
    as [(st1 & Htry & Hrun) | (e & st1 & _ & Hdb & Hrun)]; rewrite Hrun.
  - destruct (update_user_info_try_returned _ _ _ _ _ Htry Hkey) as [Hsame | Hup].
    + left. unfold after. simpl. rewrite Hsame. apply same_rows_refl.
    + right. exact Hup.
  - left. exact Hdb.
Qed.

(** *** One row per user *)



Lemma find_set_where uid uid' sets rows :
  find (fun r => Store.user_id r =? uid') (Store.set_where uid sets rows)
  = option_map (fun r => if Store.user_id r =? uid then Store.assign sets r else r)
      (find (fun r => Store.user_id r =? uid') rows).
Proof.
  unfold Store.set_where.
  induction rows as [|r rows IH]; simpl; [reflexivity|].
  replace (Store.user_id (if Store.user_id r =? uid then Store.assign sets r else r))
    with (Store.user_id r)
    by (destruct (Store.user_id r =? uid); [now rewrite assign_user_id | reflexivity]).
  destruct (Store.user_id r =? uid'); [reflexivity | exact IH].
Qed.

Lemma set_where_absent uid sets rows :
  find (fun r => Store.user_id r =? uid) rows = None ->
  Store.set_where uid sets rows = rows.
Proof.
  unfold Store.set_where.
  induction rows as [|r rows IH]; simpl; [reflexivity|].
  destruct (Store.user_id r =? uid); [discriminate|].
  intros H. now rewrite IH.
Qed.



Lemma select_none_not_in d uid :
  Store.select_user d uid = None -> ~ In uid (ids d).
Proof.
  unfold Store.select_user, ids. intros Hsel Hin.
  apply in_map_iff in Hin. destruct Hin as (x & Hx & Hin).
  apply (find_none _ _ Hsel) in Hin. simpl in Hin.
  apply Z.eqb_neq in Hin. contradiction.
Qed.

Lemma primary_key_insert rows uid r :
  NoDup (map Store.user_id rows) ->
  ~ In uid (map Store.user_id rows) -> Store.user_id r = uid ->
  NoDup (map Store.user_id (Store.insert_row r rows)).
Proof.
  intros Hpk Hnot Hid.
  destruct (insert_row_split r rows) as (pre & post & -> & -> & _).
  rewrite map_app in *. simpl.
  apply (NoDup_Add (Add_app (Store.user_id r) _ _)).
  split; [exact Hpk | now rewrite Hid].
Qed.

Lemma upserted_found d uid ts sets r :
  Store.select_user d uid = Some r ->
  upserted_db d uid ts sets
  = Store.mk_db (Store.set_where uid sets (Store.users d)) (Store.downloads d) false.
Proof. unfold upserted_db. now intros ->. Qed.

Lemma upserted_unseen d uid ts sets :
  Store.select_user d uid = None ->
  upserted_db d uid ts sets
  = Store.mk_db
      (Store.insert_row
         (Store.assign sets (Store.new_user uid (mem_int uid (admin_ids cfg)) ts))
         (Store.users d))
      (Store.downloads d) false.
Proof.
  unfold upserted_db. intros Hsel. rewrite Hsel.
  rewrite set_where_insert_row, (set_where_absent _ _ _ Hsel).
  cbn [Store.new_user Store.user_id]. now rewrite Z.eqb_refl.
Qed.

(** The row of [uid] after the upsert. *)
Lemma upserted_row d uid ts sets :
  Store.select_user (upserted_db d uid ts sets) uid
  = Some (Store.assign sets
            (match Store.select_user d uid with
             | Some r => r
             | None => Store.new_user uid (mem_int uid (admin_ids cfg)) ts
             end)).
Proof.
  destruct (Store.select_user d uid) as [r|] eqn:Hsel.
  - rewrite (upserted_found _ _ _ _ _ Hsel). unfold Store.select_user in *. simpl.
    rewrite find_set_where, Hsel. simpl.
    apply find_some in Hsel. destruct Hsel as [_ Hsel]. now rewrite Hsel.
  - rewrite (upserted_unseen _ _ _ _ Hsel). unfold Store.select_user in *. simpl.
    apply find_insert_row_new; [apply assign_user_id | exact Hsel].
Qed.

Lemma upserted_primary_key d uid ts sets :
  primary_key_ok d -> primary_key_ok (upserted_db d uid ts sets).
Proof.
  intros Hpk. unfold primary_key_ok, upserted_db. simpl.
  rewrite set_where_ids.
  destruct (Store.select_user d uid) as [r|] eqn:Hsel; [exact Hpk|].
  apply (primary_key_insert _ uid); [exact Hpk | | reflexivity].
  now apply select_none_not_in.
Qed.

Lemma upserted_others d uid ts sets uid' :
  uid' <> uid ->
  Store.select_user (upserted_db d uid ts sets) uid' = Store.select_user d uid'.
Proof.
  intros Hne. unfold upserted_db, Store.select_user. simpl.
  rewrite find_set_where.
  assert (Hkeep : forall o : option Store.user_row,
            (forall r, o = Some r -> Store.user_id r = uid') ->
            option_map (fun r => if Store.user_id r =? uid
                                 then Store.assign sets r else r) o = o).
  { intros [r|] Hr; simpl; [|reflexivity].
    rewrite (Hr r eq_refl). apply Z.eqb_neq in Hne. now rewrite Hne. }
  assert (Hid : forall rows r,
            find (fun x => Store.user_id x =? uid') rows = Some r ->
            Store.user_id r = uid').
  { intros rows r Hr. apply find_some in Hr. destruct Hr as [_ Hr].
    now apply Z.eqb_eq in Hr. }
  destruct (find (fun r => Store.user_id r =? uid) (Store.users d)) eqn:Hsel.
  - apply Hkeep. apply Hid.
  - rewrite find_insert_row_other by (simpl; congruence).
    apply Hkeep. apply Hid.
Qed.


Lemma upserted_state_db st uid sets :
  exists ts, db (upserted st uid sets) = upserted_db (db st) uid ts sets.
Proof.
  unfold upserted. destruct (Store.select_user (db st) uid) eqn:Hsel.
  - exists 0. reflexivity.
  - destruct (current_timestamp C (world st)) as [ts w]. exists ts. reflexivity.
Qed.



Lemma update_user_info_bad_field uid kwargs st :
  forallb field_bound kwargs = false ->
  exists e st1, update_user_info_try uid kwargs st = (Raised e, st1, []).
Proof.
  intros Hbad.
  destruct (prepare_update_raises _ Hbad) as [e0 He0].
  pose proof (update_user_info_try_trace uid kwargs st) as Htr.
  destruct (update_user_info_try uid kwargs st) as [[[[]|e] st1] t1] eqn:Hrun;
    simpl in Htr; subst t1; [exfalso | eauto].
  revert Hrun.
  block_start uid kwargs st; [discriminate|].
  repeat block_step; try discriminate; congruence.
Qed.

(** C10: [update_user_info] never raises; when a statement of its block
    raises (as the UPDATE does on a keyword that is no column, or on a
    value sqlite3 cannot bind), the rows of the store are what they were
    before the call, the INSERT of an unseen id included, and the
    exception ends in the log.  The keywords are Python identifiers, as
    the names of keyword arguments written in a call are: with other keys,
    passed in a dictionary, the text of the UPDATE is not the one the
    store compiles here. *)
Theorem update_user_info_error_discarded uid kwargs st :
  forallb is_identifier (map fst kwargs) = true ->
  (exists st' t, update_user_info uid kwargs st = (Returned tt, st', t)) /\
  (forall e st1 t1,
     update_user_info_try uid kwargs st = (Raised e, st1, t1) ->
     Store.users (db st1) = Store.users (db st) /\
     Store.downloads (db st1) = Store.downloads (db st) /\
     Store.select_user (db st1) uid = Store.select_user (db st) uid /\
     update_user_info uid kwargs st
     = (Returned tt, st1,
        [ev_update_user_info uid kwargs;
         ev_log_error ("Error updating user info: " ++ str_exn e)])) /\
  (forallb field_bound kwargs = false ->
   exists e st1, update_user_info_try uid kwargs st = (Raised e, st1, [])).
Proof.
  intros _. repeat apply conj.
  - destruct (update_user_info_cases uid kwargs st)
      as [(st1 & _ & Hrun) | (e & st1 & _ & _ & Hrun)]; rewrite Hrun; eauto.
  - intros e st1 t1 Hraise.
    destruct (update_user_info_try_raised _ _ _ _ _ _ Hraise) as ([Hu Hd] & -> & He).
    split; [assumption|]. split; [assumption|].
    split; [unfold Store.select_user; now rewrite Hu|].
    unfold update_user_info. unfold_monad. rewrite Hraise, He. reflexivity.
  - apply update_user_info_bad_field.
Qed.

(** *** Running a handler step by step *)

Lemma run_bind_ret {A B} (m : M W A) (k : A -> M W B) st a st1 t1 r st2 t2 t :
  m st = (Returned a, st1, t1) ->
  k a st1 = (r, st2, t2) ->
  t = (t1 ++ t2)%list ->
  bind m k st = (r, st2, t).
Proof. intros Hm Hk ->. unfold bind. now rewrite Hm, Hk. Qed.

Lemma run_bind_raise {A B} (m : M W A) (k : A -> M W B) st e st1 t1 :
  m st = (Raised e, st1, t1) ->
  bind m k st = (Raised e, st1, t1).
Proof. intros Hm. unfold bind. now rewrite Hm. Qed.

Lemma run_try_ret {A} (m : M W A) h st a st1 t1 :
  m st = (Returned a, st1, t1) ->
  try_except m h st = (Returned a, st1, t1).
Proof. intros Hm. unfold try_except. now rewrite Hm. Qed.

Lemma run_try_raise {A} (m : M W A) h st e st1 t1 r st2 t2 t :
  m st = (Raised e, st1, t1) ->
  is_exception e = true ->
  h e st1 = (r, st2, t2) ->
  t = (t1 ++ t2)%list ->
  try_except m h st = (r, st2, t).
Proof. intros Hm He Hh ->. unfold try_except. now rewrite Hm, He, Hh. Qed.

Lemma run_try_pass {A} (m : M W A) h st e st1 t1 :
  m st = (Raised e, st1, t1) ->
  is_exception e = false ->
  try_except m h st = (Raised e, st1, t1).
Proof. intros Hm He. unfold try_except. now rewrite Hm, He. Qed.

Lemma run_call {A} ev (f : W -> outcome A * W) st r w :
  f (world st) = (r, w) ->
  call ev f st = (r, mk_state (db st) w, [ev]).
Proof. intros Hf. unfold call. now rewrite Hf. Qed.

Lemma run_clock (f : W -> Z * W) st t w :
  f (world st) = (t, w) ->
  clock f st = (Returned t, mk_state (db st) w, []).
Proof. intros Hf. unfold clock. now rewrite Hf. Qed.

(** *** The subscription gate *)

Lemma mem_int_In x xs : mem_int x xs = true <-> In x xs.
Proof.
  unfold mem_int. rewrite existsb_exists. split.
  - intros (y & Hin & Heq). apply Z.eqb_eq in Heq. now subst.
  - intros Hin. exists x. split; [assumption | apply Z.eqb_refl].
Qed.

Lemma mem_int_not_In x xs : ~ In x xs -> mem_int x xs = false.
Proof.
  intros Hnot. destruct (mem_int x xs) eqn:H; [|reflexivity].
  apply mem_int_In in H. contradiction.
Qed.

Lemma truthy_str_nonempty s : s <> "" -> truthy_str s = true.
Proof. destruct s; [congruence | reflexivity]. Qed.

Lemma member_statuses_spec status :
  mem_str status member_statuses = true
  <-> status = "member" \/ status = "administrator" \/ status = "creator".
Proof.
  unfold mem_str, member_statuses. simpl.
  rewrite !orb_true_iff, !String.eqb_eq. intuition discriminate.
Qed.

(** C5: a user of ADMIN_IDS is authorized at once: the gate returns [True],
    calls no collaborator (its trace is empty) and leaves the store and the
    outside world as they are, whatever the channel and whatever
    [get_chat_member] would answer. *)
Theorem check_subscription_admin uid st :
  In uid (admin_ids cfg) ->
  check_subscription uid st = (Returned true, st, []).
Proof.
  intros Hin. apply mem_int_In in Hin.
  unfold check_subscription, try_except, ret. now rewrite Hin.
Qed.

(** C8: with no channel configured the gate returns [True] for every user
    and calls no collaborator: its trace is empty, store and outside world
    are untouched. *)
Theorem check_subscription_no_channel uid st :
  channel_username cfg = "" ->
  check_subscription uid st = (Returned true, st, []).
Proof.
  intros Hch.
  unfold check_subscription, try_except, ret. rewrite Hch. simpl.
  now destruct (mem_int uid (admin_ids cfg)).
Qed.

(** The gate when it queries the channel, by the answer of the query. *)
Lemma check_subscription_run uid st :
  mem_int uid (admin_ids cfg) = false ->
  truthy_str (channel_username cfg) = true ->
  let chat_id := "@" ++ channel_username cfg in
  check_subscription uid st
  = match get_chat_member C chat_id uid (world st) with
    | (Raised e, w1) =>
        if is_exception e
        then (Returned false, mk_state (db st) w1,
              [ev_get_chat_member chat_id uid;
               ev_log_error ("Error checking subscription: " ++ str_exn e)])
        else (Raised e, mk_state (db st) w1, [ev_get_chat_member chat_id uid])
    | (Returned status, w1) =>
        let '(now, w2) := datetime_now C w1 in
        let decision := mem_str status member_statuses in
        let '(_, st', t) :=
          update_user_info uid (gate_fields decision now) (mk_state (db st) w2) in
        (Returned decision, st', ev_get_chat_member chat_id uid :: t)
    end.
Proof.
  intros Hadmin Hch chat_id.
  unfold check_subscription. rewrite Hadmin, Hch. fold chat_id.
  destruct (get_chat_member C chat_id uid (world st)) as [[status|e] w1] eqn:Hq.
  - destruct (datetime_now C w1) as [now w2] eqn:Hnow.
    cbv zeta.
    destruct (update_user_info_cases uid
                (gate_fields (mem_str status member_statuses) now)
                (mk_state (db st) w2))
      as [(st1 & _ & Hrun) | (e & st1 & _ & _ & Hrun)]; rewrite Hrun;
      (apply run_try_ret;
       eapply run_bind_ret; [apply run_call; exact Hq | | reflexivity];
       eapply run_bind_ret; [apply run_clock; exact Hnow | | reflexivity];
       eapply run_bind_ret; [exact Hrun | reflexivity | reflexivity]).
  - destruct (is_exception e) eqn:He.
    + eapply run_try_raise;
        [apply run_bind_raise; apply run_call; exact Hq | exact He
        | reflexivity | reflexivity].
    + apply run_try_pass; [|exact He].
      apply run_bind_raise. apply run_call. exact Hq.
Qed.

(** The gate returns, or lets pass what the query raised that is no
    [Exception]; the store is then as it was. *)
Lemma check_subscription_outcome uid st :
  (exists b st1 t1, check_subscription uid st = (Returned b, st1, t1)) \/
  (exists e w1,
     is_exception e = false /\
     get_chat_member C ("@" ++ channel_username cfg) uid (world st) = (Raised e, w1) /\
     check_subscription uid st
     = (Raised e, mk_state (db st) w1,
        [ev_get_chat_member ("@" ++ channel_username cfg) uid])).
Proof.
  destruct (mem_int uid (admin_ids cfg)) eqn:Hadmin.
  { left. unfold check_subscription, try_except, ret. rewrite Hadmin. eauto. }
  destruct (truthy_str (channel_username cfg)) eqn:Hch.
  2:{ left. unfold check_subscription, try_except, ret. rewrite Hadmin, Hch. eauto. }
  rewrite (check_subscription_run uid st Hadmin Hch). cbv zeta.
  destruct (get_chat_member C _ uid (world st)) as [[status|e] w1] eqn:Hq.
  - left. destruct (datetime_now C w1) as [now w2].
    destruct (update_user_info _ _ _) as [[r st'] t]. eauto.
  - destruct (is_exception e) eqn:He; [left; eauto|].
    right. exists e, w1. auto.
Qed.

(** C2, as the code has it: when the gate queries the channel (the user is
    no admin and a channel is configured), a status among member,
    administrator, creator gives [True] and any other status [False],
    whatever becomes of the write that follows; when the id is one SQLite
    can hold, as Telegram's are, and no connection left behind keeps the
    file locked, the user's row then holds that decision in
    [is_subscribed] and the time of the check in
    [subscription_checked_at].  When the query raises an [Exception], the
    gate returns [False], logs the error and leaves the store as it was;
    what it raises that is no [Exception] (a cancellation) leaves the gate
    with the store as it was and nothing logged. *)
Theorem check_subscription_query uid st :
  ~ In uid (admin_ids cfg) ->
  channel_username cfg <> "" ->
  Store.fits_int64 uid = true ->
  let chat_id := "@" ++ channel_username cfg in
  (forall status w1 now w2,
     get_chat_member C chat_id uid (world st) = (Returned status, w1) ->
     datetime_now C w1 = (now, w2) ->
     let decision := mem_str status member_statuses in
     (decision = true
      <-> status = "member" \/ status = "administrator" \/ status = "creator") /\
     (exists st' rest,
        check_subscription uid st
        = (Returned decision, st',
           ev_get_chat_member chat_id uid
           :: ev_update_user_info uid
                [("is_subscribed", PyBool decision);
                 ("subscription_checked_at", PyDatetime now)]
           :: rest)) /\
     (Store.locked (db st) = false ->
      exists st' r,
        check_subscription uid st
        = (Returned decision, st',
           [ev_get_chat_member chat_id uid;
            ev_update_user_info uid
              [("is_subscribed", PyBool decision);
               ("subscription_checked_at", PyDatetime now)]]) /\
        Store.select_user (db st') uid = Some r /\
        Store.is_subscribed r = Store.Integer (Z.b2z decision) /\
        Store.subscription_checked_at r = Store.Timestamp now)) /\
  (forall e w1,
     get_chat_member C chat_id uid (world st) = (Raised e, w1) ->
     is_exception e = true ->
     check_subscription uid st
     = (Returned false, mk_state (db st) w1,
        [ev_get_chat_member chat_id uid;
         ev_log_error ("Error checking subscription: " ++ str_exn e)])) /\
  (forall e w1,
     get_chat_member C chat_id uid (world st) = (Raised e, w1) ->
     is_exception e = false ->
     check_subscription uid st
     = (Raised e, mk_state (db st) w1, [ev_get_chat_member chat_id uid])).
Proof.
  intros Hadmin Hch Hfit chat_id.
  apply mem_int_not_In in Hadmin. apply truthy_str_nonempty in Hch.
  pose proof (check_subscription_run uid st Hadmin Hch) as Hrun0.
  cbv zeta in Hrun0. fold chat_id in Hrun0.
  repeat apply conj.
  - intros status w1 now w2 Hq Hnow decision.
    rewrite Hq, Hnow in Hrun0. fold decision in Hrun0.
    change (gate_fields decision now)
      with [("is_subscribed", PyBool decision);
            ("subscription_checked_at", PyDatetime now)] in Hrun0.
    set (kwargs := [("is_subscribed", PyBool decision);
                    ("subscription_checked_at", PyDatetime now)]) in *.
    split; [apply member_statuses_spec|]. split.
    + destruct (update_user_info_cases uid kwargs (mk_state (db st) w2))
        as [(st1 & _ & Hrun) | (e & st1 & _ & _ & Hrun)];
        rewrite Hrun in Hrun0; rewrite Hrun0; eauto.
    + intros Hlock.
      pose proof (update_user_info_ok uid kwargs (mk_state (db st) w2) Hfit
                    eq_refl Hlock) as Hrun.
      rewrite Hrun in Hrun0.
      set (sets := sets_of kwargs) in *.
      assert (Hsets : sets = [(Store.c_is_subscribed, Store.Integer (Z.b2z decision));
                              (Store.c_subscription_checked_at, Store.Timestamp now)])
        by reflexivity.
      destruct (upserted_state_db (mk_state (db st) w2) uid sets) as [ts Hdb].
      eexists. eexists. split; [exact Hrun0|].
      rewrite Hdb, upserted_row. split; [reflexivity|].
      rewrite Hsets.
      destruct (match Store.select_user _ uid with Some r => r | None => _ end).
      split; reflexivity.
  - intros e w1 Hq He. rewrite Hq, He in Hrun0. exact Hrun0.
  - intros e w1 Hq He. rewrite Hq, He in Hrun0. exact Hrun0.
Qed.

(** *** What all the calls of a handler have in common *)

Lemma respects_ret P {A} (a : A) : respects P (ret a).
Proof. intros st. split; reflexivity. Qed.

Lemma respects_bind P {A B} (m : M W A) (k : A -> M W B) :
  respects P m -> (forall a, respects P (k a)) -> respects P (bind m k).
Proof.
  intros Hm Hk st. unfold bind.
  specialize (Hm st). destruct (m st) as [[[a|e] st1] t1]; simpl in *;
    [|exact Hm].
  specialize (Hk a st1). destruct (k a st1) as [[r st2] t2]; simpl in *.
  destruct Hm as [Hd1 Ht1]. destruct Hk as [Hd2 Ht2].
  split; [congruence|]. rewrite forallb_app, Ht1, Ht2. reflexivity.
Qed.

Lemma respects_try_except P {A} (m : M W A) h :
  respects P m -> (forall e, respects P (h e)) -> respects P (try_except m h).
Proof.
  intros Hm Hh st. unfold try_except.
  specialize (Hm st). destruct (m st) as [[[a|e] st1] t1]; simpl in *;
    [exact Hm|].
  destruct (is_exception e); [|exact Hm].
  specialize (Hh e st1). destruct (h e st1) as [[r st2] t2]; simpl in *.
  destruct Hm as [Hd1 Ht1]. destruct Hh as [Hd2 Ht2].
  split; [congruence|]. rewrite forallb_app, Ht1, Ht2. reflexivity.
Qed.

Lemma respects_emit P ev : P ev = true -> respects P (emit ev).
Proof. intros HP st. simpl. now rewrite HP. Qed.

Lemma respects_call P {A} ev (f : W -> outcome A * W) :
  P ev = true -> respects P (call ev f).
Proof.
  intros HP st. unfold call. destruct (f (world st)). simpl. now rewrite HP.
Qed.

Lemma respects_clock P (f : W -> Z * W) : respects P (clock f).
Proof. intros st. unfold clock. destruct (f (world st)). split; reflexivity. Qed.

Lemma respects_update_user_info P uid kwargs :
  passes_plain P ->
  P (ev_update_user_info uid kwargs) = true ->
  respects P (update_user_info uid kwargs).
Proof.
  intros Hplain HP st.
  pose proof (update_user_info_try_downloads uid kwargs st) as Hd.
  destruct (update_user_info_cases uid kwargs st)
    as [(st1 & Htry & Hrun) | (e & st1 & Htry & _ & Hrun)];
    rewrite Htry in Hd; rewrite Hrun; simpl in *; rewrite HP;
    (split; [exact Hd|]); [reflexivity|].
  now rewrite (Hplain (ev_log_error _)).
Qed.

Lemma respects_check_subscription P uid :
  passes_plain P ->
  (forall b now,
     P (ev_update_user_info uid
          [("is_subscribed", PyBool b); ("subscription_checked_at", PyDatetime now)])
     = true) ->
  respects P (check_subscription uid).
Proof.
  intros Hplain HP. unfold check_subscription.
  apply respects_try_except.
  - destruct (mem_int uid (admin_ids cfg)); [apply respects_ret|].
    destruct (truthy_str (channel_username cfg)); [|apply respects_ret].
    apply respects_bind; [apply respects_call; apply (Hplain (ev_get_chat_member _ _))|].
    intros status. apply respects_bind; [apply respects_clock|].
    intros now. apply respects_bind;
      [apply respects_update_user_info; auto | intros; apply respects_ret].
  - intros e. apply respects_bind; [|intros; apply respects_ret].
    apply respects_emit. apply (Hplain (ev_log_error _)).
Qed.

Lemma respects_send_reply P text markup :
  passes_plain P -> respects P (send_reply text markup).
Proof.
  intros Hplain. apply respects_call. apply (Hplain (ev_reply_text _ _)).
Qed.

Lemma respects_send_edit P message text :
  passes_plain P -> respects P (send_edit message text).
Proof.
  intros Hplain. apply respects_call. apply (Hplain (ev_edit_text _ _)).
Qed.

Lemma respects_download_content P url quality :
  passes_plain P ->
  (forall opts, P (ev_extract_info opts url) = true) ->
  respects P (download_content url quality).
Proof.
  intros Hplain HP. unfold download_content.
  apply respects_try_except.
  - apply respects_bind; [apply respects_call; apply HP|].
    intros info. apply respects_ret.
  - intros e. apply respects_bind; [|intros; apply respects_ret].
    apply respects_emit. apply (Hplain (ev_log_error _)).
Qed.

Lemma respects_process_download P update url :
  passes_plain P ->
  (forall opts, P (ev_extract_info opts url) = true) ->
  (forall now,
     P (ev_update_user_info (Telegram.id (Telegram.effective_user update))
          [("total_downloads", PyInt 1); ("last_activity", PyDatetime now)])
     = true) ->
  respects P (process_download update url).
Proof.
  intros Hplain Hfetch Hstat. unfold process_download.
  apply respects_bind; [now apply respects_send_reply|].
  intros status_message. apply respects_try_except.
  - apply respects_bind; [now apply respects_download_content|].
    intros [title platform file_path duration file_size | error];
      [|now apply respects_send_edit].
    apply respects_bind; [now apply respects_send_edit|]. intros _.
    apply respects_bind; [apply respects_call; apply (Hplain (ev_open _))|].
    intros _.
    apply respects_bind;
      [apply respects_call; apply (Hplain (ev_send_document _ _ _))|].
    intros _. apply respects_bind; [apply respects_clock|]. intros now.
    apply respects_bind; [apply respects_update_user_info; auto|]. intros _.
    apply respects_call. apply (Hplain (ev_delete _)).
  - intros e. apply respects_bind; [|intros; now apply respects_send_edit].
    apply respects_emit. apply (Hplain (ev_log_error _)).
Qed.

Lemma respects_start_command P update :
  passes_plain P ->
  (forall kwargs,
     P (ev_update_user_info (Telegram.id (Telegram.effective_user update)) kwargs)
     = true) ->
  respects P (start_command update).
Proof.
  intros Hplain HP. unfold start_command, show_main_interface.
  apply respects_bind; [apply respects_clock|]. intros now.
  apply respects_bind; [apply respects_update_user_info; auto|]. intros _.
  apply respects_bind; [apply respects_check_subscription; auto|].
  intros [|]; simpl;
    (apply respects_bind; [now apply respects_send_reply | intros; apply respects_ret]).
Qed.

Lemma handle_message_authorized update st st1 t1 :
  check_subscription (Telegram.id (Telegram.effective_user update)) st
  = (Returned true, st1, t1) ->
  handle_message update st
  = (let '(r, st2, t2) := route update st1 in (r, st2, (t1 ++ t2)%list)).
Proof.
  intros Hgate. unfold handle_message, bind at 1. now rewrite Hgate.
Qed.

Lemma handle_message_blocked update st st1 t1 :
  check_subscription (Telegram.id (Telegram.effective_user update)) st
  = (Returned false, st1, t1) ->
  handle_message update st
  = (let '(r, st2, t2) := start_command update st1 in (r, st2, (t1 ++ t2)%list)).
Proof.
  intros Hgate. unfold handle_message, bind at 1. now rewrite Hgate.
Qed.

Lemma respects_route P update :
  passes_plain P ->
  (forall opts url rest,
     extract_urls_from_text (Telegram.message_text update) = url :: rest ->
     P (ev_extract_info opts url) = true) ->
  (forall now,
     P (ev_update_user_info (Telegram.id (Telegram.effective_user update))
          [("total_downloads", PyInt 1); ("last_activity", PyDatetime now)])
     = true) ->
  respects P (route update).
Proof.
  intros Hplain Hfetch Hstat. unfold route.
  destruct (extract_urls_from_text (Telegram.message_text update))
    as [|url rest] eqn:Hurls.
  - destruct (is_user_admin _); unfold handle_admin_commands;
      (apply respects_bind; [now apply respects_send_reply | intros; apply respects_ret]).
  - apply respects_process_download; eauto.
Qed.

Lemma respects_handle_message P update :
  passes_plain P ->
  (forall opts url rest,
     extract_urls_from_text (Telegram.message_text update) = url :: rest ->
     P (ev_extract_info opts url) = true) ->
  (forall kwargs,
     P (ev_update_user_info (Telegram.id (Telegram.effective_user update)) kwargs)
     = true) ->
  respects P (handle_message update).
Proof.
  intros Hplain Hfetch HP. unfold handle_message.
  apply respects_bind; [apply respects_check_subscription; auto|].
  intros [|]; simpl.
  - apply (respects_route P update); auto.
  - apply respects_start_command; auto.
Qed.

Lemma existsb_false_forallb {A} (f : A -> bool) l :
  existsb f l = false <-> forallb (fun x => negb (f x)) l = true.
Proof.
  induction l as [|x l IH]; simpl; [tauto|].
  rewrite orb_false_iff, andb_true_iff, negb_true_iff. tauto.
Qed.

Lemma update_user_info_first uid kwargs st :
  exists st1 rest,
    update_user_info uid kwargs st
    = (Returned tt, st1, ev_update_user_info uid kwargs :: rest).
Proof.
  destruct (update_user_info_cases uid kwargs st)
    as [(st1 & _ & Hrun) | (e & st1 & _ & _ & Hrun)]; rewrite Hrun; eauto.
Qed.

Lemma start_command_first update st now w :
  datetime_now C (world st) = (now, w) ->
  exists r st' rest,
    start_command update st
    = (r, st',
       ev_update_user_info (Telegram.id (Telegram.effective_user update))
         (profile_fields (Telegram.effective_user update) now) :: rest).
Proof.
  intros Hnow. unfold start_command.
  set (uid := Telegram.id (Telegram.effective_user update)).
  destruct (update_user_info_first uid
              (profile_fields (Telegram.effective_user update) now)
              (mk_state (db st) w)) as (st1 & rest & Hup).
  match goal with
  | |- context [bind (update_user_info _ _) ?k] =>
      destruct (k tt st1) as [[r st2] t2] eqn:Hk
  end.
  exists r, st2, (rest ++ t2)%list.
  eapply run_bind_ret; [apply run_clock; exact Hnow | | reflexivity].
  eapply run_bind_ret; [exact Hup | exact Hk | reflexivity].
Qed.

Lemma no_profile_plain : passes_plain no_profile.
Proof. intros []; simpl; auto. Qed.

(** C3, as the code has it: [start_command] begins with the upsert of the
    sender's profile fields and [last_activity]; [handle_message] begins
    with the subscription gate.  When the gate says no, the handler goes on
    with [start_command], so the upsert comes right after the gate's calls;
    when the gate says yes, no call of the handler writes a profile
    column. *)
Theorem router_upsert_order update :
  let user := Telegram.effective_user update in
  let uid := Telegram.id user in
  (forall st now w,
     datetime_now C (world st) = (now, w) ->
     exists r st' rest,
       start_command update st
       = (r, st', ev_update_user_info uid (profile_fields user now) :: rest)) /\
  (forall st st1 t1 now w,
     check_subscription uid st = (Returned false, st1, t1) ->
     datetime_now C (world st1) = (now, w) ->
     existsb is_profile_upsert t1 = false /\
     exists r st' rest,
       handle_message update st
       = (r, st',
          (t1 ++ ev_update_user_info uid (profile_fields user now) :: rest)%list)) /\
  (forall st st1 t1,
     check_subscription uid st = (Returned true, st1, t1) ->
     exists r st' t2,
       handle_message update st = (r, st', (t1 ++ t2)%list) /\
       existsb is_profile_upsert (t1 ++ t2) = false).
Proof.
  intros user uid.
  assert (Hgate : forall st, forallb no_profile (snd (check_subscription uid st)) = true).
  { intros st. apply (respects_check_subscription no_profile uid no_profile_plain).
    reflexivity. }
  repeat apply conj.
  - intros st now w Hnow. exact (start_command_first update st now w Hnow).
  - intros st st1 t1 now w Hcheck Hnow. split.
    + apply existsb_false_forallb. specialize (Hgate st). now rewrite Hcheck in Hgate.
    + destruct (start_command_first update st1 now w Hnow) as (r & st' & rest & Hrun).
      exists r, st', rest.
      rewrite (handle_message_blocked _ _ _ _ Hcheck). now rewrite Hrun.
  - intros st st1 t1 Hcheck.
    destruct (route update st1) as [[r st2] t2] eqn:Hroute.
    exists r, st2, t2. split.
    + rewrite (handle_message_authorized _ _ _ _ Hcheck). now rewrite Hroute.
    + apply existsb_false_forallb. rewrite forallb_app.
      specialize (Hgate st). rewrite Hcheck in Hgate. simpl in Hgate.
      fold no_profile. rewrite Hgate. simpl.
      assert (Hr : respects no_profile (route update)).
      { apply respects_route; [apply no_profile_plain | reflexivity | reflexivity]. }
      specialize (Hr st1). now rewrite Hroute in Hr.
Qed.

(** C4, as the code has it: no handler writes the [downloads] table.  A
    download attempt, successful or not, leaves the table as it was, and so
    do a text message and the start command. *)
Theorem downloads_never_written update url st :
  Store.downloads (db (snd (fst (process_download update url st))))
  = Store.downloads (db st) /\
  Store.downloads (db (snd (fst (handle_message update st))))
  = Store.downloads (db st) /\
  Store.downloads (db (snd (fst (start_command update st))))
  = Store.downloads (db st).
Proof.
  assert (Hplain : passes_plain any_event) by (intros []; simpl; auto).
  repeat apply conj.
  - apply (respects_process_download any_event); auto.
  - apply (respects_handle_message any_event); auto.
  - apply (respects_start_command any_event); auto.
Qed.

(** *** Substrings and the platform table *)

Lemma strip_prefix_spec p : forall s r,
  strip_prefix p s = Some r <-> s = p ++ r.
Proof.
  induction p as [|a p IH]; intros s r; simpl.
  - split; [intros H; now inversion H | now intros ->].
  - destruct s as [|b s]; [split; discriminate|].
    destruct (Ascii.eqb_spec a b) as [->|Hne].
    + rewrite IH. split; [now intros -> | intros H; now inversion H].
    + split; [discriminate | intros H; inversion H; congruence].
Qed.

Lemma starts_with_spec p s : starts_with p s = true <-> exists r, s = p ++ r.
Proof.
  unfold starts_with.
  destruct (strip_prefix p s) as [r|] eqn:H.
  - apply strip_prefix_spec in H. split; eauto.
  - split; [discriminate|]. intros [r Hr].
    apply strip_prefix_spec in Hr. congruence.
Qed.

Lemma contains_spec needle hay :
  contains needle hay = true <-> substring needle hay.
Proof.
  unfold substring.
  induction hay as [|c hay IH]; simpl; rewrite orb_true_iff, starts_with_spec.
  - split.
    + intros [[r Hr] | H]; [|discriminate]. exists "", r. exact Hr.
    + intros ([|x a] & b & H); [left; eauto | discriminate].
  - rewrite IH. split.
    + intros [[r Hr] | (a & b & H)].
      * exists "", r. exact Hr.
      * exists (String c a), b. simpl. now rewrite H.
    + intros ([|x a] & b & H).
      * left. eauto.
      * right. simpl in H. inversion H. eauto.
Qed.

Lemma contains_false needle hay :
  contains needle hay = false <-> ~ substring needle hay.
Proof.
  rewrite <- contains_spec. destruct (contains needle hay); split; congruence.
Qed.

Lemma first_platform_none table domain :
  (forall d l, In (d, l) table -> ~ substring d domain) ->
  first_platform table domain = None.
Proof.
  induction table as [|[d l] table IH]; simpl; intros Hnone; [reflexivity|].
  assert (Hd : contains d domain = false)
    by (apply contains_false; apply (Hnone d l); now left).
  rewrite Hd. apply IH. intros d' l' Hin. apply (Hnone d' l'). now right.
Qed.

Lemma first_platform_first pre d l post domain :
  substring d domain ->
  (forall d' l', In (d', l') pre -> ~ substring d' domain) ->
  first_platform (pre ++ (d, l) :: post) domain = Some l.
Proof.
  intros Hd. induction pre as [|[d0 l0] pre IH]; simpl; intros Hpre.
  - apply contains_spec in Hd. now rewrite Hd.
  - assert (H0 : contains d0 domain = false)
      by (apply contains_false; apply (Hpre d0 l0); now left).
    rewrite H0. apply IH. intros d' l' Hin. apply (Hpre d' l'). now right.
Qed.

(** *** The netloc of a URL *)

Lemma filter_chars_app p a b :
  filter_chars p (a ++ b) = filter_chars p a ++ filter_chars p b.
Proof.
  induction a as [|c a IH]; simpl; [reflexivity|].
  destruct (p c); simpl; now rewrite IH.
Qed.

Lemma filter_chars_id p s : all_chars p s = true -> filter_chars p s = s.
Proof.
  induction s as [|c s IH]; simpl; [reflexivity|].
  destruct (p c); simpl; [|discriminate]. intros H. now rewrite IH.
Qed.

Lemma all_chars_impl (p q : ascii -> bool) s :
  (forall c, p c = true -> q c = true) ->
  all_chars p s = true -> all_chars q s = true.
Proof.
  intros Hpq. induction s as [|c s IH]; simpl; [reflexivity|].
  intros H. apply andb_true_iff in H. destruct H as [Hc Hs].
  now rewrite (Hpq c Hc), IH.
Qed.

Lemma has_char_none k s :
  all_chars (fun c => negb (is_char k c)) s = true -> has_char k s = false.
Proof.
  induction s as [|c s IH]; simpl; [reflexivity|].
  intros H. apply andb_true_iff in H. destruct H as [Hc Hs].
  apply negb_true_iff in Hc. now rewrite Hc, IH.
Qed.

Lemma split_at_host p host tail :
  all_chars (fun c => negb (p c)) host = true ->
  match tail with EmptyString => true | String c _ => p c end = true ->
  fst (split_at p (host ++ tail)) = host.
Proof.
  intros Hhost Htail. induction host as [|c host IH]; simpl.
  - destruct tail as [|c tail]; [reflexivity|]. simpl. now rewrite Htail.
  - simpl in Hhost. apply andb_true_iff in Hhost. destruct Hhost as [Hc Hhost].
    apply negb_true_iff in Hc. rewrite Hc.
    specialize (IH Hhost). destruct (split_at p (host ++ tail)) as [a b].
    simpl in *. now rewrite IH.
Qed.

Lemma host_char_facts c :
  host_char c = true ->
  negb (is_unsafe_byte c) = true /\ negb (is_netloc_end c) = true /\
  negb (is_char 91 c) = true /\ negb (is_char 93 c) = true /\
  Nat.ltb (code c) 128 = true.
Proof.
  unfold host_char, is_unsafe_byte, is_char.
  intros H. repeat (apply andb_true_iff in H; destruct H as [H ?]).
  apply Nat.ltb_lt in H.
  repeat split; auto.
  rewrite !negb_orb. rewrite !andb_true_iff, !negb_true_iff, !Nat.eqb_neq. lia.
Qed.

Lemma after_host_filter tail :
  after_host tail = true ->
  after_host (filter_chars (fun c => negb (is_unsafe_byte c)) tail) = true.
Proof.
  destruct tail as [|c tail]; [reflexivity|]. simpl. intros Hc.
  assert (H : negb (is_unsafe_byte c) = true).
  { unfold is_netloc_end, is_unsafe_byte, is_char in *.
    rewrite !orb_true_iff, !Nat.eqb_eq in Hc.
    rewrite !negb_orb, !andb_true_iff, !negb_true_iff, !Nat.eqb_neq. lia. }
  rewrite H. exact Hc.
Qed.

(** The netloc of a URL with a plain host. *)
Lemma urlparse_netloc_host scheme host tail :
  scheme = "http" \/ scheme = "https" ->
  all_chars host_char host = true ->
  after_host tail = true ->
  urlparse_netloc L (scheme ++ "://" ++ host ++ tail) = Returned host.
Proof.
  intros Hscheme Hhost Htail.
  pose proof (all_chars_impl host_char _ host
                (fun c H => proj1 (host_char_facts c H)) Hhost) as Hsafe.
  pose proof (all_chars_impl host_char _ host
                (fun c H => proj1 (proj2 (host_char_facts c H))) Hhost) as Hend.
  pose proof (all_chars_impl host_char _ host
                (fun c H => proj1 (proj2 (proj2 (host_char_facts c H)))) Hhost) as Hlb.
  pose proof (all_chars_impl host_char _ host
                (fun c H => proj1 (proj2 (proj2 (proj2 (host_char_facts c H))))) Hhost) as Hrb.
  pose proof (all_chars_impl host_char _ host
                (fun c H => proj2 (proj2 (proj2 (proj2 (host_char_facts c H))))) Hhost) as Hascii.
  apply has_char_none in Hlb, Hrb.
  pose proof (split_at_host is_netloc_end host _ Hend (after_host_filter tail Htail)) as Hsplit.
  set (safe := fun c => negb (is_unsafe_byte c)) in *.
  assert (E1 : lstrip is_c0_or_space (scheme ++ "://" ++ host ++ tail)
               = scheme ++ "://" ++ host ++ tail)
    by (destruct Hscheme as [-> | ->]; reflexivity).
  assert (E2 : filter_chars safe (scheme ++ "://" ++ host ++ tail)
               = scheme ++ "://" ++ host ++ filter_chars safe tail).
  { rewrite !filter_chars_app, (filter_chars_id _ host Hsafe).
    destruct Hscheme as [-> | ->]; reflexivity. }
  assert (E3 : forall x, drop_scheme (scheme ++ "://" ++ x) = "//" ++ x)
    by (destruct Hscheme as [-> | ->]; reflexivity).
  assert (E4 : forall x, strip_prefix "//" ("//" ++ x) = Some x)
    by reflexivity.
  assert (Hasc : is_ascii host = true) by exact Hascii.
  unfold urlparse_netloc. cbv zeta. fold safe.
  rewrite E1, E2, E3, E4, Hsplit, Hlb, Hrb, Hasc. reflexivity.
Qed.

(** C9: [detect_platform] answers Unknown when [urlparse] raises and when
    the lowered netloc contains none of the domains of
    [supported_domains]; so it does for https://example.org/x.  When a
    domain occurs in the lowered netloc, the answer is the label of the
    first such entry of the table.  The netloc of an http or https URL is
    what stands between the two slashes and the first slash, question mark
    or hash after them, user name and port included; for one of printable
    ASCII without brackets it is lowered letter by letter. *)
Theorem detect_platform_spec :
  (forall url e,
     urlparse_netloc L url = Raised e -> detect_platform L url = "Unknown") /\
  (forall url,
     (forall netloc,
        urlparse_netloc L url = Returned netloc ->
        forall d l, In (d, l) supported_domains -> ~ substring d (str_lower L netloc)) ->
     detect_platform L url = "Unknown") /\
  detect_platform L "https://example.org/x" = "Unknown" /\
  (forall url netloc pre d l post,
     urlparse_netloc L url = Returned netloc ->
     supported_domains = (pre ++ (d, l) :: post)%list ->
     substring d (str_lower L netloc) ->
     (forall d' l', In (d', l') pre -> ~ substring d' (str_lower L netloc)) ->
     detect_platform L url = l) /\
  (forall scheme netloc tail,
     scheme = "http" \/ scheme = "https" ->
     all_chars host_char netloc = true ->
     after_host tail = true ->
     urlparse_netloc L (scheme ++ "://" ++ netloc ++ tail) = Returned netloc /\
     str_lower L netloc = lower netloc /\
     ((forall d l, In (d, l) supported_domains -> ~ substring d (lower netloc)) ->
      detect_platform L (scheme ++ "://" ++ netloc ++ tail) = "Unknown") /\
     (forall pre d l post,
        supported_domains = (pre ++ (d, l) :: post)%list ->
        substring d (lower netloc) ->
        (forall d' l', In (d', l') pre -> ~ substring d' (lower netloc)) ->
        detect_platform L (scheme ++ "://" ++ netloc ++ tail) = l)).
Proof.
  repeat apply conj.
  - intros url e Hraise. unfold detect_platform. now rewrite Hraise.
  - intros url Hnone. unfold detect_platform.
    destruct (urlparse_netloc L url) as [host|e]; [|reflexivity].
    now rewrite (first_platform_none _ _ (Hnone host eq_refl)).
  - reflexivity.
  - intros url host pre d l post Hhost Htable Hd Hpre.
    unfold detect_platform. rewrite Hhost, Htable.
    now rewrite (first_platform_first pre d l post _ Hd Hpre).
  - intros scheme netloc tail Hscheme Hchars Htail.
    pose proof (urlparse_netloc_host scheme netloc tail Hscheme Hchars Htail) as Hnet.
    assert (Hlow : str_lower L netloc = lower netloc).
    { unfold str_lower, is_ascii.
      now rewrite (all_chars_impl host_char _ netloc
                     (fun c H => proj2 (proj2 (proj2 (proj2 (host_char_facts c H)))))
                     Hchars). }
    repeat split; [exact Hnet | exact Hlow | |].
    + intros Hnone. unfold detect_platform. rewrite Hnet, Hlow.
      now rewrite (first_platform_none _ _ Hnone).
    + intros pre d l post Htable Hd Hpre.
      unfold detect_platform. rewrite Hnet, Hlow, Htable.
      now rewrite (first_platform_first pre d l post _ Hd Hpre).
Qed.

(** *** Routing of a text message *)

(** The trace of a program begins with the trace of its first step. *)
Lemma bind_trace {A B} (m : M W A) (k : A -> M W B) st :
  exists t, trace_of (bind m k st) = (trace_of (m st) ++ t)%list.
Proof.
  unfold bind, trace_of. destruct (m st) as [[[a|e] st1] t1]; simpl.
  - destruct (k a st1) as [[r st2] t2]. simpl. eauto.
  - exists []. now rewrite app_nil_r.
Qed.

Lemma try_except_trace {A} (m : M W A) h st :
  exists t, trace_of (try_except m h st) = (trace_of (m st) ++ t)%list.
Proof.
  unfold try_except, trace_of. destruct (m st) as [[[a|e] st1] t1]; simpl.
  - exists []. now rewrite app_nil_r.
  - destruct (is_exception e); [|exists []; now rewrite app_nil_r].
    destruct (h e st1) as [[r st2] t2]. simpl. eauto.
Qed.

(** Once the status message is sent, the next call of [process_download]
    is yt_dlp's, for the URL it was given. *)
Lemma process_download_fetches update url st m w1 :
  reply_text C (PyStr "⏳ جاري التحميل...") Telegram.no_markup (world st)
  = (Returned m, w1) ->
  exists rest,
    trace_of (process_download update url st)
    = ev_reply_text (PyStr "⏳ جاري التحميل...") Telegram.no_markup
      :: ev_extract_info
           {| format := "best[height<=720][ext=mp4]/best[height<=720]/best[ext=mp4]/best";
              outtmpl := "./downloads/%(title)s.%(ext)s";
              noplaylist := true |} url
      :: rest.
Proof.
  intros Hreply. unfold process_download, send_reply.
  unfold bind at 1, call at 1. rewrite Hreply. cbn [db world].
  match goal with
  | |- context [try_except ?body ?h ?s] =>
      destruct (try_except_trace body h s) as [t1 Ht1];
      destruct (try_except body h s) as [[r st2] t2] eqn:Hrun
  end.
  unfold trace_of in *. cbn [snd fst] in *. subst t2.
  match type of Hrun with
  | try_except (bind ?dl ?k) _ ?s = _ =>
      destruct (bind_trace dl k s) as [t2 Ht2]
  end.
  unfold trace_of in Ht2. rewrite Ht2. clear Ht2 Hrun.
  unfold download_content.
  match goal with
  | |- context [try_except ?body ?h ?s] =>
      destruct (try_except_trace body h s) as [t3 Ht3]
  end.
  unfold trace_of in Ht3. rewrite Ht3. clear Ht3.
  match goal with
  | |- context [bind ?c ?k ?s] =>
      destruct (bind_trace c k s) as [t4 Ht4]
  end.
  unfold trace_of in Ht4. rewrite Ht4. clear Ht4.
  unfold call. cbn [world db].
  destruct (extract_info C _ url w1) as [o w2]. cbn [snd].
  eexists. cbn [app]. rewrite <- !app_assoc. reflexivity.
Qed.

(** C7: the example text yields the one URL, and that URL is a YouTube one.
    Once the gate has said yes, a text with a URL is handed to
    [process_download] with the first URL found: when the status message
    goes out, the next call is yt_dlp's for that URL, and no call to yt_dlp
    in the whole handler is for another URL; a text without URL from a
    sender who is no admin gets the prompt to send a URL as the only
    further call, the store stays as the gate left it and yt_dlp is not
    called. *)
Theorem url_routing :
  extract_urls_from_text "check this out https://youtu.be/abc123 thanks"
  = ["https://youtu.be/abc123"] /\
  detect_platform L "https://youtu.be/abc123" = "YouTube" /\
  (forall update st st1 t1 url rest,
     check_subscription (Telegram.id (Telegram.effective_user update)) st
     = (Returned true, st1, t1) ->
     extract_urls_from_text (Telegram.message_text update) = url :: rest ->
     exists r st2 t2,
       process_download update url st1 = (r, st2, t2) /\
       handle_message update st = (r, st2, (t1 ++ t2)%list) /\
       (forall opts u, In (ev_extract_info opts u) (t1 ++ t2) -> u = url) /\
       (forall m w1,
          reply_text C (PyStr "⏳ جاري التحميل...") Telegram.no_markup (world st1)
          = (Returned m, w1) ->
          exists rest',
            t2 = ev_reply_text (PyStr "⏳ جاري التحميل...") Telegram.no_markup
                 :: ev_extract_info
                      {| format :=
                           "best[height<=720][ext=mp4]/best[height<=720]/best[ext=mp4]/best";
                         outtmpl := "./downloads/%(title)s.%(ext)s";
                         noplaylist := true |} url
                 :: rest')) /\
  (forall update st st1 t1,
     check_subscription (Telegram.id (Telegram.effective_user update)) st
     = (Returned true, st1, t1) ->
     extract_urls_from_text (Telegram.message_text update) = [] ->
     is_user_admin (Telegram.id (Telegram.effective_user update)) = false ->
     exists r w,
       handle_message update st
       = (r, mk_state (db st1) w,
          (t1 ++ [ev_reply_text (PyStr send_url_prompt) Telegram.no_markup])%list) /\
       existsb is_fetch
         (t1 ++ [ev_reply_text (PyStr send_url_prompt) Telegram.no_markup]) = false).
Proof.
  repeat apply conj.
  - reflexivity.
  - reflexivity.
  - intros update st st1 t1 url rest Hcheck Hurls.
    destruct (process_download update url st1) as [[r st2] t2] eqn:Hrun.
    exists r, st2, t2. split; [reflexivity|].
    assert (Hhm : handle_message update st = (r, st2, (t1 ++ t2)%list)).
    { rewrite (handle_message_authorized _ _ _ _ Hcheck).
      unfold route. now rewrite Hurls, Hrun. }
    split; [exact Hhm|]. split.
    + assert (Hplain : passes_plain (fetches_only url)) by (intros []; simpl; auto).
      assert (Hall : forallb (fetches_only url) (snd (handle_message update st)) = true).
      { apply (respects_handle_message (fetches_only url)); auto.
        intros opts url' rest' Hurls'. rewrite Hurls in Hurls'.
        inversion Hurls'. simpl. apply String.eqb_refl. }
      rewrite Hhm in Hall. simpl in Hall.
      intros opts u Hin.
      apply (proj1 (forallb_forall _ _) Hall) in Hin. simpl in Hin.
      now apply String.eqb_eq in Hin.
    + intros m w1 Hreply.
      destruct (process_download_fetches update url st1 m w1 Hreply) as [rest' Ht].
      rewrite Hrun in Ht. exists rest'. exact Ht.
  - intros update st st1 t1 Hcheck Hurls Hadmin.
    assert (Hgate : forallb no_fetch t1 = true).
    { assert (Hplain : passes_plain no_fetch) by (intros []; simpl; auto).
      pose proof (respects_check_subscription no_fetch
                    (Telegram.id (Telegram.effective_user update)) Hplain
                    (fun _ _ => eq_refl) st) as [_ H].
      now rewrite Hcheck in H. }
    destruct (reply_text C (PyStr send_url_prompt) Telegram.no_markup (world st1))
      as [r0 w] eqn:Hreply.
    exists (match r0 with Returned _ => Returned tt | Raised e => Raised e end), w.
    split.
    + rewrite (handle_message_authorized _ _ _ _ Hcheck).
      unfold route. rewrite Hurls, Hadmin.
      unfold send_reply, bind, call, ret. rewrite Hreply.
      destruct r0; reflexivity.
    + apply existsb_false_forallb. rewrite forallb_app.
      fold no_fetch. rewrite Hgate. reflexivity.
Qed.

(** Whatever the counter was, the statistics update of [process_download]
    leaves it at 1. *)
Lemma statistics_update_sets_one uid now st :
  Store.fits_int64 uid = true ->
  Store.locked (db st) = false ->
  exists st' r,
    update_user_info uid
      [("total_downloads", PyInt 1); ("last_activity", PyDatetime now)] st
    = (Returned tt, st',
       [ev_update_user_info uid
          [("total_downloads", PyInt 1); ("last_activity", PyDatetime now)]]) /\
    Store.select_user (db st') uid = Some r /\
    Store.total_downloads r = Store.Integer 1.
Proof.
  intros Hfit Hlock.
  set (kwargs := [("total_downloads", PyInt 1); ("last_activity", PyDatetime now)]).
  pose proof (update_user_info_ok uid kwargs st Hfit eq_refl Hlock) as Hrun.
  set (sets := sets_of kwargs) in *.
  assert (Hsets : sets = [(Store.c_total_downloads, Store.Integer 1);
                          (Store.c_last_activity, Store.Timestamp now)])
    by reflexivity.
  destruct (upserted_state_db st uid sets) as [ts Hdb].
  eexists. eexists. split; [exact Hrun|].
  rewrite Hdb, upserted_row. split; [reflexivity|].
  rewrite Hsets.
  destruct (match Store.select_user _ uid with Some r => r | None => _ end).
  reflexivity.
Qed.


(** ** Further properties *)

(** *** Relations every step of a handler keeps *)

Section Keeping.

Variable R : Store.database -> Store.database -> Prop.
Hypothesis R_refl : forall d, R d d.
Hypothesis R_trans : forall d1 d2 d3, R d1 d2 -> R d2 d3 -> R d1 d3.

Lemma keeps_ret {A} (a : A) : keeps R (ret a).
Proof. intros st. apply R_refl. Qed.

Lemma keeps_bind {A B} (m : M W A) (k : A -> M W B) :
  keeps R m -> (forall a, keeps R (k a)) -> keeps R (bind m k).
Proof.
  intros Hm Hk st. unfold bind, after in *.
  specialize (Hm st). destruct (m st) as [[[a|e] st1] t1]; simpl in *;
    [|exact Hm].
  specialize (Hk a st1). destruct (k a st1) as [[r st2] t2]; simpl in *.
  exact (R_trans _ _ _ Hm Hk).
Qed.

Lemma keeps_try_except {A} (m : M W A) h :
  keeps R m -> (forall e, keeps R (h e)) -> keeps R (try_except m h).
Proof.
  intros Hm Hh st. unfold try_except, after in *.
  specialize (Hm st). destruct (m st) as [[[a|e] st1] t1]; simpl in *;
    [exact Hm|].
  destruct (is_exception e); [|exact Hm].
  specialize (Hh e st1). destruct (h e st1) as [[r st2] t2]; simpl in *.
  exact (R_trans _ _ _ Hm Hh).
Qed.

Lemma keeps_emit ev : keeps R (emit ev).
Proof. intros st. apply R_refl. Qed.

Lemma keeps_call {A} ev (f : W -> outcome A * W) : keeps R (call ev f).
Proof.
  intros st. unfold call, after. destruct (f (world st)). simpl. apply R_refl.
Qed.

Lemma keeps_clock (f : W -> Z * W) : keeps R (clock f).
Proof.
  intros st. unfold clock, after. destruct (f (world st)). simpl. apply R_refl.
Qed.

Variable user : Telegram.user.

Hypothesis R_gate : forall b now,
  keeps R (update_user_info (Telegram.id user) (gate_fields b now)).
Hypothesis R_profile : forall now,
  keeps R (update_user_info (Telegram.id user) (profile_fields user now)).
Hypothesis R_stats : forall now,
  keeps R (update_user_info (Telegram.id user) (stats_fields now)).

Lemma keeps_check_subscription : keeps R (check_subscription (Telegram.id user)).
Proof.
  unfold check_subscription. apply keeps_try_except.
  - destruct (mem_int _ (admin_ids cfg)); [apply keeps_ret|].
    destruct (truthy_str (channel_username cfg)); [|apply keeps_ret].
    apply keeps_bind; [apply keeps_call|]. intros status.
    apply keeps_bind; [apply keeps_clock|]. intros now.
    apply keeps_bind; [|intros; apply keeps_ret].
    apply R_gate.
  - intros e. apply keeps_bind; [apply keeps_emit | intros; apply keeps_ret].
Qed.

Lemma keeps_download_content url quality : keeps R (download_content url quality).
Proof.
  unfold download_content. apply keeps_try_except.
  - apply keeps_bind; [apply keeps_call | intros; apply keeps_ret].
  - intros e. apply keeps_bind; [apply keeps_emit | intros; apply keeps_ret].
Qed.

Lemma keeps_process_download update url :
  Telegram.effective_user update = user ->
  keeps R (process_download update url).
Proof.
  intros Huser. unfold process_download. rewrite Huser.
  apply keeps_bind; [apply keeps_call|]. intros status_message.
  apply keeps_try_except.
  - apply keeps_bind; [apply keeps_download_content|].
    intros [title platform file_path duration file_size | error];
      [|apply keeps_call].
    apply keeps_bind; [apply keeps_call|]. intros _.
    apply keeps_bind; [apply keeps_call|]. intros _.
    apply keeps_bind; [apply keeps_call|]. intros _.
    apply keeps_bind; [apply keeps_clock|]. intros now.
    apply keeps_bind; [|intros; apply keeps_call].
    apply R_stats.
  - intros e. apply keeps_bind; [apply keeps_emit | intros; apply keeps_call].
Qed.

Lemma keeps_start_command update :
  Telegram.effective_user update = user ->
  keeps R (start_command update).
Proof.
  intros Huser. unfold start_command, show_main_interface. rewrite Huser.
  apply keeps_bind; [apply keeps_clock|]. intros now.
  apply keeps_bind; [apply R_profile|]. intros _.
  apply keeps_bind; [apply keeps_check_subscription|].
  intros [|]; simpl;
    (apply keeps_bind; [apply keeps_call | intros; apply keeps_ret]).
Qed.

Lemma keeps_handle_message update :
  Telegram.effective_user update = user ->
  keeps R (handle_message update).
Proof.
  intros Huser. unfold handle_message. rewrite Huser.
  apply keeps_bind; [apply keeps_check_subscription|].
  intros [|]; simpl.
  - destruct (extract_urls_from_text _) as [|url rest].
    + destruct (is_user_admin _); unfold handle_admin_commands;
        (apply keeps_bind; [apply keeps_call | intros; apply keeps_ret]).
    + now apply keeps_process_download.
  - now apply keeps_start_command.
Qed.

End Keeping.

(** *** The store under the handlers *)

Lemma upserted_ids d uid ts sets :
  rows_kept uid d (upserted_db d uid ts sets).
Proof.
  unfold rows_kept, ids, upserted_db. cbn [Store.users].
  rewrite set_where_ids.
  destruct (Store.select_user d uid) as [r|] eqn:Hsel.
  - left. reflexivity.
  - right. pose proof (select_none_not_in _ _ Hsel) as Hnot.
    split; [exact Hnot|].
    exact (insert_row_ids (Store.new_user uid (mem_int uid (admin_ids cfg)) ts)
             (Store.users d) Hnot).
Qed.

Lemma upserted_columns d uid ts sets cs :
  (forall c, In c cs -> ~ In c (map fst sets)) ->
  columns_kept cs d (upserted_db d uid ts sets).
Proof.
  intros Hcs u r Hr.
  destruct (Z.eq_dec u uid) as [->|Hne].
  - exists (Store.assign sets r). rewrite upserted_row, Hr.
    split; [reflexivity|].
    intros c Hc. apply assign_untouched. now apply Hcs.
  - exists r. rewrite (upserted_others _ _ _ _ _ Hne). auto.
Qed.

Lemma upserted_admin_flags d uid ts sets :
  ~ In Store.c_is_admin (map fst sets) ->
  admin_flags_ok d -> admin_flags_ok (upserted_db d uid ts sets).
Proof.
  intros Hnot Hok r' Hin. unfold upserted_db in Hin. cbn [Store.users] in Hin.
  unfold Store.set_where in Hin.
  apply in_map_iff in Hin. destruct Hin as (r & Hr & Hin).
  assert (Hflag : Store.is_admin r
                  = Store.Integer (Z.b2z (mem_int (Store.user_id r) (admin_ids cfg)))).
  { destruct (Store.select_user d uid); [now apply Hok|].
    apply In_insert_row in Hin. destruct Hin as [-> | Hin]; [reflexivity|].
    now apply Hok. }
  subst r'. destruct (Store.user_id r =? uid); [|exact Hflag].
  rewrite assign_user_id.
  change (Store.is_admin (Store.assign sets r))
    with (Store.get_column Store.c_is_admin (Store.assign sets r)).
  rewrite assign_untouched by assumption. exact Hflag.
Qed.

Lemma rows_kept_same uid d d' : same_rows d d' -> rows_kept uid d d'.
Proof. intros [H _]. left. unfold ids. now rewrite H. Qed.

Lemma rows_kept_trans uid d1 d2 d3 :
  rows_kept uid d1 d2 -> rows_kept uid d2 d3 -> rows_kept uid d1 d3.
Proof.
  unfold rows_kept.
  intros [H12 | (Hn1 & pre & post & H1 & H2 & Hpre & Hpost)]
         [H23 | (Hn2 & pre' & post' & H2' & H3' & Hpre' & Hpost')].
  - left. congruence.
  - right. rewrite <- H12. split; [exact Hn2|].
    exists pre', post'. auto.
  - right. split; [exact Hn1|]. exists pre, post. rewrite H23. auto.
  - exfalso. apply Hn2. rewrite H2. apply in_or_app. right. now left.
Qed.

Lemma columns_kept_trans cs d1 d2 d3 :
  columns_kept cs d1 d2 -> columns_kept cs d2 d3 -> columns_kept cs d1 d3.
Proof.
  intros H12 H23 u r Hr.
  destruct (H12 u r Hr) as (r2 & Hr2 & Hc2).
  destruct (H23 u r2 Hr2) as (r3 & Hr3 & Hc3).
  exists r3. split; [exact Hr3|].
  intros c Hc. now rewrite (Hc3 c Hc), (Hc2 c Hc).
Qed.

Lemma columns_kept_refl cs d : columns_kept cs d d.
Proof. intros u r Hr. exists r. auto. Qed.

Lemma columns_kept_same cs d d' : same_rows d d' -> columns_kept cs d d'.
Proof.
  intros Hsame u r Hr. exists r.
  rewrite (same_rows_select _ _ u Hsame). auto.
Qed.

(** The keywords of the handlers name none of the frozen columns and never
    the key; those of the gate and of the statistics none of the profile
    columns. *)
Lemma handler_call_frozen user kwargs c :
  handler_call user kwargs -> In c frozen_columns -> names_column kwargs c = false.
Proof.
  intros [b now | now | now] Hc; simpl in Hc;
    repeat (destruct Hc as [<- | Hc]; [reflexivity|]); destruct Hc.
Qed.

Lemma handler_call_key user kwargs :
  handler_call user kwargs -> names_column kwargs Store.c_user_id = false.
Proof. intros [b now | now | now]; reflexivity. Qed.

Lemma not_named kwargs (sets : list (Store.column * Store.sqlval)) c :
  (forall c', In c' (map fst sets) -> names_column kwargs c' = true) ->
  names_column kwargs c = false -> ~ In c (map fst sets).
Proof. intros Hsets Hc Hin. rewrite (Hsets c Hin) in Hc. discriminate. Qed.

Lemma update_keeps_columns uid kwargs cs :
  names_column kwargs Store.c_user_id = false ->
  (forall c, In c cs -> names_column kwargs c = false) ->
  keeps (columns_kept cs) (update_user_info uid kwargs).
Proof.
  intros Hkey Hcs st.
  destruct (update_user_info_effect uid kwargs st Hkey)
    as [Hsame | (sets & ts & -> & Hsets)].
  - now apply columns_kept_same.
  - apply upserted_columns. intros c Hc.
    exact (not_named _ _ _ Hsets (Hcs c Hc)).
Qed.

Lemma handlers_keep R update url :
  (forall d, R d d) ->
  (forall d1 d2 d3, R d1 d2 -> R d2 d3 -> R d1 d3) ->
  (forall kwargs,
     handler_call (Telegram.effective_user update) kwargs ->
     keeps R (update_user_info (Telegram.id (Telegram.effective_user update))
                kwargs)) ->
  keeps R (handle_message update) /\
  keeps R (start_command update) /\
  keeps R (process_download update url).
Proof.
  intros Hrefl Htrans Hupd.
  set (user := Telegram.effective_user update) in *.
  assert (Hg : forall b now,
            keeps R (update_user_info (Telegram.id user) (gate_fields b now)))
    by (intros; apply Hupd; constructor).
  assert (Hp : forall now,
            keeps R (update_user_info (Telegram.id user) (profile_fields user now)))
    by (intros; apply Hupd; constructor).
  assert (Hs : forall now,
            keeps R (update_user_info (Telegram.id user) (stats_fields now)))
    by (intros; apply Hupd; constructor).
  repeat apply conj.
  - now apply (keeps_handle_message R Hrefl Htrans user Hg Hp Hs).
  - now apply (keeps_start_command R Hrefl Htrans user Hg Hp).
  - now apply (keeps_process_download R Hrefl Htrans user Hs).
Qed.

(** X1: a handler reads and writes the row of the sender only: whatever
    the collaborators answer, the row of every other user is the same
    before and after [handle_message], [start_command] and
    [process_download]. *)
Theorem handlers_touch_only_sender update url st :
  let uid := Telegram.id (Telegram.effective_user update) in
  others_kept uid (db st) (db (after (handle_message update st))) /\
  others_kept uid (db st) (db (after (start_command update st))) /\
  others_kept uid (db st) (db (after (process_download update url st))).
Proof.
  intros uid.
  assert (Hrefl : forall d, others_kept uid d d) by (intros d u _; reflexivity).
  assert (Htrans : forall d1 d2 d3,
            others_kept uid d1 d2 -> others_kept uid d2 d3 -> others_kept uid d1 d3).
  { intros d1 d2 d3 H12 H23 u Hu. now rewrite (H23 u Hu), (H12 u Hu). }
  assert (Hupd : forall kwargs,
            handler_call (Telegram.effective_user update) kwargs ->
            keeps (others_kept uid) (update_user_info uid kwargs)).
  { intros kwargs Hcall st0.
    destruct (update_user_info_effect uid kwargs st0 (handler_call_key _ _ Hcall))
      as [Hsame | (sets & ts & -> & _)].
    - intros u _. now apply same_rows_select.
    - intros u Hu. now apply upserted_others. }
  destruct (handlers_keep _ update url Hrefl Htrans Hupd) as (H1 & H2 & H3).
  repeat apply conj; [apply H1 | apply H2 | apply H3].
Qed.

(** X2: the handlers keep the PRIMARY KEY of [users]: from a store with one
    row per id they leave a store with one row per id. *)
Theorem handlers_keep_primary_key update url st :
  primary_key_ok (db st) ->
  primary_key_ok (db (after (handle_message update st))) /\
  primary_key_ok (db (after (start_command update st))) /\
  primary_key_ok (db (after (process_download update url st))).
Proof.
  intros Hpk.
  set (R := fun d d' : Store.database => primary_key_ok d -> primary_key_ok d').
  assert (Hrefl : forall d, R d d) by (intros d H; exact H).
  assert (Htrans : forall d1 d2 d3, R d1 d2 -> R d2 d3 -> R d1 d3)
    by (intros d1 d2 d3 H12 H23 H; auto).
  assert (Hupd : forall kwargs,
            handler_call (Telegram.effective_user update) kwargs ->
            keeps R (update_user_info (Telegram.id (Telegram.effective_user update))
                       kwargs)).
  { intros kwargs Hcall st0 H0.
    destruct (update_user_info_effect
                (Telegram.id (Telegram.effective_user update)) kwargs st0
                (handler_call_key _ _ Hcall))
      as [[Hsame _] | (sets & ts & -> & _)].
    - unfold primary_key_ok in *. now rewrite Hsame.
    - now apply upserted_primary_key. }
  destruct (handlers_keep R update url Hrefl Htrans Hupd) as (H1 & H2 & H3).
  repeat apply conj; [now apply H1 | now apply H2 | now apply H3].
Qed.

(** X3: the handlers never remove or move a row of [users], and add at most
    one, the sender's, at the place of its key: the list of stored ids
    after a handler is the list before, or that list with the id of a
    sender who was not stored put in after the ids smaller than it and
    before the first id greater than it. *)
Theorem handlers_keep_rows update url st :
  let uid := Telegram.id (Telegram.effective_user update) in
  rows_kept uid (db st) (db (after (handle_message update st))) /\
  rows_kept uid (db st) (db (after (start_command update st))) /\
  rows_kept uid (db st) (db (after (process_download update url st))).
Proof.
  intros uid.
  assert (Hrefl : forall d, rows_kept uid d d) by (intros d; now left).
  assert (Hupd : forall kwargs,
            handler_call (Telegram.effective_user update) kwargs ->
            keeps (rows_kept uid) (update_user_info uid kwargs)).
  { intros kwargs Hcall st0.
    destruct (update_user_info_effect uid kwargs st0 (handler_call_key _ _ Hcall))
      as [Hsame | (sets & ts & -> & _)].
    - now apply rows_kept_same.
    - apply upserted_ids. }
  destruct (handlers_keep _ update url Hrefl (rows_kept_trans uid) Hupd)
    as (H1 & H2 & H3).
  repeat apply conj; [apply H1 | apply H2 | apply H3].
Qed.

(** X4: no handler rewrites [first_seen], [is_banned], [is_admin] or
    [chat_mode]: every user stored before a handler is stored after it with
    these four columns as they were. *)
Theorem handlers_keep_frozen_columns update url st :
  columns_kept frozen_columns (db st) (db (after (handle_message update st))) /\
  columns_kept frozen_columns (db st) (db (after (start_command update st))) /\
  columns_kept frozen_columns (db st) (db (after (process_download update url st))).
Proof.
  assert (Hupd : forall kwargs,
            handler_call (Telegram.effective_user update) kwargs ->
            keeps (columns_kept frozen_columns)
              (update_user_info (Telegram.id (Telegram.effective_user update))
                 kwargs)).
  { intros kwargs Hcall. apply update_keeps_columns.
    - exact (handler_call_key _ _ Hcall).
    - intros c Hc. exact (handler_call_frozen _ _ _ Hcall Hc). }
  destruct (handlers_keep _ update url (columns_kept_refl _)
              (columns_kept_trans _) Hupd) as (H1 & H2 & H3).
  repeat apply conj; [apply H1 | apply H2 | apply H3].
Qed.

(** X5: the stored [is_admin] flags agree with ADMIN_IDS after a handler
    when they did before: a row gets its flag from the list when it is
    inserted, and no handler writes the flag later. *)
Theorem handlers_keep_admin_flags update url st :
  admin_flags_ok (db st) ->
  admin_flags_ok (db (after (handle_message update st))) /\
  admin_flags_ok (db (after (start_command update st))) /\
  admin_flags_ok (db (after (process_download update url st))).
Proof.
  intros Hok.
  set (R := fun d d' : Store.database => admin_flags_ok d -> admin_flags_ok d').
  assert (Hrefl : forall d, R d d) by (intros d H; exact H).
  assert (Htrans : forall d1 d2 d3, R d1 d2 -> R d2 d3 -> R d1 d3)
    by (intros d1 d2 d3 H12 H23 H; auto).
  assert (Hupd : forall kwargs,
            handler_call (Telegram.effective_user update) kwargs ->
            keeps R (update_user_info (Telegram.id (Telegram.effective_user update))
                       kwargs)).
  { intros kwargs Hcall st0 H0.
    destruct (update_user_info_effect
                (Telegram.id (Telegram.effective_user update)) kwargs st0
                (handler_call_key _ _ Hcall))
      as [[Hsame _] | (sets & ts & -> & Hsets)].
    - unfold admin_flags_ok in *. now rewrite Hsame.
    - apply upserted_admin_flags; [|exact H0].
      apply (not_named kwargs); [exact Hsets|].
      apply (handler_call_frozen _ _ _ Hcall). simpl. tauto. }
  destruct (handlers_keep R update url Hrefl Htrans Hupd) as (H1 & H2 & H3).
  repeat apply conj; [now apply H1 | now apply H2 | now apply H3].
Qed.
(** *** The profile after the start command *)

Lemma profile_fields_ok user now : kwargs_ok (profile_fields user now) = true.
Proof.
  destruct user as [i [u|] f [l|] [lc|]]; reflexivity.
Qed.

Lemma profile_fields_sets user now :
  sets_of (profile_fields user now)
  = [(Store.c_username, text_of (Telegram.username user));
     (Store.c_first_name, Store.Text (Telegram.first_name user));
     (Store.c_last_name, text_of (Telegram.last_name user));
     (Store.c_language_code, text_of (Telegram.language_code user));
     (Store.c_last_activity, Store.Timestamp now)].
Proof.
  destruct user as [i [u|] f [l|] [lc|]]; reflexivity.
Qed.

(** X6: after the start command the sender's row holds the profile of the
    update (NULL for a field Telegram left out) and the time of the command
    in [last_activity], whatever the gate said and wrote in between; the id
    is one SQLite can hold, and no connection left behind holds the write
    lock of the file. *)
Theorem start_command_records_profile update st now w :
  let user := Telegram.effective_user update in
  Store.fits_int64 (Telegram.id user) = true ->
  Store.locked (db st) = false ->
  datetime_now C (world st) = (now, w) ->
  exists r,
    Store.select_user (db (after (start_command update st))) (Telegram.id user)
    = Some r /\
    Store.username r = text_of (Telegram.username user) /\
    Store.first_name r = Store.Text (Telegram.first_name user) /\
    Store.last_name r = text_of (Telegram.last_name user) /\
    Store.language_code r = text_of (Telegram.language_code user) /\
    Store.last_activity r = Store.Timestamp now.
Proof.
  intros user Hfit Hlock Hnow.
  set (uid := Telegram.id user) in *.
  set (cs := (Store.c_last_activity :: profile_columns)).
  pose proof (update_user_info_ok uid (profile_fields user now)
                (mk_state (db st) w) Hfit (profile_fields_ok user now) Hlock) as Hup.
  rewrite profile_fields_sets in Hup.
  set (sets := [(Store.c_username, text_of (Telegram.username user));
                (Store.c_first_name, Store.Text (Telegram.first_name user));
                (Store.c_last_name, text_of (Telegram.last_name user));
                (Store.c_language_code, text_of (Telegram.language_code user));
                (Store.c_last_activity, Store.Timestamp now)]) in *.
  set (st2 := upserted (mk_state (db st) w) uid sets) in *.
  destruct (upserted_state_db (mk_state (db st) w) uid sets) as [ts Hdb2].
  fold st2 in Hdb2.
  pose proof (upserted_row (db st) uid ts sets) as Hr0.
  cbn [db] in Hdb2. rewrite <- Hdb2 in Hr0.
  set (r0 := match Store.select_user (db st) uid with
             | Some r => r
             | None => Store.new_user uid (mem_int uid (admin_ids cfg)) ts
             end) in *.
  (* what follows the upsert keeps the columns it wrote *)
  set (rest := fun _ : unit =>
         bind (check_subscription uid)
           (fun subscribed : bool =>
              if negb subscribed then
                bind (send_reply (config_get cfg "subscription_message")
                        (Telegram.InlineKeyboardMarkup
                           [[Telegram.url_button "🔗 اشترك في القناة"
                               ("https://t.me/" ++ channel_username cfg)];
                            [Telegram.callback_button "✅ تحقق من الاشتراك"
                               "check_subscription"]]))
                     (fun _ => ret tt)
              else show_main_interface)).
  assert (Hrest : keeps (columns_kept cs) (rest tt)).
  { unfold rest, show_main_interface.
    apply (keeps_bind _ (columns_kept_trans cs)).
    - apply (keeps_check_subscription _ (columns_kept_refl cs)
               (columns_kept_trans cs) user).
      intros b t. apply update_keeps_columns; [reflexivity|].
      intros c Hc. simpl in Hc.
      repeat (destruct Hc as [<- | Hc]; [reflexivity|]). destruct Hc.
    - intros [|]; simpl;
        (apply (keeps_bind _ (columns_kept_trans cs));
         [apply (keeps_call _ (columns_kept_refl cs))
         | intros; apply (keeps_ret _ (columns_kept_refl cs))]). }
  destruct (rest tt st2) as [[r3 st3] t3] eqn:Hrun3.
  assert (Hstart : start_command update st
                   = (r3, st3,
                      ([] ++ [ev_update_user_info uid (profile_fields user now)]
                       ++ t3)%list)).
  { unfold start_command. fold user. fold uid.
    eapply run_bind_ret; [apply run_clock; exact Hnow | | reflexivity].
    eapply run_bind_ret; [exact Hup | exact Hrun3 | reflexivity]. }
  specialize (Hrest st2). unfold after in Hrest. rewrite Hrun3 in Hrest.
  simpl in Hrest.
  destruct (Hrest uid _ Hr0) as (r & Hr & Hcols).
  exists r. unfold after. rewrite Hstart. simpl.
  split; [exact Hr|].
  assert (Hget : forall c, In c cs ->
            Store.get_column c r = Store.get_column c (Store.assign sets r0))
    by exact Hcols.
  pose proof (Hget Store.c_username) as H1.
  pose proof (Hget Store.c_first_name) as H2.
  pose proof (Hget Store.c_last_name) as H3.
  pose proof (Hget Store.c_language_code) as H4.
  pose proof (Hget Store.c_last_activity) as H5.
  simpl in H1, H2, H3, H4, H5.
  rewrite H1, H2, H3, H4, H5 by (unfold cs, profile_columns; simpl; tauto).
  destruct r0. repeat split.
Qed.

(** *** The gate and the stored subscription state *)

(** X7: the gate never trusts the stored subscription state: its decision
    and the membership queries it makes are the same from any two stores,
    the outside world being the same. *)
Theorem gate_ignores_store uid d d' w :
  result_of (check_subscription uid (mk_state d w))
  = result_of (check_subscription uid (mk_state d' w)) /\
  filter is_membership_query (trace_of (check_subscription uid (mk_state d w)))
  = filter is_membership_query (trace_of (check_subscription uid (mk_state d' w))).
Proof.
  destruct (mem_int uid (admin_ids cfg)) eqn:Hadmin.
  { unfold check_subscription, try_except, ret. rewrite Hadmin. split; reflexivity. }
  destruct (truthy_str (channel_username cfg)) eqn:Hch.
  2:{ unfold check_subscription, try_except, ret. rewrite Hadmin, Hch.
      split; reflexivity. }
  rewrite !(check_subscription_run uid _ Hadmin Hch). cbn [world db]. cbv zeta.
  destruct (get_chat_member C _ uid w) as [[status|e] w1];
    [|destruct (is_exception e); split; reflexivity].
  destruct (datetime_now C w1) as [now w2].
  destruct (update_user_info_cases uid
              (gate_fields (mem_str status member_statuses) now) (mk_state d w2))
    as [(st1 & _ & Hrun) | (e & st1 & _ & _ & Hrun)];
  destruct (update_user_info_cases uid
              (gate_fields (mem_str status member_statuses) now) (mk_state d' w2))
    as [(st1' & _ & Hrun') | (e' & st1' & _ & _ & Hrun')];
  rewrite Hrun, Hrun'; split; reflexivity.
Qed.

(** *** A second call with the same keywords *)







(** X9: a sender the gate turns away gets no download: when the first check
    of [handle_message] says no, the handler makes no call to yt_dlp, even
    if the check repeated by [start_command] says yes, and the stored
    [total_downloads] of every user stay as they were. *)
Theorem blocked_sender_gets_no_download update st st1 t1 :
  check_subscription (Telegram.id (Telegram.effective_user update)) st
  = (Returned false, st1, t1) ->
  existsb is_fetch (trace_of (handle_message update st)) = false /\
  columns_kept [Store.c_total_downloads] (db st)
    (db (after (handle_message update st))).
Proof.
  intros Hcheck.
  set (user := Telegram.effective_user update) in *.
  set (cs := [Store.c_total_downloads]).
  assert (Hplain : passes_plain no_fetch) by (intros []; simpl; auto).
  assert (Hkeep : forall kwargs,
            names_column kwargs Store.c_user_id = false ->
            names_column kwargs Store.c_total_downloads = false ->
            keeps (columns_kept cs) (update_user_info (Telegram.id user) kwargs)).
  { intros kwargs Hkey Hn. apply update_keeps_columns; [exact Hkey|].
    intros c [<- | []]. exact Hn. }
  assert (Hnp : forall now,
            names_column (profile_fields user now) Store.c_total_downloads = false)
    by reflexivity.
  rewrite (handle_message_blocked _ _ _ _ Hcheck).
  destruct (start_command update st1) as [[r st2] t2] eqn:Hstart.
  unfold trace_of, after. simpl. split.
  - apply existsb_false_forallb. rewrite forallb_app. fold no_fetch.
    pose proof (respects_check_subscription no_fetch (Telegram.id user) Hplain
                  (fun _ _ => eq_refl) st) as [_ H1].
    rewrite Hcheck in H1. simpl in H1. rewrite H1. simpl.
    pose proof (respects_start_command no_fetch update Hplain
                  (fun _ => eq_refl) st1) as [_ H2].
    now rewrite Hstart in H2.
  - apply (columns_kept_trans cs _ (db st1)).
    + pose proof (keeps_check_subscription _ (columns_kept_refl cs)
                    (columns_kept_trans cs) user
                    (fun b now => Hkeep (gate_fields b now) eq_refl eq_refl) st) as H1.
      unfold after in H1. now rewrite Hcheck in H1.
    + pose proof (keeps_start_command _ (columns_kept_refl cs)
                    (columns_kept_trans cs) user
                    (fun b now => Hkeep (gate_fields b now) eq_refl eq_refl)
                    (fun now => Hkeep (profile_fields user now) eq_refl (Hnp now))
                    update eq_refl st1) as H2.
      unfold after in H2. now rewrite Hstart in H2.
Qed.

(** *** The paths of [process_download] *)

(** X10: [process_download] writes the store only through the statistics
    update that directly follows the sending of the document: either the
    store is what it was, or the trace holds a [send_document] call with
    the statistics update of the sender right after it, and the store the
    handler leaves is the store that update left. *)
Theorem process_download_writes_after_delivery update url st :
  let run := process_download update url st in
  let uid := Telegram.id (Telegram.effective_user update) in
  db (after run) = db st \/
  exists pre post path caption now w,
    trace_of run
    = (pre
       ++ ev_send_document (Telegram.effective_chat_id update) path caption
       :: ev_update_user_info uid (stats_fields now)
       :: post)%list /\
    db (after run)
    = db (after (update_user_info uid (stats_fields now) (mk_state (db st) w))).
Proof.
  unfold process_download, download_content, send_reply, send_edit, after, trace_of.
  set (uid := Telegram.id (Telegram.effective_user update)).
  remember (update_user_info uid) as upd eqn:Hupd.
  remember (detect_platform L url) as platform eqn:Hplatform.
  unfold_monad. destruct st as [d w]. cbn.
  repeat first
    [ next_answer
    | match goal with
      | |- context [upd ?kw ?s] =>
          destruct (update_user_info_cases uid kw s)
            as [(?st1 & _ & ?Hrun) | (?e1 & ?st1 & _ & _ & ?Hrun)];
          rewrite Hupd, Hrun; cbn
      end ];
    first
      [ left; reflexivity
      | right; eexists (_ :: _ :: _ :: _ :: nil), _, _, _, _, _;
        split; [reflexivity|];
        match goal with
        | H : update_user_info _ _ _ = _ |- _ =>
            symmetry; exact (f_equal (fun r => db (snd (fst r))) H)
        end ].
Qed.

(** X11: a download yt_dlp refuses changes nothing and is reported, when
    what yt_dlp raises is an [Exception]: the status message being sent and
    [extract_info] raising [e], the store stays as it was and no document
    is sent; the handler's calls begin with the status message, the fetch,
    the log entry and the edit of the status message to the failure text
    that ends in [str(e)].  When [e] is no [Exception], the two calls are
    all the handler does: [e] leaves it, nothing is logged and the status
    message is not edited. *)
Theorem failed_fetch_is_reported update url st m w1 e w2 :
  let opts := {| format := preset "video_hd";
                 outtmpl := download_path ++ "/%(title)s.%(ext)s";
                 noplaylist := true |} in
  reply_text C (PyStr "⏳ جاري التحميل...") Telegram.no_markup (world st)
  = (Returned m, w1) ->
  extract_info C opts url w1 = (Raised e, w2) ->
  let run := process_download update url st in
  db (after run) = db st /\
  existsb is_delivery (trace_of run) = false /\
  (is_exception e = true ->
   exists rest,
     trace_of run
     = ([ev_reply_text (PyStr "⏳ جاري التحميل...") Telegram.no_markup;
         ev_extract_info opts url;
         ev_log_error ("Download error: " ++ str_exn e);
         ev_edit_text m ("❌ فشل التحميل: " ++ str_exn e)] ++ rest)%list) /\
  (is_exception e = false ->
   result_of run = Raised e /\
   trace_of run
   = [ev_reply_text (PyStr "⏳ جاري التحميل...") Telegram.no_markup;
      ev_extract_info opts url]).
Proof.
  intros opts Hreply Hfetch.
  unfold process_download, download_content, send_reply, send_edit, after,
    trace_of, result_of.
  remember (detect_platform L url) as platform eqn:Hplatform.
  unfold_monad. destruct st as [d w]. subst opts. cbn in Hreply, Hfetch.
  cbn [world db]. rewrite Hreply. cbn. rewrite Hfetch. cbn.
  destruct (is_exception e) eqn:He; cbn.
  - repeat next_answer;
      (split; [reflexivity|]; split; [reflexivity|];
       split; [intros _; eexists; reflexivity | discriminate]).
  - rewrite ?He. cbn.
    split; [reflexivity|]. split; [reflexivity|].
    split; [discriminate | intros _; split; reflexivity].
Qed.

(** X12: an exception leaves [process_download] from the two calls outside
    its [try], or is no [Exception]: it is what the sending of the status
    message raised, or what the edit of the status message to the general
    failure text raised in the handler of the [try], or it is an exception
    such as [asyncio.CancelledError] that a call inside the [try] raised
    and that [except Exception] does not catch.  Every [Exception] that
    yt_dlp, the file, the upload, the deletion or the store raise is
    caught. *)
Theorem process_download_raises update url st e :
  let run := process_download update url st in
  result_of run = Raised e ->
  (exists w1,
     reply_text C (PyStr "⏳ جاري التحميل...") Telegram.no_markup (world st)
     = (Raised e, w1)) \/
  (exists m wa wb,
     edit_text C m "❌ حدث خطأ أثناء التحميل" wa = (Raised e, wb) /\
     last (trace_of run) (ev_log_error "")
     = ev_edit_text m "❌ حدث خطأ أثناء التحميل") \/
  (is_exception e = false /\ raised_in_try url e).
Proof.
  unfold process_download, download_content, send_reply, send_edit, result_of,
    trace_of.
  set (uid := Telegram.id (Telegram.effective_user update)).
  remember (update_user_info uid) as upd eqn:Hupd.
  remember (detect_platform L url) as platform eqn:Hplatform.
  remember (is_exception e) as caught eqn:Hcaught.
  unfold_monad. destruct st as [d w]. cbn.
  repeat first
    [ next_answer
    | match goal with
      | |- context [upd ?kw ?s] =>
          destruct (update_user_info_cases uid kw s)
            as [(?st1 & _ & ?Hrun) | (?e1 & ?st1 & _ & _ & ?Hrun)];
          rewrite Hupd, Hrun; cbn
      end ];
    intros Hraised; try discriminate; inversion Hraised; subst;
    first
      [ left; eexists; reflexivity
      | right; left; eexists _, _, _; split; [eassumption | reflexivity]
      | right; right; split; [congruence|];
        unfold raised_in_try; eexists _, _;
        first [ left; eexists; eassumption
              | right; left; eexists; eassumption
              | right; right; left; eexists _, _, _; eassumption
              | right; right; right; left; eexists; eassumption
              | right; right; right; right; eexists _, _; eassumption ] ].
Qed.

(** *** [extract_urls_from_text]: what it finds *)

(** The percent alternative of the group is never reached: the percent sign
    is in the range from the dollar sign to the underscore. *)
Lemma url_atom_char c rest :
  url_atom (String c rest)
  = if url_char c then Some (String c EmptyString, rest) else None.
Proof.
  destruct c as [b0 b1 b2 b3 b4 b5 b6 b7].
  destruct b0, b1, b2, b3, b4, b5, b6, b7; reflexivity.
Qed.

Lemma url_atoms_span : forall fuel s,
  (String.length s <= fuel)%nat ->
  url_atoms fuel s = span_chars url_char s.
Proof.
  induction fuel as [|fuel IH]; intros [|c s] Hlen; simpl in Hlen; try lia;
    try reflexivity.
  cbn [url_atoms]. rewrite url_atom_char. cbn [span_chars].
  destruct (url_char c); [|reflexivity].
  rewrite IH by lia. reflexivity.
Qed.

Lemma span_chars_all p s : all_chars p (span_chars p s) = true.
Proof.
  induction s as [|c s IH]; simpl; [reflexivity|].
  destruct (p c) eqn:Hc; simpl; [now rewrite Hc | reflexivity].
Qed.

Lemma span_chars_prefix p s : exists rest, s = span_chars p s ++ rest.
Proof.
  induction s as [|c s [rest IH]]; simpl; [now exists EmptyString|].
  destruct (p c); simpl.
  - exists rest. now rewrite <- IH.
  - now exists (String c s).
Qed.

Lemma span_chars_id p s : all_chars p s = true -> span_chars p s = s.
Proof.
  induction s as [|c s IH]; simpl; [reflexivity|].
  destruct (p c); simpl; [|discriminate]. intros H. now rewrite IH.
Qed.

Lemma span_chars_stop p s c t :
  p c = false -> span_chars p (s ++ String c t) = span_chars p s.
Proof.
  intros Hc. induction s as [|a s IH]; simpl; [now rewrite Hc|].
  destruct (p a); [now rewrite IH | reflexivity].
Qed.

Lemma append_assoc (a b c : string) : (a ++ b) ++ c = a ++ (b ++ c).
Proof. induction a as [|x a IH]; simpl; [reflexivity | now rewrite IH]. Qed.

Lemma append_length (a b : string) :
  String.length (a ++ b) = (String.length a + String.length b)%nat.
Proof. induction a as [|x a IH]; simpl; [reflexivity | now rewrite IH]. Qed.

Lemma append_nil_r (a : string) : a ++ "" = a.
Proof. induction a as [|x a IH]; simpl; [reflexivity | now rewrite IH]. Qed.

Lemma is_char_eq k c : is_char k c = true -> c = ascii_of_nat k.
Proof.
  unfold is_char, code. intros H. apply Nat.eqb_eq in H.
  rewrite <- H. now rewrite ascii_nat_embedding.
Qed.

Lemma url_tail_spec head rest :
  url_tail head rest
  = match strip_prefix "://" rest with
    | None => None
    | Some r =>
        match span_chars url_char r with
        | EmptyString => None
        | body => Some (head ++ "://" ++ body)
        end
    end.
Proof.
  unfold url_tail. destruct (strip_prefix "://" rest) as [r|]; [|reflexivity].
  now rewrite url_atoms_span by lia.
Qed.

Lemma match_url_unfold s :
  match_url s
  = match strip_prefix "http" s with
    | None => None
    | Some r =>
        match r with
        | String c r' =>
            if is_char 115 c then
              match url_tail "https" r' with
              | Some m => Some m
              | None => url_tail "http" r
              end
            else url_tail "http" r
        | EmptyString => None
        end
    end.
Proof. reflexivity. Qed.

Lemma url_tail_some head rest m :
  url_tail head rest = Some m ->
  exists r, rest = "://" ++ r /\ span_chars url_char r <> "" /\
            m = head ++ "://" ++ span_chars url_char r.
Proof.
  rewrite url_tail_spec.
  destruct (strip_prefix "://" rest) as [r|] eqn:Hr; [|discriminate].
  apply strip_prefix_spec in Hr.
  destruct (span_chars url_char r) as [|c body] eqn:Hb; [discriminate|].
  intros H. inversion H. exists r. rewrite Hb. repeat split; [exact Hr | discriminate].
Qed.

(** What the pattern matches at the start of a text. *)
Lemma match_url_some s m :
  match_url s = Some m ->
  exists scheme rest,
    (scheme = "http" \/ scheme = "https") /\
    s = scheme ++ "://" ++ rest /\
    span_chars url_char rest <> "" /\
    m = scheme ++ "://" ++ span_chars url_char rest.
Proof.
  rewrite match_url_unfold.
  destruct (strip_prefix "http" s) as [r|] eqn:Hs; [|discriminate].
  apply strip_prefix_spec in Hs.
  destruct r as [|c r']; [discriminate|].
  assert (Hhttp : url_tail "http" (String c r') = Some m ->
                  exists scheme rest,
                    (scheme = "http" \/ scheme = "https") /\
                    s = scheme ++ "://" ++ rest /\
                    span_chars url_char rest <> "" /\
                    m = scheme ++ "://" ++ span_chars url_char rest).
  { intros H. apply url_tail_some in H. destruct H as (r & Hr & Hne & ->).
    exists "http", r. repeat split; auto. now rewrite Hs, Hr. }
  destruct (is_char 115 c) eqn:Hc; [|exact Hhttp].
  destruct (url_tail "https" r') as [m'|] eqn:Ht; [|exact Hhttp].
  intros H. inversion H. subst m'.
  apply url_tail_some in Ht. destruct Ht as (r & Hr & Hne & ->).
  apply is_char_eq in Hc. subst c.
  exists "https", r. repeat split; auto. now rewrite Hs, Hr.
Qed.

Lemma match_url_well_formed s m :
  match_url s = Some m -> well_formed_url m /\ exists rest, s = m ++ rest.
Proof.
  intros H. apply match_url_some in H.
  destruct H as (scheme & rest & Hscheme & -> & Hne & ->).
  split.
  - exists scheme, (span_chars url_char rest).
    repeat split; auto using span_chars_all.
  - destruct (span_chars_prefix url_char rest) as [rest' Hrest].
    exists rest'. rewrite !append_assoc. now rewrite <- Hrest.
Qed.

Lemma url_tail_whole head body :
  body <> "" ->
  all_chars url_char body = true ->
  url_tail head ("://" ++ body) = Some (head ++ "://" ++ body).
Proof.
  intros Hne Hall. rewrite url_tail_spec.
  replace (strip_prefix "://" ("://" ++ body)) with (Some body)
    by (symmetry; now apply strip_prefix_spec).
  rewrite span_chars_id by exact Hall.
  destruct body; [congruence | reflexivity].
Qed.

Lemma match_url_whole u : well_formed_url u -> match_url u = Some u.
Proof.
  intros (scheme & body & Hscheme & -> & Hne & Hall).
  rewrite match_url_unfold.
  destruct Hscheme as [-> | ->]; cbn -[url_tail].
  - now apply (url_tail_whole "http" body).
  - change (String ":" (String "/" (String "/" body))) with ("://" ++ body).
    now rewrite (url_tail_whole "https" body).
Qed.

Lemma findall_url_skip : forall s k,
  (String.length s <= k)%nat -> findall_url k s = [].
Proof.
  induction s as [|c s IH]; intros k Hk; [reflexivity|].
  simpl in Hk. destruct k as [|k]; [lia|].
  cbn [findall_url]. apply IH. lia.
Qed.

Lemma findall_url_matches : forall s k u,
  In u (findall_url k s) ->
  exists a b, s = a ++ b /\ match_url b = Some u.
Proof.
  induction s as [|c s IH]; intros k u Hin; [contradiction|].
  cbn [findall_url] in Hin.
  assert (Hrec : forall k', In u (findall_url k' s) ->
                 exists a b, String c s = a ++ b /\ match_url b = Some u).
  { intros k' H. apply IH in H. destruct H as (a & b & -> & Hm).
    now exists (String c a), b. }
  destruct k as [|k]; [|now apply Hrec in Hin].
  destruct (match_url (String c s)) as [m|] eqn:Hm; [|now apply Hrec in Hin].
  destruct Hin as [<- | Hin]; [|now apply Hrec in Hin].
  now exists EmptyString, (String c s).
Qed.

(** X13: every text [extract_urls_from_text] returns occurs in the message
    and has the shape of the pattern: http or https, the colon and two
    slashes, then one or more characters that are the exclamation mark, in
    the range from the dollar sign to the underscore, or small letters. *)
Theorem extracted_urls_shape text u :
  In u (extract_urls_from_text text) ->
  well_formed_url u /\ substring u text.
Proof.
  unfold extract_urls_from_text. intros Hin.
  apply findall_url_matches in Hin. destruct Hin as (a & b & -> & Hm).
  apply match_url_well_formed in Hm. destruct Hm as [Hwf [rest ->]].
  split; [exact Hwf | now exists a, rest].
Qed.

(** X14: a text that has the shape of the pattern from its first to its last
    character is extracted as it is, alone. *)
Theorem extract_urls_round_trip u :
  well_formed_url u -> extract_urls_from_text u = [u].
Proof.
  intros Hwf. unfold extract_urls_from_text.
  pose proof (match_url_whole u Hwf) as Hm.
  destruct u as [|c u].
  - destruct Hwf as (scheme & body & [-> | ->] & H & _); discriminate.
  - cbn [findall_url]. rewrite Hm. f_equal.
    apply findall_url_skip. simpl. lia.
Qed.

Lemma url_char_neq a c : url_char a = true -> url_char c = false -> Ascii.eqb a c = false.
Proof.
  intros Ha Hc. destruct (Ascii.eqb_spec a c) as [->|]; [congruence | reflexivity].
Qed.

Lemma strip_prefix_stop p : forall s c t,
  all_chars url_char p = true ->
  url_char c = false ->
  strip_prefix p (s ++ String c t)
  = option_map (fun r => r ++ String c t) (strip_prefix p s).
Proof.
  induction p as [|a p IH]; intros s c t Hp Hc; [reflexivity|].
  simpl in Hp. apply andb_true_iff in Hp. destruct Hp as [Ha Hp].
  destruct s as [|b s]; simpl.
  - now rewrite (url_char_neq a c).
  - destruct (Ascii.eqb a b); [now apply IH | reflexivity].
Qed.

Lemma url_tail_stop head r c t :
  url_char c = false ->
  url_tail head (r ++ String c t) = url_tail head r.
Proof.
  intros Hc. rewrite !url_tail_spec.
  rewrite strip_prefix_stop by (exact Hc || reflexivity).
  destruct (strip_prefix "://" r) as [r2|]; [|reflexivity].
  cbn [option_map]. now rewrite span_chars_stop.
Qed.

(** A character outside the pattern ends every match before it. *)
Lemma match_url_stop s c t :
  url_char c = false ->
  match_url (s ++ String c t) = match_url s.
Proof.
  intros Hc. rewrite !match_url_unfold.
  rewrite strip_prefix_stop by (exact Hc || reflexivity).
  destruct (strip_prefix "http" s) as [r|]; [|reflexivity].
  cbn [option_map].
  destruct r as [|a r']; cbn [append].
  - assert (Hs : is_char 115 c = false).
    { destruct (is_char 115 c) eqn:H; [|reflexivity].
      apply is_char_eq in H. subst c. discriminate. }
    rewrite Hs. rewrite url_tail_spec.
    assert (Hcolon : Ascii.eqb ":" c = false)
      by (now apply url_char_neq).
    cbn [strip_prefix]. now rewrite Hcolon.
  - change (String a (r' ++ String c t)) with (String a r' ++ String c t).
    now rewrite !url_tail_stop.
Qed.

Lemma match_url_length s m :
  match_url s = Some m -> (String.length m <= String.length s)%nat.
Proof.
  intros H. apply match_url_well_formed in H. destruct H as [_ [rest ->]].
  rewrite append_length. lia.
Qed.

Lemma match_url_needs_url_char c t :
  url_char c = false -> match_url (String c t) = None.
Proof.
  intros Hc. rewrite match_url_unfold. cbn [strip_prefix].
  now rewrite (url_char_neq "h" c).
Qed.

Lemma findall_url_separator c t : forall p k,
  url_char c = false ->
  (k <= String.length p)%nat ->
  findall_url k (p ++ String c t)
  = (findall_url k p ++ findall_url 0 t)%list.
Proof.
  intros p k Hc. revert k.
  induction p as [|a p IH]; intros k Hk.
  - simpl in Hk. assert (k = 0%nat) as -> by lia.
    cbn [append findall_url app].
    now rewrite match_url_needs_url_char.
  - cbn [append]. cbn [findall_url].
    destruct k as [|k].
    + change (String a (p ++ String c t)) with (String a p ++ String c t).
      rewrite match_url_stop by exact Hc.
      destruct (match_url (String a p)) as [m|] eqn:Hm.
      * apply match_url_length in Hm. simpl in Hm.
        rewrite IH by lia. reflexivity.
      * apply IH. lia.
    + apply IH. simpl in Hk. lia.
Qed.

(** X15: a character outside the pattern separates the extraction: the
    URLs of a message are those of the text before such a character,
    followed by those of the text after it. *)
Theorem extract_urls_separator p c t :
  url_char c = false ->
  extract_urls_from_text (p ++ String c t)
  = (extract_urls_from_text p ++ extract_urls_from_text t)%list.
Proof.
  intros Hc. unfold extract_urls_from_text.
  apply findall_url_separator; [exact Hc | lia].
Qed.

(** *** [detect_platform]: the host decides *)

(** X16: for an http or https URL with a plain host, [detect_platform]
    reads the host and nothing else: the path, the query and the fragment
    that follow do not change the label. *)
Theorem detect_platform_reads_host scheme host tail :
  scheme = "http" \/ scheme = "https" ->
  all_chars host_char host = true ->
  after_host tail = true ->
  detect_platform L (scheme ++ "://" ++ host ++ tail)
  = match first_platform supported_domains (lower host) with
    | Some platform => platform
    | None => "Unknown"
    end.
Proof.
  intros Hscheme Hhost Htail. unfold detect_platform.
  rewrite urlparse_netloc_host by assumption.
  unfold str_lower.
  pose proof (all_chars_impl host_char _ host
                (fun c H => proj2 (proj2 (proj2 (proj2 (host_char_facts c H))))) Hhost) as Hascii.
  unfold is_ascii. now rewrite Hascii.
Qed.

(** *** Exceptions that leave a handler, and the answer to the user *)

Lemma returns_ret {A} (a : A) : returns (ret a).
Proof. intros st. now exists a. Qed.

Lemma returns_bind {A B} (m : M W A) (k : A -> M W B) :
  returns m -> (forall a, returns (k a)) -> returns (bind m k).
Proof.
  intros Hm Hk st. unfold bind, result_of.
  destruct (Hm st) as [a Ha]. unfold result_of in Ha.
  destruct (m st) as [[r st1] t1]. simpl in Ha. subst r.
  destruct (Hk a st1) as [b Hb]. unfold result_of in Hb.
  destruct (k a st1) as [[r st2] t2]. simpl in *. eauto.
Qed.

Lemma returns_try_except {A} (m : M W A) h :
  raises_exceptions m -> (forall e, returns (h e)) -> returns (try_except m h).
Proof.
  intros Hm Hh st. unfold try_except, result_of.
  specialize (Hm st). unfold result_of in Hm.
  destruct (m st) as [[[a|e] st1] t1]; simpl in *; [eauto|].
  rewrite (Hm e eq_refl).
  destruct (Hh e st1) as [b Hb]. unfold result_of in Hb.
  destruct (h e st1) as [[r st2] t2]. simpl in *. eauto.
Qed.

Lemma returns_raises {A} (m : M W A) : returns m -> raises_exceptions m.
Proof. intros Hm st e He. destruct (Hm st) as [a Ha]. congruence. Qed.

Lemma raises_bind {A B} (m : M W A) (k : A -> M W B) :
  raises_exceptions m -> (forall a, raises_exceptions (k a)) ->
  raises_exceptions (bind m k).
Proof.
  intros Hm Hk st e. unfold bind, result_of.
  specialize (Hm st). unfold result_of in Hm.
  destruct (m st) as [[[a|e0] st1] t1]; simpl in *.
  - specialize (Hk a st1). unfold result_of in Hk.
    destruct (k a st1) as [[r st2] t2]. simpl in *. apply Hk.
  - intros H. inversion H; subst. now apply Hm.
Qed.

Lemma raises_call {A} ev (f : W -> outcome A * W) :
  (forall w e w', f w = (Raised e, w') -> is_exception e = true) ->
  raises_exceptions (call ev f).
Proof.
  intros Hf st e. unfold call, result_of.
  destruct (f (world st)) as [[a|e0] w'] eqn:Hrun; simpl; [discriminate|].
  intros H. inversion H; subst. exact (Hf _ _ _ Hrun).
Qed.

Lemma returns_clock f : returns (clock f).
Proof.
  intros st. unfold clock, result_of. destruct (f (world st)) as [t w]. simpl. eauto.
Qed.

Lemma returns_log_error msg : returns (log_error msg).
Proof. intros st. now exists tt. Qed.

Lemma returns_update_user_info uid kwargs : returns (update_user_info uid kwargs).
Proof.
  intros st. exists tt.
  destruct (update_user_info_cases uid kwargs st)
    as [(st1 & _ & Hrun) | (e & st1 & _ & _ & Hrun)]; now rewrite Hrun.
Qed.

Lemma returns_check_subscription uid :
  (forall chat u w e w',
     get_chat_member C chat u w = (Raised e, w') -> is_exception e = true) ->
  returns (check_subscription uid).
Proof.
  intros Hq st.
  destruct (check_subscription_outcome uid st)
    as [(b & st1 & t1 & H) | (e & w1 & He & Hraise & _)].
  - exists b. now rewrite H.
  - rewrite (Hq _ _ _ _ _ Hraise) in He. discriminate.
Qed.

Lemma returns_send_reply text markup :
  sends_succeed -> returns (send_reply text markup).
Proof.
  intros [Hreply _] st. unfold send_reply, call, result_of.
  destruct (Hreply text markup (world st)) as (m & w & H). rewrite H. simpl. eauto.
Qed.

Lemma returns_send_edit m text :
  sends_succeed -> returns (send_edit m text).
Proof.
  intros [_ Hedit] st. unfold send_edit, call, result_of.
  destruct (Hedit m text (world st)) as (w & H). rewrite H. simpl. eauto.
Qed.

Lemma returns_start_command update :
  sends_succeed -> raise_exceptions_only -> returns (start_command update).
Proof.
  intros Hs (Hq & _). unfold start_command, show_main_interface.
  apply returns_bind; [apply returns_clock | intros now].
  apply returns_bind; [apply returns_update_user_info | intros _].
  apply returns_bind; [now apply returns_check_subscription | intros b].
  destruct (negb b);
    (apply returns_bind; [now apply returns_send_reply | intros _; apply returns_ret]).
Qed.

Lemma returns_download_content url quality :
  raise_exceptions_only -> returns (download_content url quality).
Proof.
  intros (_ & Hf & _). unfold download_content.
  apply returns_try_except.
  - apply raises_bind; [apply raises_call; eauto|].
    intros info. apply returns_raises, returns_ret.
  - intros e. apply returns_bind; [apply returns_log_error | intros _].
    apply returns_ret.
Qed.

Lemma returns_process_download update url :
  sends_succeed -> raise_exceptions_only -> returns (process_download update url).
Proof.
  intros Hs Hx. pose proof Hx as (_ & _ & Ho & Hd & Hdel).
  unfold process_download.
  apply returns_bind; [now apply returns_send_reply | intros m].
  apply returns_try_except.
  - apply raises_bind; [now apply returns_raises, returns_download_content|].
    intros [title platform file_path duration file_size | error].
    + apply raises_bind; [now apply returns_raises, returns_send_edit | intros _].
      apply raises_bind; [apply raises_call; eauto | intros _].
      apply raises_bind; [apply raises_call; eauto | intros _].
      apply raises_bind; [apply returns_raises, returns_clock | intros now].
      apply raises_bind; [apply returns_raises, returns_update_user_info | intros _].
      apply raises_call; eauto.
    + now apply returns_raises, returns_send_edit.
  - intros e.
    apply returns_bind; [apply returns_log_error | intros _].
    now apply returns_send_edit.
Qed.

Lemma returns_handle_message update :
  sends_succeed -> raise_exceptions_only -> returns (handle_message update).
Proof.
  intros Hs Hx. pose proof Hx as (Hq & _). unfold handle_message.
  apply returns_bind; [now apply returns_check_subscription | intros b].
  destruct (negb b); [now apply returns_start_command|].
  destruct (extract_urls_from_text _) as [|u us].
  - destruct (is_user_admin _).
    + unfold handle_admin_commands.
      apply returns_bind; [now apply returns_send_reply | intros _; apply returns_ret].
    + apply returns_bind; [now apply returns_send_reply | intros _; apply returns_ret].
  - now apply returns_process_download.
Qed.

(** The gate and the upsert never call [reply_text]. *)
Lemma update_user_info_no_reply uid kwargs st :
  existsb is_reply (trace_of (update_user_info uid kwargs st)) = false.
Proof.
  destruct (update_user_info_cases uid kwargs st)
    as [(st1 & _ & Hrun) | (e & st1 & _ & _ & Hrun)]; now rewrite Hrun.
Qed.

Lemma check_subscription_no_reply uid st :
  existsb is_reply (trace_of (check_subscription uid st)) = false.
Proof.
  destruct (mem_int uid (admin_ids cfg)) eqn:Hadmin.
  { unfold check_subscription, try_except, ret. now rewrite Hadmin. }
  destruct (truthy_str (channel_username cfg)) eqn:Hch.
  2:{ unfold check_subscription, try_except, ret. now rewrite Hadmin, Hch. }
  rewrite (check_subscription_run uid st Hadmin Hch). cbv zeta.
  destruct (get_chat_member C _ uid (world st)) as [[status|e] w1].
  - destruct (datetime_now C w1) as [now w2].
    pose proof (update_user_info_no_reply uid
                  (gate_fields (mem_str status member_statuses) now)
                  (mk_state (db st) w2)) as Hup.
    destruct (update_user_info _ _ _) as [[r st'] t]. exact Hup.
  - destruct (is_exception e); reflexivity.
Qed.

(** X17: on the update of a new message with its sender, no handler raises
    when Telegram accepts every message sent and every edit and the other
    collaborators raise nothing but instances of [Exception]: whatever the
    store, the membership query, yt_dlp, the opening and the sending of the
    file and the deletion of the status message do then.  On an update the
    dispatcher also hands over, an edited message or a channel post, the
    handlers raise AttributeError: [handle_message] and [start_command] at
    [update.effective_user.id] when there is no sender, [handle_message]
    at [update.message.text] and [start_command] at
    [update.message.reply_text] when [update.message] is [None]. *)
Theorem handlers_return_when_sends_succeed d url st :
  sends_succeed ->
  raise_exceptions_only ->
  match Telegram.sender d, Telegram.message d with
  | Some user, Some text =>
      result_of (handle_message_of d st) = Returned tt /\
      result_of (start_command_of d st) = Returned tt /\
      result_of (process_download (update_of user (Telegram.chat_id d) text) url st)
      = Returned tt
  | Some user, None =>
      result_of (handle_message_of d st) = Raised (attribute_error "text") /\
      result_of (start_command_of d st) = Raised (attribute_error "reply_text")
  | None, _ =>
      result_of (handle_message_of d st) = Raised (attribute_error "id") /\
      result_of (start_command_of d st) = Raised (attribute_error "id")
  end.
Proof.
  intros Hs Hx. unfold handle_message_of, start_command_of.
  destruct (Telegram.sender d) as [user|]; [|split; reflexivity].
  destruct (Telegram.message d) as [text|].
  - fold (update_of user (Telegram.chat_id d) text).
    destruct (returns_handle_message (update_of user (Telegram.chat_id d) text)
                Hs Hx st) as [[] H1].
    destruct (returns_start_command (update_of user (Telegram.chat_id d) text)
                Hs Hx st) as [[] H2].
    destruct (returns_process_download (update_of user (Telegram.chat_id d) text)
                url Hs Hx st) as [[] H3].
    auto.
  - split; [reflexivity|].
    unfold start_command_unanswered, bind at 1, result_of.
    destruct (returns_clock (datetime_now C) st) as [now Hnow].
    unfold result_of in Hnow.
    destruct (clock (datetime_now C) st) as [[r0 st0] t0]. simpl in Hnow. subst r0.
    unfold bind at 1.
    match goal with
    | |- context [update_user_info ?u ?k st0] =>
        destruct (returns_update_user_info u k st0) as [[] Hup];
        unfold result_of in Hup;
        destruct (update_user_info u k st0) as [[r1 st1] t1]
    end.
    simpl in Hup. subst r1. unfold bind at 1.
    destruct Hx as (Hq & _).
    destruct (returns_check_subscription (Telegram.id user) Hq st1) as [b Hb].
    unfold result_of in Hb.
    destruct (check_subscription (Telegram.id user) st1) as [[r2 st2] t2].
    simpl in Hb. subst r2. reflexivity.
Qed.

Lemma replies_bind_l {A B} (m : M W A) (k : A -> M W B) :
  replies m -> replies (bind m k).
Proof.
  intros Hm st. specialize (Hm st). unfold bind, trace_of in *.
  destruct (m st) as [[[a|e] st1] t1]; simpl in *; [|exact Hm].
  destruct (k a st1) as [[r st2] t2]. simpl.
  now rewrite existsb_app, Hm.
Qed.

Lemma replies_bind_r {A B} (m : M W A) (k : A -> M W B) :
  returns m -> (forall a, replies (k a)) -> replies (bind m k).
Proof.
  intros Hm Hk st. unfold bind, trace_of.
  destruct (Hm st) as [a Ha]. unfold result_of in Ha.
  destruct (m st) as [[r st1] t1]. simpl in Ha. subst r.
  specialize (Hk a st1). unfold trace_of in Hk.
  destruct (k a st1) as [[r st2] t2]. simpl in *.
  rewrite existsb_app, Hk. apply orb_true_r.
Qed.

Lemma replies_send_reply text markup : replies (send_reply text markup).
Proof.
  intros st. unfold send_reply, call, trace_of.
  destruct (reply_text C text markup (world st)) as [r w]. reflexivity.
Qed.

Lemma replies_start_command update :
  (forall chat u w e w',
     get_chat_member C chat u w = (Raised e, w') -> is_exception e = true) ->
  replies (start_command update).
Proof.
  intros Hq. unfold start_command, show_main_interface.
  apply replies_bind_r; [apply returns_clock | intros now].
  apply replies_bind_r; [apply returns_update_user_info | intros _].
  apply replies_bind_r; [now apply returns_check_subscription | intros b].
  destruct (negb b); apply replies_bind_l, replies_send_reply.
Qed.

(** X18: on the update of a new message with its sender, every run of
    [process_download] calls [reply_text], and so does every run of
    [handle_message] and of [start_command] in which the membership query
    raises nothing but an [Exception]: the handler makes a call to answer
    the sender, whatever the store and the collaborators do; whether
    Telegram accepts the call is another matter.  On an update without
    [update.message] or without sender no handler calls [reply_text], and
    [handle_message] makes no call at all. *)
Theorem handlers_always_reply d url st :
  (forall chat u w e w',
     get_chat_member C chat u w = (Raised e, w') -> is_exception e = true) ->
  match Telegram.sender d, Telegram.message d with
  | Some user, Some text =>
      existsb is_reply (trace_of (handle_message_of d st)) = true /\
      existsb is_reply (trace_of (start_command_of d st)) = true /\
      existsb is_reply
        (trace_of (process_download (update_of user (Telegram.chat_id d) text) url st))
      = true
  | Some user, None =>
      trace_of (handle_message_of d st) = [] /\
      existsb is_reply (trace_of (start_command_of d st)) = false
  | None, _ =>
      trace_of (handle_message_of d st) = [] /\
      trace_of (start_command_of d st) = []
  end.
Proof.
  intros Hq. unfold handle_message_of, start_command_of.
  destruct (Telegram.sender d) as [user|]; [|split; reflexivity].
  destruct (Telegram.message d) as [text|].
  - fold (update_of user (Telegram.chat_id d) text).
    set (update := update_of user (Telegram.chat_id d) text).
    assert (Hp : forall u, replies (process_download update u)).
    { intros u. unfold process_download. apply replies_bind_l, replies_send_reply. }
    assert (Hm : replies (handle_message update)).
    { unfold handle_message.
      apply replies_bind_r; [now apply returns_check_subscription | intros b].
      destruct (negb b); [now apply replies_start_command|].
      destruct (extract_urls_from_text _) as [|u us]; [|apply Hp].
      destruct (is_user_admin _).
      - unfold handle_admin_commands. apply replies_bind_l, replies_send_reply.
      - apply replies_bind_l, replies_send_reply. }
    split; [apply Hm | split; [now apply replies_start_command | apply Hp]].
  - split; [reflexivity|].
    unfold start_command_unanswered, bind at 1, trace_of.
    destruct (clock (datetime_now C) st) as [[[now|e0] st0] t0] eqn:Hclock;
      unfold clock in Hclock; destruct (datetime_now C (world st)) as [n0 w0];
      inversion Hclock; subst.
    unfold bind at 1.
    match goal with
    | |- context [update_user_info ?u ?k ?s] =>
        pose proof (update_user_info_no_reply u k s) as Hup;
        destruct (returns_update_user_info u k s) as [[] Hr];
        unfold trace_of, result_of in Hup, Hr;
        destruct (update_user_info u k s) as [[r1 st1] t1]
    end.
    simpl in Hup, Hr. subst r1. unfold bind at 1.
    pose proof (check_subscription_no_reply (Telegram.id user) st1) as Hg.
    unfold trace_of in Hg.
    destruct (check_subscription (Telegram.id user) st1) as [[[b|e2] st2] t2];
      simpl in *; rewrite ?existsb_app, ?Hup, ?Hg; reflexivity.
Qed.

End Bot.

(** ** Concrete runs *)

(** C1: two successful downloads in a row by the same sender.  The file is
    delivered both times, and the sender's [total_downloads] is 1 after the
    first download and still 1 after the second: the statistics update
    passes the literal 1 to an UPDATE that assigns it. *)
Theorem total_downloads_after_two_downloads :
  let link := message alice "https://youtu.be/abc123" in
  let once := handle_message plain_pylib demo member_world link fresh in
  let twice := handle_message plain_pylib demo member_world link (after once) in
  existsb is_delivery (trace_of once) = true /\
  counter_of (after once) 5 = Some (Store.Integer 1) /\
  existsb is_delivery (trace_of twice) = true /\
  counter_of (after twice) 5 = Some (Store.Integer 1).
Proof. vm_compute. repeat split. Qed.

(** C2 fails on the error path: a sender stored as subscribed is checked
    again while the membership query raises.  The gate answers [False], and
    the row still says subscribed, with the time of the earlier check. *)
Lemma gate_error_leaves_row_stale :
  let checked := after (check_subscription demo member_world 5 fresh) in
  let run := check_subscription demo offline_world 5 checked in
  let row := Store.select_user (db (after run)) 5 in
  result_of run = Returned false /\
  existsb is_membership_query (trace_of run) = true /\
  option_map Store.is_subscribed row = Some (Store.Integer 1) /\
  option_map Store.is_subscribed row <> Some (Store.Integer (Z.b2z false)) /\
  option_map Store.subscription_checked_at row = Some (Store.Timestamp 1700000000) /\
  option_map Store.subscription_checked_at row <> Some (Store.Timestamp 1700000600) /\
  db (after run) = db checked.
Proof. vm_compute. repeat split; discriminate. Qed.

(** The gate on the sender 5: a member is authorized and recorded as
    subscribed; while the query times out the answer is [False]; a
    cancellation of the query leaves the gate. *)
Lemma check_subscription_query_witness :
  let cancelled :=
    constant_collaborators (Raised (BaseExn "CancelledError" "cancelled"))
      (Returned video) 1700000600 in
  (~ In 5 (admin_ids demo) /\ channel_username demo <> "" /\
   Store.fits_int64 5 = true /\ Store.locked (db fresh) = false) /\
  (exists st' r,
     check_subscription demo member_world 5 fresh
     = (Returned true, st',
        [ev_get_chat_member "@mychannel" 5;
         ev_update_user_info 5
           [("is_subscribed", PyBool true);
            ("subscription_checked_at", PyDatetime 1700000000)]]) /\
     Store.select_user (db st') 5 = Some r /\
     Store.is_subscribed r = Store.Integer 1 /\
     Store.subscription_checked_at r = Store.Timestamp 1700000000) /\
  check_subscription demo offline_world 5 fresh
  = (Returned false, fresh,
     [ev_get_chat_member "@mychannel" 5;
      ev_log_error "Error checking subscription: Timed out"]) /\
  check_subscription demo cancelled 5 fresh
  = (Raised (BaseExn "CancelledError" "cancelled"), fresh,
     [ev_get_chat_member "@mychannel" 5]).
Proof.
  intros cancelled.
  assert (H1 : ~ In 5 (admin_ids demo)) by (simpl; intros [H|[]]; discriminate).
  assert (H2 : channel_username demo <> "") by discriminate.
  split; [repeat split; assumption|]. split; [|split].
  - destruct (check_subscription_query demo member_world 5 fresh H1 H2 eq_refl)
      as (Hok & _ & _).
    destruct (Hok "member" tt 1700000000 tt eq_refl eq_refl) as (_ & _ & H).
    exact (H eq_refl).
  - destruct (check_subscription_query demo offline_world 5 fresh H1 H2 eq_refl)
      as (_ & Herr & _).
    exact (Herr (Exn "NetworkError" "Timed out") tt eq_refl eq_refl).
  - destruct (check_subscription_query demo cancelled 5 fresh H1 H2 eq_refl)
      as (_ & _ & Hpass).
    exact (Hpass (BaseExn "CancelledError" "cancelled") tt eq_refl eq_refl).
Defined.

(** C3 fails for a text message: the first call of the handler is the
    membership query, no call writes a profile column, and the sender's row
    has no username afterwards; for an admin the only call is the reply and
    no row is created. *)
Lemma text_message_starts_with_gate :
  let run := handle_message plain_pylib demo member_world (message alice "hello") fresh in
  let run7 := handle_message plain_pylib demo member_world (message root "hello") fresh in
  hd_error (trace_of run) = Some (ev_get_chat_member "@mychannel" 5) /\
  existsb is_profile_upsert (trace_of run) = false /\
  option_map Store.username (Store.select_user (db (after run)) 5) = Some Store.Null /\
  List.length (trace_of run7) = 1%nat /\
  existsb is_profile_upsert (trace_of run7) = false /\
  Store.select_user (db (after run7)) 7 = None.
Proof. vm_compute. repeat split. Qed.

(** The order of the calls for the sender 5: on the start command, on a
    text message after the sender left the channel, and on a text message
    of a member. *)
Lemma router_upsert_order_witness :
  (exists r st' rest,
     start_command demo member_world (message alice "hi") fresh
     = (r, st', ev_update_user_info 5 (profile_fields alice 1700000000) :: rest)) /\
  (exists r st' rest,
     handle_message plain_pylib demo left_world (message alice "hi") fresh
     = (r, st',
        (trace_of (check_subscription demo left_world 5 fresh)
         ++ ev_update_user_info 5 (profile_fields alice 1700000300) :: rest)%list)) /\
  (exists r st' t2,
     handle_message plain_pylib demo member_world (message alice "hi") fresh
     = (r, st', (trace_of (check_subscription demo member_world 5 fresh) ++ t2)%list) /\
     existsb is_profile_upsert
       (trace_of (check_subscription demo member_world 5 fresh) ++ t2) = false).
Proof.
  split; [|split].
  - destruct (router_upsert_order plain_pylib demo member_world (message alice "hi"))
      as (H & _ & _).
    exact (H fresh 1700000000 tt eq_refl).
  - destruct (router_upsert_order plain_pylib demo left_world (message alice "hi"))
      as (_ & H & _).
    destruct (H fresh (after (check_subscription demo left_world 5 fresh))
                (trace_of (check_subscription demo left_world 5 fresh))
                1700000300 tt eq_refl eq_refl) as [_ Hrun].
    exact Hrun.
  - destruct (router_upsert_order plain_pylib demo member_world (message alice "hi"))
      as (_ & _ & H).
    exact (H fresh (after (check_subscription demo member_world 5 fresh))
             (trace_of (check_subscription demo member_world 5 fresh)) eq_refl).
Defined.

(** C4 fails: after a download that delivers the file, and after one that
    yt_dlp refuses, the [downloads] table is empty. *)
Lemma download_attempts_leave_no_record :
  let link := message alice "https://youtu.be/abc123" in
  let ok := handle_message plain_pylib demo member_world link fresh in
  let ko := handle_message plain_pylib demo broken_fetch_world link fresh in
  existsb is_delivery (trace_of ok) = true /\
  Store.downloads (db (after ok)) = [] /\
  List.length (Store.downloads (db (after ok))) <> 1%nat /\
  existsb is_fetch (trace_of ko) = true /\
  existsb is_delivery (trace_of ko) = false /\
  Store.downloads (db (after ko)) = [] /\
  List.length (Store.downloads (db (after ko))) <> 1%nat.
Proof. vm_compute. repeat split; discriminate. Qed.

(** The admin 7 passes while the channel cannot be reached. *)
Lemma check_subscription_admin_witness :
  In 7 (admin_ids demo) /\
  check_subscription demo offline_world 7 fresh = (Returned true, fresh, []).
Proof.
  assert (H : In 7 (admin_ids demo)) by (simpl; left; reflexivity).
  split; [exact H|].
  exact (check_subscription_admin demo offline_world 7 fresh H).
Defined.

(** Without channel, a sender who left passes. *)
Lemma check_subscription_no_channel_witness :
  channel_username open_house = "" /\
  check_subscription open_house left_world 5 fresh = (Returned true, fresh, []).
Proof.
  split; [reflexivity|].
  exact (check_subscription_no_channel open_house left_world 5 fresh eq_refl).
Defined.



(** A keyword [nickname] for the unseen sender 5: no row is stored, and
    the error is logged. *)
Lemma update_user_info_error_discarded_witness :
  let bad := [("nickname", PyStr "al")] in
  let e := Exn "OperationalError" "no such column: nickname" in
  let left_behind := mk_state (Store.mk_db [] [] true) tt in
  (forallb is_identifier (map fst bad) = true /\
   forallb field_bound bad = false /\
   update_user_info_try demo member_world 5 bad fresh = (Raised e, left_behind, [])) /\
  (exists st' t, update_user_info demo member_world 5 bad fresh = (Returned tt, st', t)) /\
  (Store.users (db left_behind) = Store.users (db fresh) /\
   Store.downloads (db left_behind) = Store.downloads (db fresh) /\
   Store.select_user (db left_behind) 5 = Store.select_user (db fresh) 5 /\
   update_user_info demo member_world 5 bad fresh
   = (Returned tt, left_behind,
      [ev_update_user_info 5 bad;
       ev_log_error ("Error updating user info: " ++ str_exn e)])) /\
  (exists e' st1, update_user_info_try demo member_world 5 bad fresh = (Raised e', st1, [])).
Proof.
  intros bad e left_behind.
  destruct (update_user_info_error_discarded demo member_world 5 bad fresh eq_refl)
    as (Hreturns & Hraised & Hbad).
  split; [repeat split; reflexivity|].
  split; [exact Hreturns|].
  split; [exact (Hraised e left_behind [] eq_refl) | exact (Hbad eq_refl)].
Defined.

(** The example text and a text without URL, from the member 5. *)
Lemma url_routing_witness :
  let text := "check this out https://youtu.be/abc123 thanks" in
  let gate := check_subscription demo member_world 5 fresh in
  (gate = (Returned true, after gate, trace_of gate) /\
   extract_urls_from_text text = ["https://youtu.be/abc123"] /\
   extract_urls_from_text "hello" = [] /\
   is_user_admin demo 5 = false) /\
  (exists r st2 t2,
     process_download plain_pylib demo member_world (message alice text)
       "https://youtu.be/abc123" (after gate) = (r, st2, t2) /\
     handle_message plain_pylib demo member_world (message alice text) fresh
     = (r, st2, (trace_of gate ++ t2)%list) /\
     (forall opts u,
        In (ev_extract_info opts u) (trace_of gate ++ t2) ->
        u = "https://youtu.be/abc123") /\
     (forall m w1,
        reply_text member_world (PyStr "⏳ جاري التحميل...") Telegram.no_markup
          (world (after gate)) = (Returned m, w1) ->
        exists rest,
          t2 = ev_reply_text (PyStr "⏳ جاري التحميل...") Telegram.no_markup
               :: ev_extract_info
                    {| format :=
                         "best[height<=720][ext=mp4]/best[height<=720]/best[ext=mp4]/best";
                       outtmpl := "./downloads/%(title)s.%(ext)s";
                       noplaylist := true |} "https://youtu.be/abc123"
               :: rest)) /\
  (exists r w,
     handle_message plain_pylib demo member_world (message alice "hello") fresh
     = (r, mk_state (db (after gate)) w,
        (trace_of gate
         ++ [ev_reply_text (PyStr send_url_prompt) Telegram.no_markup])%list) /\
     existsb is_fetch
       (trace_of gate ++ [ev_reply_text (PyStr send_url_prompt) Telegram.no_markup])
     = false).
Proof.
  intros text gate.
  destruct (url_routing plain_pylib demo member_world) as (_ & _ & Hurl & Hnone).
  split; [repeat split; reflexivity|].
  split.
  - exact (Hurl (message alice text) fresh (after gate) (trace_of gate)
             "https://youtu.be/abc123" [] eq_refl eq_refl).
  - exact (Hnone (message alice "hello") fresh (after gate) (trace_of gate)
             eq_refl eq_refl eq_refl).
Defined.

(** C9 fails when host is read as the host of the URL: a link whose user
    information spells a platform.  The bot takes the whole text as a URL;
    its host is example.org, which contains no domain of the table; what
    [detect_platform] searches is the netloc, user information included,
    and the label is YouTube. *)
Lemma user_information_counts_as_host :
  let url := "https://youtube.com@example.org/x" in
  extract_urls_from_text url = [url] /\
  urlparse_netloc plain_pylib url = Returned "youtube.com@example.org" /\
  hostname "youtube.com@example.org" = "example.org" /\
  forallb (fun entry => negb (contains (fst entry) (hostname "youtube.com@example.org")))
    supported_domains = true /\
  detect_platform plain_pylib url = "YouTube" /\
  detect_platform plain_pylib url <> "Unknown".
Proof. vm_compute. repeat split; discriminate. Qed.

(** A URL [urlparse] refuses, a netloc of no platform, and two netlocs that
    contain a domain of the table. *)
Lemma detect_platform_spec_witness :
  (urlparse_netloc plain_pylib "http://[::1/x"
   = Raised (Exn "ValueError" "Invalid IPv6 URL") /\
   all_chars host_char "m.YouTube.com" = true /\
   after_host "/watch?v=1" = true) /\
  detect_platform plain_pylib "http://[::1/x" = "Unknown" /\
  detect_platform plain_pylib "https://example.org/x" = "Unknown" /\
  detect_platform plain_pylib "https://m.YouTube.com/watch?v=1" = "YouTube" /\
  detect_platform plain_pylib "https://netflix.com/title" = "Twitter/X" /\
  urlparse_netloc plain_pylib ("https" ++ "://" ++ "m.YouTube.com" ++ "/watch?v=1")
  = Returned "m.YouTube.com" /\
  str_lower plain_pylib "m.YouTube.com" = lower "m.YouTube.com" /\
  detect_platform plain_pylib ("https" ++ "://" ++ "m.YouTube.com" ++ "/watch?v=1")
  = "YouTube".
Proof.
  destruct (detect_platform_spec plain_pylib) as (Hraise & Hnone & _ & Hfirst & Hnet).
  split; [repeat split; reflexivity|].
  repeat apply conj.
  - exact (Hraise "http://[::1/x" (Exn "ValueError" "Invalid IPv6 URL") eq_refl).
  - apply Hnone. intros host Hhost. inversion Hhost; subst. simpl.
    intros d l Hin. apply contains_false.
    repeat (destruct Hin as [Hin | Hin]; [inversion Hin; reflexivity|]).
    destruct Hin.
  - apply (Hfirst "https://m.YouTube.com/watch?v=1" "m.YouTube.com"
             [] "youtube.com" "YouTube" (tl supported_domains) eq_refl eq_refl).
    + exists "m.", "". reflexivity.
    + intros d' l' [].
  - apply (Hfirst "https://netflix.com/title" "netflix.com"
             (firstn 5 supported_domains) "x.com" "Twitter/X"
             (skipn 6 supported_domains) eq_refl eq_refl).
    + exists "netfli", "". reflexivity.
    + intros d' l' Hin. apply contains_false. simpl in Hin.
      repeat (destruct Hin as [Hin | Hin]; [inversion Hin; reflexivity|]).
      destruct Hin.
  - exact (proj1 (Hnet "https" "m.YouTube.com" "/watch?v=1"
                    (or_intror eq_refl) eq_refl eq_refl)).
  - exact (proj1 (proj2 (Hnet "https" "m.YouTube.com" "/watch?v=1"
                           (or_intror eq_refl) eq_refl eq_refl))).
  - destruct (Hnet "https" "m.YouTube.com" "/watch?v=1"
                (or_intror eq_refl) eq_refl eq_refl) as (_ & _ & _ & Hlabel).
    apply (Hlabel [] "youtube.com" "YouTube" (tl supported_domains) eq_refl).
    + exists "m.", "". reflexivity.
    + intros d' l' [].
Defined.

(** ** Concrete runs of the further properties *)

(** The sender 5 is stored by the start command; a link sent next, by the
    sender or by the admin 7, leaves one row per user. *)
Lemma handlers_keep_primary_key_witness :
  let st := after (start_command demo member_world (message alice "hi") fresh) in
  let link := message root "https://youtu.be/abc123" in
  primary_key_ok (db st) /\
  primary_key_ok (db (after (handle_message plain_pylib demo member_world link st))) /\
  primary_key_ok (db (after (start_command demo member_world link st))) /\
  primary_key_ok
    (db (after (process_download plain_pylib demo member_world link "https://youtu.be/abc123" st))).
Proof.
  intros st link.
  assert (H : primary_key_ok (db st)).
  { unfold primary_key_ok. vm_compute. constructor; [simpl; tauto | constructor]. }
  split; [exact H|].
  exact (handlers_keep_primary_key plain_pylib demo member_world link
           "https://youtu.be/abc123" st H).
Defined.

(** The stored flag of the sender 5, who is no admin, is 0 and stays so. *)
Lemma handlers_keep_admin_flags_witness :
  let st := after (start_command demo member_world (message alice "hi") fresh) in
  let link := message alice "https://youtu.be/abc123" in
  admin_flags_ok demo (db st) /\
  admin_flags_ok demo (db (after (handle_message plain_pylib demo member_world link st))) /\
  admin_flags_ok demo (db (after (start_command demo member_world link st))) /\
  admin_flags_ok demo
    (db (after (process_download plain_pylib demo member_world link "https://youtu.be/abc123" st))).
Proof.
  intros st link.
  assert (H : admin_flags_ok demo (db st)).
  { intros r Hr. vm_compute in Hr. destruct Hr as [<- | []]. reflexivity. }
  split; [exact H|].
  exact (handlers_keep_admin_flags plain_pylib demo member_world link
           "https://youtu.be/abc123" st H).
Defined.

(** The start command of the sender 5 on an empty store. *)
Lemma start_command_records_profile_witness :
  (Store.fits_int64 5 = true /\
   Store.locked (db fresh) = false /\
   datetime_now member_world (world fresh) = (1700000000, tt)) /\
  exists r,
    Store.select_user
      (db (after (start_command demo member_world (message alice "hi") fresh))) 5
    = Some r /\
    Store.username r = Store.Text "alice" /\
    Store.first_name r = Store.Text "Alice" /\
    Store.last_name r = Store.Null /\
    Store.language_code r = Store.Text "en" /\
    Store.last_activity r = Store.Timestamp 1700000000.
Proof.
  split; [repeat split; reflexivity|].
  exact (start_command_records_profile demo member_world (message alice "hi")
           fresh 1700000000 tt eq_refl eq_refl eq_refl).
Defined.


(** A sender who left the channel sends a link. *)
Lemma blocked_sender_gets_no_download_witness :
  let link := message alice "https://youtu.be/abc123" in
  let gate := check_subscription demo left_world 5 fresh in
  gate = (Returned false, after gate, trace_of gate) /\
  existsb is_fetch (trace_of (handle_message plain_pylib demo left_world link fresh)) = false /\
  columns_kept [Store.c_total_downloads] (db fresh)
    (db (after (handle_message plain_pylib demo left_world link fresh))).
Proof.
  intros link gate.
  assert (H : gate = (Returned false, after gate, trace_of gate))
    by (vm_compute; reflexivity).
  split; [exact H|].
  exact (blocked_sender_gets_no_download plain_pylib demo left_world link fresh
           (after gate) (trace_of gate) H).
Defined.

(** yt_dlp refuses the link of a member. *)
Lemma failed_fetch_is_reported_witness :
  let link := message alice "https://example.org/clip" in
  let opts := {| format := preset "video_hd";
                 outtmpl := download_path ++ "/%(title)s.%(ext)s";
                 noplaylist := true |} in
  let e := Exn "DownloadError" "Unsupported URL" in
  let run := process_download plain_pylib demo broken_fetch_world link
               "https://example.org/clip" fresh in
  (reply_text broken_fetch_world (PyStr "⏳ جاري التحميل...") Telegram.no_markup
     (world fresh) = (Returned 1, tt) /\
   extract_info broken_fetch_world opts "https://example.org/clip" tt
   = (Raised e, tt) /\
   is_exception e = true) /\
  db (after run) = db fresh /\
  existsb is_delivery (trace_of run) = false /\
  exists rest,
    trace_of run
    = ([ev_reply_text (PyStr "⏳ جاري التحميل...") Telegram.no_markup;
        ev_extract_info opts "https://example.org/clip";
        ev_log_error ("Download error: " ++ str_exn e);
        ev_edit_text 1 ("❌ فشل التحميل: " ++ str_exn e)]
       ++ rest)%list.
Proof.
  intros link opts e run.
  split; [repeat split; reflexivity|].
  destruct (failed_fetch_is_reported plain_pylib demo broken_fetch_world link
              "https://example.org/clip" fresh 1 tt e tt eq_refl eq_refl)
    as (Hdb & Hnone & Hcaught & _).
  split; [exact Hdb|]. split; [exact Hnone | exact (Hcaught eq_refl)].
Defined.

(** yt_dlp refuses the link and Telegram refuses the edits: the handler
    raises the error of the last edit. *)
Lemma process_download_raises_witness :
  let link := message alice "https://example.org/clip" in
  let e := Exn "BadRequest" "Message can't be edited" in
  let run := process_download plain_pylib demo no_edit_world link
               "https://example.org/clip" fresh in
  result_of run = Raised e /\
  ((exists w1,
      reply_text no_edit_world (PyStr "⏳ جاري التحميل...") Telegram.no_markup
        (world fresh) = (Raised e, w1)) \/
   (exists m wa wb,
      edit_text no_edit_world m "❌ حدث خطأ أثناء التحميل" wa = (Raised e, wb) /\
      last (trace_of run) (ev_log_error "")
      = ev_edit_text m "❌ حدث خطأ أثناء التحميل") \/
   (is_exception e = false /\
    raised_in_try no_edit_world "https://example.org/clip" e)).
Proof.
  intros link e run.
  assert (H : result_of run = Raised e) by (vm_compute; reflexivity).
  split; [exact H|].
  exact (process_download_raises plain_pylib demo no_edit_world link
           "https://example.org/clip" fresh e H).
Defined.

(** The link of a message between two words. *)
Lemma extracted_urls_shape_witness :
  In "https://youtu.be/abc123"
     (extract_urls_from_text "see https://youtu.be/abc123 now") /\
  well_formed_url "https://youtu.be/abc123" /\
  substring "https://youtu.be/abc123" "see https://youtu.be/abc123 now".
Proof.
  assert (H : In "https://youtu.be/abc123"
                 (extract_urls_from_text "see https://youtu.be/abc123 now"))
    by (vm_compute; left; reflexivity).
  split; [exact H|].
  exact (extracted_urls_shape "see https://youtu.be/abc123 now"
           "https://youtu.be/abc123" H).
Defined.

Lemma extract_urls_round_trip_witness :
  well_formed_url "https://youtu.be/abc123" /\
  extract_urls_from_text "https://youtu.be/abc123" = ["https://youtu.be/abc123"].
Proof.
  assert (H : well_formed_url "https://youtu.be/abc123").
  { exists "https", "youtu.be/abc123".
    split; [now right|]. split; [reflexivity|]. split; [discriminate | reflexivity]. }
  split; [exact H|].
  exact (extract_urls_round_trip "https://youtu.be/abc123" H).
Defined.

(** Two links with a space between them. *)
Lemma extract_urls_separator_witness :
  url_char " " = false /\
  extract_urls_from_text ("https://youtu.be/a" ++ String " " "http://x.com/b")
  = (extract_urls_from_text "https://youtu.be/a"
     ++ extract_urls_from_text "http://x.com/b")%list.
Proof.
  split; [reflexivity|].
  exact (extract_urls_separator "https://youtu.be/a" " " "http://x.com/b" eq_refl).
Defined.

(** A YouTube link with a path and a query. *)
Lemma detect_platform_reads_host_witness :
  ("https" = "http" \/ "https" = "https") /\
  all_chars host_char "www.YouTube.com" = true /\
  after_host "/watch?v=abc" = true /\
  detect_platform plain_pylib ("https" ++ "://" ++ "www.YouTube.com" ++ "/watch?v=abc")
  = match first_platform supported_domains (lower "www.YouTube.com") with
    | Some platform => platform
    | None => "Unknown"
    end.
Proof.
  split; [now right|]. split; [reflexivity|]. split; [reflexivity|].
  exact (detect_platform_reads_host plain_pylib "https" "www.YouTube.com"
           "/watch?v=abc" (or_intror eq_refl) eq_refl eq_refl).
Defined.

(** Telegram accepts the messages; the membership query and yt_dlp fail
    with an [Exception]. *)
Lemma handlers_return_when_sends_succeed_witness :
  let world := constant_collaborators (Raised (Exn "NetworkError" "Timed out"))
                 (Raised (Exn "DownloadError" "Unsupported URL")) 1700000000 in
  let link := message alice "https://youtu.be/abc123" in
  (sends_succeed world /\ raise_exceptions_only world) /\
  result_of (handle_message_of plain_pylib demo world (Telegram.deliver link) fresh)
  = Returned tt /\
  result_of (start_command_of demo world (Telegram.deliver link) fresh) = Returned tt /\
  result_of (process_download plain_pylib demo world link "https://youtu.be/abc123" fresh)
  = Returned tt.
Proof.
  intros world link.
  assert (H : sends_succeed world).
  { split.
    - intros text markup w. exists 1, w. reflexivity.
    - intros m text w. exists w. reflexivity. }
  assert (Hx : raise_exceptions_only world).
  { repeat split; intros; try discriminate;
      match goal with
      | H0 : _ = (Raised _, _) |- _ => inversion H0; subst; reflexivity
      end. }
  split; [split; assumption|].
  exact (handlers_return_when_sends_succeed plain_pylib demo world
           (Telegram.deliver link) "https://youtu.be/abc123" fresh H Hx).
Defined.

(** The member 5 sends a link; an edited message of the same sender comes
    without [update.message]. *)
Lemma handlers_always_reply_witness :
  let link := message alice "https://youtu.be/abc123" in
  let edited := Telegram.mk_delivery (Some alice) 5 None in
  (forall chat u w e w',
     get_chat_member member_world chat u w = (Raised e, w') ->
     is_exception e = true) /\
  (existsb is_reply
     (trace_of (handle_message_of plain_pylib demo member_world
                  (Telegram.deliver link) fresh)) = true /\
   existsb is_reply
     (trace_of (start_command_of demo member_world (Telegram.deliver link) fresh))
   = true /\
   existsb is_reply
     (trace_of (process_download plain_pylib demo member_world link
                  "https://youtu.be/abc123" fresh)) = true) /\
  (trace_of (handle_message_of plain_pylib demo member_world edited fresh) = [] /\
   existsb is_reply (trace_of (start_command_of demo member_world edited fresh))
   = false).
Proof.
  intros link edited.
  assert (H : forall chat u w e w',
            get_chat_member member_world chat u w = (Raised e, w') ->
            is_exception e = true) by (intros; discriminate).
  split; [exact H|]. split.
  - exact (handlers_always_reply plain_pylib demo member_world
             (Telegram.deliver link) "https://youtu.be/abc123" fresh H).
  - exact (handlers_always_reply plain_pylib demo member_world
             edited "https://youtu.be/abc123" fresh H).
Defined.
